(** * llama-swap: the source patchers and the swebench compatibility shim

  A shallow embedding of

  - [src/mods/vllm-marlin-sm12x-build/patch_streaming.py]
  - [src/mods/vllm-marlin-sm12x-build/patch_transformers.py]
  - [src/proxy/pyshim/sitecustomize.py]

  Python [str] values are Rocq strings of 8-bit characters, the file
  system is a finite map from paths to entries, the scripts are programs
  of a small state-and-exception monad over the file system and the
  printed lines, and the live callables of the shim are terms that record
  how they were wrapped. *)

From Stdlib Require Import Ascii String.
From stdpp Require Import base option list gmap strings.

(** ** Python string operations *)

Module PyStr.

(** The characters that cannot be written inside a literal. *)
Definition nl_char : ascii := "010"%char.
Definition nl : string := String nl_char EmptyString.
Definition dq : string := String "034"%char EmptyString.

(** [str.isspace] on one character (code points below 256). *)
Definition is_space (c : ascii) : bool :=
  let n := nat_of_ascii c in
  ((9 <=? n) && (n <=? 13)) || ((28 <=? n) && (n <=? 32))
  || (n =? 133) || (n =? 160).

(** [s.lstrip()] *)
Fixpoint lstrip (s : string) : string :=
  match s with
  | EmptyString => EmptyString
  | String c s' => if is_space c then lstrip s' else s
  end.

(** [s.rstrip()] *)
Fixpoint rstrip (s : string) : string :=
  match s with
  | EmptyString => EmptyString
  | String c s' =>
      match rstrip s' with
      | EmptyString => if is_space c then EmptyString else String c EmptyString
      | r => String c r
      end
  end.

(** [s.strip()] *)
Definition strip (s : string) : string := rstrip (lstrip s).

(** [s[:n]] *)
Fixpoint str_take (n : nat) (s : string) : string :=
  match n, s with
  | S k, String c s' => String c (str_take k s')
  | _, _ => EmptyString
  end.

(** [s[n:]] *)
Fixpoint str_drop (n : nat) (s : string) : string :=
  match n, s with
  | S k, String _ s' => str_drop k s'
  | _, _ => s
  end.

(** [s.startswith(p)] *)
Fixpoint startswith (p s : string) : bool :=
  match p, s with
  | EmptyString, _ => true
  | String a p', String b s' => if Ascii.eqb a b then startswith p' s' else false
  | String _ _, EmptyString => false
  end.

(** [s.endswith(p)] *)
Definition endswith (p s : string) : bool :=
  (String.length p <=? String.length s)
  && String.eqb (str_drop (String.length s - String.length p) s) p.

(** [sub in s] *)
Fixpoint contains (sub s : string) : bool :=
  startswith sub s
  || match s with
     | EmptyString => false
     | String _ s' => contains sub s'
     end.

(** [s.find(sub)], [None] for -1 *)
Fixpoint find (sub s : string) : option nat :=
  if startswith sub s then Some 0
  else match s with
       | EmptyString => None
       | String _ s' => S <$> find sub s'
       end.

(** The [count] argument of [str.replace]: [None] is the default (-1,
    no bound), [Some n] allows [n] more replacements. *)
Definition may_replace (count : option nat) : bool :=
  match count with
  | Some 0 => false
  | _ => true
  end.

Definition one_less (count : option nat) : option nat := pred <$> count.

(** [s.replace(old, new, count)] for an empty [old]: [new] goes in front of every character
    and at the end. *)
Fixpoint interleave (new : string) (count : option nat) (s : string) : string :=
  if may_replace count then
    new +:+ match s with
            | EmptyString => EmptyString
            | String c s' => String c (interleave new (one_less count) s')
            end
  else s.

(** The left-to-right scan of [str.replace] for a non-empty [old]:
    [skip] characters of an occurrence that has just been replaced are
    still to be passed over, so occurrences never overlap. *)
Fixpoint replace_scan (old new : string) (count : option nat) (skip : nat)
    (s : string) : string :=
  match s with
  | EmptyString => EmptyString
  | String c s' =>
      match skip with
      | S k => replace_scan old new count k s'
      | O =>
          if may_replace count && startswith old s
          then new +:+ replace_scan old new (one_less count) (String.length old - 1) s'
          else String c (replace_scan old new count 0 s')
      end
  end.

(** [s.replace(old, new, count)] *)
Definition replace_count (old new : string) (count : option nat) (s : string) : string :=
  match old with
  | EmptyString => interleave new count s
  | String _ _ => replace_scan old new count 0 s
  end.

(** [s.replace(old, new)] *)
Definition replace (old new s : string) : string := replace_count old new None s.

(** [sep.join(parts)] *)
Fixpoint join (sep : string) (parts : list string) : string :=
  match parts with
  | [] => EmptyString
  | [p] => p
  | p :: rest => p +:+ sep +:+ join sep rest
  end.

(** [s.split(sep)] for a non-empty separator, with the same scan as
    [replace_scan]; the result always has at least one piece. *)
Fixpoint split_scan (sep : string) (skip : nat) (s : string) : list string :=
  match s with
  | EmptyString => [EmptyString]
  | String c s' =>
      match skip with
      | S k => split_scan sep k s'
      | O =>
          if startswith sep s
          then EmptyString :: split_scan sep (String.length sep - 1) s'
          else match split_scan sep 0 s' with
               | [] => [String c EmptyString]
               | piece :: rest => String c piece :: rest
               end
      end
  end.

Definition split (sep s : string) : list string := split_scan sep 0 s.

(** [f.readlines()] of a text whose line terminator is the newline
    character: every line keeps its terminator, and a text that ends in
    a newline yields no empty last line. *)
Fixpoint readlines (s : string) : list string :=
  match s with
  | EmptyString => []
  | String c s' =>
      if Ascii.eqb c nl_char then String c EmptyString :: readlines s'
      else match readlines s' with
           | [] => [String c EmptyString]
           | line :: rest => String c line :: rest
           end
  end.

(** [''.join(lines)], which is also what [f.writelines(lines)] writes. *)
Definition concat (parts : list string) : string :=
  foldr String.append EmptyString parts.

(** [line[:len(line) - len(line.lstrip())]]: the leading white space. *)
Definition indent_of (line : string) : string :=
  str_take (String.length line - String.length (lstrip line)) line.

(** A text given line by line, as the triple-quoted literals of the
    sources are laid out. *)
Definition text (ls : list string) : string := join nl ls.

End PyStr.

(** ** The file system and the scripts' effects *)

Module OS.

(** A path is the list of its components below the root directory. *)
Definition path := list string.

Inductive entry :=
  | File (content : string)
  | Dir.

Abbreviation filesystem := (gmap path entry).

(** [os.path.join(root, rel)] with [rel] split at its slashes. *)
Definition join (root rel : path) : path := root ++ rel.

(** [os.path.dirname] *)
Definition dirname (p : path) : path := removelast p.

(** [os.path.isdir] *)
Definition isdir (fs : filesystem) (p : path) : bool :=
  match fs !! p with
  | Some Dir => true
  | _ => false
  end.

(** [os.path.exists] *)
Definition exists_ (fs : filesystem) (p : path) : bool :=
  match fs !! p with
  | Some _ => true
  | None => false
  end.

(** [d] is [p] or an ancestor of [p]. *)
Fixpoint within (d p : path) : bool :=
  match d, p with
  | [], _ => true
  | a :: d', b :: p' => String.eqb a b && within d' p'
  | _ :: _, [] => false
  end.

(** [d] is a proper ancestor of [p]. *)
Definition below (d p : path) : bool :=
  within d p && (length d <? length p).

(** The base name of [p] ends in [suffix]. *)
Definition name_endswith (suffix : string) (p : path) : bool :=
  match last p with
  | Some name => PyStr.endswith suffix name
  | None => false
  end.

Definition named (name : string) (p : path) : bool :=
  match last p with
  | Some n => String.eqb n name
  | None => false
  end.

Definition is_file (e : entry) : bool :=
  match e with
  | File _ => true
  | Dir => false
  end.

(** The entries below [top] that are not directories. *)
Definition files_below (fs : filesystem) (top : path) : list path :=
  (List.filter (λ kv : path * entry, is_file kv.2 && below top kv.1)
               (map_to_list fs)).*1.

Definition basename (p : path) : string := default EmptyString (last p).

(** The pairs [(dirpath, filename)] that the nested loop
    [for dirpath, _, filenames in os.walk(top): for fname in filenames]
    goes through: one for every entry below [top] that is not a
    directory.  [os.walk] yields nothing when [top] is not a directory.
    The order of the walk is the operating system's. *)
Definition walk (fs : filesystem) (top : path) : list (path * string) :=
  if isdir fs top
  then (λ p, (dirname p, basename p)) <$> files_below fs top
  else [].

(** Whether [find root -name '*.pyc' -delete] removes the entry [e] at
    [p].  The action implies a depth-first traversal: a matching file
    is unlinked, a matching directory is removed only if it is empty by
    then, which is the case exactly when every entry below it matches
    too. *)
Definition find_pyc_deletes (fs : filesystem) (root p : path) (e : entry) : bool :=
  within root p && name_endswith ".pyc" p
  && match e with
     | File _ => true
     | Dir =>
         forallb (λ kv : path * entry,
                    negb (below p kv.1) || name_endswith ".pyc" kv.1)
                 (map_to_list fs)
     end.

(** [find] does nothing but complain when [root] does not exist. *)
Definition find_delete_pyc (root : path) (fs : filesystem) : filesystem :=
  if exists_ fs root
  then filter (λ kv : path * entry, find_pyc_deletes fs root kv.1 kv.2 = false) fs
  else fs.

(** The prefixes of a path, the path itself included. *)
Fixpoint ancestors (p : path) : list path :=
  [] :: match p with
        | [] => []
        | a :: p' => (a ::.) <$> ancestors p'
        end.

(** The entries that
    [find root -name __pycache__ -type d -exec rm -rf {} +] removes:
    every directory of that name at or below [root], with all it holds. *)
Definition in_pycache (fs : filesystem) (root p : path) : bool :=
  existsb (λ d, within root d && named "__pycache__" d && isdir fs d)
          (ancestors p).

Definition find_rm_pycache (root : path) (fs : filesystem) : filesystem :=
  if exists_ fs root
  then filter (λ kv : path * entry, in_pycache fs root kv.1 = false) fs
  else fs.

End OS.

(** ** What the scripts print *)

Module Report.

(** How the attempt of one patch on one text ended. *)
Inductive verdict :=
  | Applied (alternative : nat)
  | AlreadyApplied
  | NoPatternMatch.

Definition is_applied (v : verdict) : bool :=
  match v with
  | Applied _ => true
  | _ => false
  end.

(** One constructor per [print] statement of the two scripts. *)
Inductive message :=
  | Fix0Added            (* Fix 0: assume_32bit_indexing added to torch._inductor.config *)
  | Fix0Already          (* Fix 0: Already present *)
  | Fix0Skip             (* Fix 0: SKIP - config.py not found *)
  | Fix1Applied          (* Fix 1: tool_calls prioritized over empty content *)
  | Fix1Skip (content_check elif : option nat)
                         (* Fix 1: SKIP - pattern not found (content_check=.., elif=..) *)
  | Fix1Already          (* Fix 1: Already applied *)
  | Fix2Applied          (* Fix 2: input_json_delta emitted for single-chunk tool calls *)
  | Fix2Already          (* Fix 2: Already applied *)
  | Fix2Skip             (* Fix 2: SKIP - pattern not found *)
  | PatchedSuccessfully  (* PATCHED successfully! *)
  | NoPatchesApplied     (* No patches applied *)
  | FoundInstallations (roots : list OS.path)
                         (* Found vllm installations: [..] *)
  | Patch3In (relpaths : list OS.path)
                         (* Patch 3: compressed_tensors extra=ignore in: .. *)
  | Patch3None           (* Patch 3: No extra=forbid found (already patched or not needed) *)
  | Patch4Applied (p : OS.path)   (* Patch 4: MoE fallback in .. *)
  | Patch4Already (p : OS.path)   (* Patch 4: Already patched in .. *)
  | Patch4NoPattern (p : OS.path) (* Patch 4: Could not find exact pattern in .. *)
  | Patch7Applied (p : OS.path)   (* Patch 7: AutoWeightsLoader buffer support in .. *)
  | Patch7Already (p : OS.path)   (* Patch 7: Already patched in .. *)
  | Patch7NoPattern (p : OS.path) (* Patch 7: Could not find pattern in .. *)
  | Patch8Applied (p : OS.path) (alternative : nat)
                         (* Patch 8: e_score_correction_bias + MTP ignore in .. (0.15 pattern),
                            or (0.12 pattern) for the alternative 1 *)
  | Patch8NoPattern (p : OS.path) (* Patch 8: Could not find MoEMixin init pattern in .. *)
  | Patch8Already (p : OS.path)   (* Patch 8: Already patched in .. *)
  | Patch11Already (p : OS.path)  (* Patch 11: Already patched in .. *)
  | Patch11Applied (p : OS.path)  (* Patch 11: Anthropic streaming tool_calls fix in .. *)
  | Patch11NoPattern (p : OS.path)(* Patch 11: Could not find pattern in .. *)
  | Patch5Cleared.       (* Patch 5: .pyc caches cleared (all locations) *)

(** The outcome kinds of the specification's data model. *)
Inductive outcome :=
  | applied
  | already_applied
  | skipped_no_target
  | skipped_no_pattern_match.

(** The outcome that a printed line reports, if it reports one. *)
Definition outcome_of (m : message) : option outcome :=
  match m with
  | Fix0Added | Fix1Applied | Fix2Applied
  | Patch4Applied _ | Patch7Applied _ | Patch8Applied _ _ | Patch11Applied _
  | Patch3In _ => Some applied
  | Fix0Already | Fix1Already | Fix2Already
  | Patch4Already _ | Patch7Already _ | Patch8Already _ | Patch11Already _ =>
      Some already_applied
  | Fix0Skip => Some skipped_no_target
  | Fix1Skip _ _ | Fix2Skip
  | Patch4NoPattern _ | Patch7NoPattern _ | Patch8NoPattern _ | Patch11NoPattern _
  | Patch3None => Some skipped_no_pattern_match
  | PatchedSuccessfully | NoPatchesApplied | FoundInstallations _ | Patch5Cleared =>
      None
  end.

End Report.

(** ** The monad of the scripts *)

Module Script.
Import OS Report.

Inductive exn :=
  | FileNotFoundError (p : path)
  | IsADirectoryError (p : path).

(** The state a script runs in: the file system and the lines printed
    so far, oldest first. *)
Record world := World { fs : filesystem; out : list message }.

Inductive result (A : Type) :=
  | Ok (a : A)
  | Raise (e : exn).
Arguments Ok {A} a.
Arguments Raise {A} e.

(** A script step: it ends normally or raises, and leaves a world
    either way. *)
Definition M (A : Type) : Type := world → result A * world.

Definition ret {A} (a : A) : M A := λ w, (Ok a, w).

Definition bind {A B} (m : M A) (k : A → M B) : M B :=
  λ w, match m w with
       | (Ok a, w') => k a w'
       | (Raise e, w') => (Raise e, w')
       end.

Definition raise {A} (e : exn) : M A := λ w, (Raise e, w).

#[global] Instance M_ret : MRet M := @ret.
#[global] Instance M_bind : MBind M := λ A B k m, bind m k.

Definition get_fs : M filesystem := λ w, (Ok (fs w), w).

Definition print (m : message) : M unit :=
  λ w, (Ok tt, World (fs w) (out w ++ [m])).

Definition set_fs (f : filesystem → filesystem) : M unit :=
  λ w, (Ok tt, World (f (fs w)) (out w)).

(** [with open(p) as f: f.read()] *)
Definition read_file (p : path) : M string :=
  λ w, match fs w !! p with
       | Some (File c) => (Ok c, w)
       | Some Dir => (Raise (IsADirectoryError p), w)
       | None => (Raise (FileNotFoundError p), w)
       end.

(** [with open(p, 'w') as f: f.write(c)]: the whole file is replaced;
    a missing file is created when its directory exists. *)
Definition write_file (p : path) (c : string) : M unit :=
  λ w, match fs w !! p with
       | Some Dir => (Raise (IsADirectoryError p), w)
       | Some (File _) => (Ok tt, World (<[p := File c]> (fs w)) (out w))
       | None =>
           if isdir (fs w) (dirname p)
           then (Ok tt, World (<[p := File c]> (fs w)) (out w))
           else (Raise (FileNotFoundError p), w)
       end.

(** [os.remove(p)] *)
Definition remove (p : path) : M unit :=
  λ w, match fs w !! p with
       | Some (File _) => (Ok tt, World (delete p (fs w)) (out w))
       | Some Dir => (Raise (IsADirectoryError p), w)
       | None => (Raise (FileNotFoundError p), w)
       end.

(** [for x in xs: body(x)] *)
Fixpoint for_each {A} (xs : list A) (body : A → M unit) : M unit :=
  match xs with
  | [] => mret tt
  | x :: rest => body x;; for_each rest body
  end.

(** The loop that both fixes of patch_streaming.py run after a write:
    [for d, _, files in os.walk(top): for fn in files:
       if fn.endswith('.pyc'): os.remove(os.path.join(d, fn))] *)
Definition clear_pyc (top : path) : M unit :=
  fs0 ← get_fs;
  for_each (walk fs0 top)
    (λ '(d, fn), if PyStr.endswith ".pyc" fn then remove (OS.join d [fn]) else mret tt).

End Script.

(** ** patch_streaming.py *)

Module PatchStreaming.
Import PyStr OS Report Script.

Definition dist_packages : path :=
  ["usr"; "local"; "lib"; "python3.12"; "dist-packages"].

Definition _ind_cfg_path : path :=
  dist_packages ++ ["torch"; "_inductor"; "config.py"].

Definition fpath : path :=
  dist_packages ++ ["vllm"; "entrypoints"; "anthropic"; "serving.py"].

Definition anthropic_dir : path :=
  dist_packages ++ ["vllm"; "entrypoints"; "anthropic"].

(** *** Fix 0 *)

Definition install_config : string :=
  "install_config_module(sys.modules[__name__])".

Definition install_config_patched : string := text
  [ "# Added by patch: missing in NVIDIA PyTorch 2.10.0a0";
    "assume_32bit_indexing = True";
    EmptyString;
    "install_config_module(sys.modules[__name__])" ].

(** The new text of config.py and the branch taken.  In the first
    branch the script writes whatever [replace] returned. *)
Definition fix0 (_ind_src : string) : string * verdict :=
  if negb (contains "assume_32bit_indexing" _ind_src)
  then (replace install_config install_config_patched _ind_src, Applied 0)
  else (_ind_src, AlreadyApplied).

Definition run_fix0 : M unit :=
  fs0 ← get_fs;
  if exists_ fs0 _ind_cfg_path then
    _ind_src ← read_file _ind_cfg_path;
    match fix0 _ind_src with
    | (_ind_src', Applied _) =>
        write_file _ind_cfg_path _ind_src';;
        clear_pyc (dirname _ind_cfg_path);;
        print Fix0Added
    | _ => print Fix0Already
    end
  else print Fix0Skip.

(** *** Fix 1 *)

Definition content_check : string :=
  "if origin_chunk.choices[0].delta.content is not None:".

Definition tool_calls_elif : string :=
  "elif len(origin_chunk.choices[0].delta.tool_calls) > 0:".

(** The loop over [enumerate(lines)]: each of the two line numbers is
    that of the last line whose stripped text is the anchor. *)
Fixpoint scan_lines (i : nat) (lines : list string)
    (found : option nat * option nat) : option nat * option nat :=
  match lines with
  | [] => found
  | line :: rest =>
      let stripped := strip line in
      let content_check_line :=
        if String.eqb stripped content_check then Some i else found.1 in
      let tool_calls_elif_line :=
        if String.eqb stripped tool_calls_elif then Some i else found.2 in
      scan_lines (S i) rest (content_check_line, tool_calls_elif_line)
  end.

(** [lines[i]], the empty string standing in for an index out of range
    (the scan only returns indices of [lines]). *)
Definition line_at (lines : list string) (i : nat) : string :=
  default EmptyString (lines !! i).

Definition has_tc_lines (indent : string) : string := text
  [ indent +:+ "_has_tc = (origin_chunk.choices[0].delta.tool_calls";
    indent +:+ "           and len(origin_chunk.choices[0].delta.tool_calls) > 0)";
    indent +:+ "if origin_chunk.choices[0].delta.content is not None and not _has_tc:" ].

Definition elif_has_tc (indent2 : string) : string :=
  indent2 +:+ "elif _has_tc:".

Definition fix1 (content : string) : string * verdict * (option nat * option nat) :=
  if negb (contains "_has_tc" content) then
    let lines := split nl content in
    let found := scan_lines 0 lines (None, None) in
    match found with
    | (Some content_check_line, Some tool_calls_elif_line) =>
        let indent := indent_of (line_at lines content_check_line) in
        let indent2 := indent_of (line_at lines tool_calls_elif_line) in
        let lines := <[content_check_line := has_tc_lines indent]> lines in
        let lines := <[tool_calls_elif_line := elif_has_tc indent2]> lines in
        (PyStr.join nl lines, Applied 0, found)
    | _ => (content, NoPatternMatch, found)
    end
  else (content, AlreadyApplied, (None, None)).

Definition fix1_message (v : verdict) (found : option nat * option nat) : message :=
  match v with
  | Applied _ => Fix1Applied
  | NoPatternMatch => Fix1Skip found.1 found.2
  | AlreadyApplied => Fix1Already
  end.

(** *** Fix 2 *)

Definition old_tool_start : string := text
  [ "                                data = chunk.model_dump_json(exclude_unset=True)";
    "                                yield wrap_data_with_event(data, " +:+ dq
      +:+ "content_block_start" +:+ dq +:+ ")";
    "                                content_block_started = True";
    EmptyString;
    "                            else:";
    "                                chunk = AnthropicStreamEvent(";
    "                                    index=content_block_index,";
    "                                    type=" +:+ dq +:+ "content_block_delta" +:+ dq +:+ ",";
    "                                    delta=AnthropicDelta(";
    "                                        type=" +:+ dq +:+ "input_json_delta" +:+ dq +:+ ",";
    "                                        partial_json=tool_call.function.arguments";
    "                                        if tool_call.function";
    "                                        else None," ].

Definition new_tool_start : string := text
  [ "                                data = chunk.model_dump_json(exclude_unset=True)";
    "                                yield wrap_data_with_event(data, " +:+ dq
      +:+ "content_block_start" +:+ dq +:+ ")";
    "                                content_block_started = True";
    EmptyString;
    "                                # glm47 parser sends id+name+args in one chunk";
    "                                if (tool_call.function";
    "                                        and tool_call.function.arguments):";
    "                                    _args_chunk = AnthropicStreamEvent(";
    "                                        index=content_block_index,";
    "                                        type=" +:+ dq +:+ "content_block_delta" +:+ dq
      +:+ ",";
    "                                        delta=AnthropicDelta(";
    "                                            type=" +:+ dq +:+ "input_json_delta" +:+ dq
      +:+ ",";
    "                                            partial_json=tool_call.function.arguments,";
    "                                        ),";
    "                                    )";
    "                                    _args_data = _args_chunk.model_dump_json(";
    "                                        exclude_unset=True)";
    "                                    yield wrap_data_with_event(";
    "                                        _args_data, " +:+ dq +:+ "content_block_delta"
      +:+ dq +:+ ")";
    EmptyString;
    "                            else:";
    "                                chunk = AnthropicStreamEvent(";
    "                                    index=content_block_index,";
    "                                    type=" +:+ dq +:+ "content_block_delta" +:+ dq +:+ ",";
    "                                    delta=AnthropicDelta(";
    "                                        type=" +:+ dq +:+ "input_json_delta" +:+ dq +:+ ",";
    "                                        partial_json=tool_call.function.arguments";
    "                                        if tool_call.function";
    "                                        else None," ].

Definition fix2 (content : string) : string * verdict :=
  if contains old_tool_start content
  then (replace_count old_tool_start new_tool_start (Some 1) content, Applied 0)
  else if contains "glm47 parser sends" content
  then (content, AlreadyApplied)
  else (content, NoPatternMatch).

Definition fix2_message (v : verdict) : message :=
  match v with
  | Applied _ => Fix2Applied
  | AlreadyApplied => Fix2Already
  | NoPatternMatch => Fix2Skip
  end.

(** *** The script *)

(** The part of the script that deals with serving.py. *)
Definition patch_serving : M unit :=
  content ← read_file fpath;
  let '(content, v1, found) := fix1 content in
  print (fix1_message v1 found);;
  let '(content, v2) := fix2 content in
  print (fix2_message v2);;
  let patched := is_applied v1 || is_applied v2 in
  if patched then
    write_file fpath content;;
    clear_pyc anthropic_dir;;
    print PatchedSuccessfully
  else print NoPatchesApplied.

Definition run : M unit :=
  run_fix0;;
  patch_serving.

End PatchStreaming.

(** ** patch_transformers.py *)

Module PatchTransformers.
Import PyStr OS Report Script.

Definition dist_packages : path :=
  ["usr"; "local"; "lib"; "python3.12"; "dist-packages"].

(** The two places a vllm installation is looked for. *)
Definition vllm_candidates : list path :=
  [ dist_packages ++ ["vllm"]; ["opt"; "vllm"; "vllm-src"; "vllm"] ].

Definition ct_base : path := dist_packages ++ ["compressed_tensors"].

Definition transformers_dir : path := dist_packages ++ ["transformers"].

(** [vllm_roots]: the candidates that are directories, in their order. *)
Definition find_vllm_roots : M (list path) :=
  fs0 ← get_fs;
  let vllm_roots := List.filter (isdir fs0) vllm_candidates in
  print (FoundInstallations vllm_roots);;
  mret vllm_roots.

(** *** Patch 3 *)

Definition forbid_single : string := "extra='forbid'".
Definition ignore_single : string := "extra='ignore'".
Definition forbid_double : string := "extra=" +:+ dq +:+ "forbid" +:+ dq.
Definition ignore_double : string := "extra=" +:+ dq +:+ "ignore" +:+ dq.

Definition patch3 (fc : string) : string * verdict :=
  if contains forbid_single fc || contains forbid_double fc
  then (replace forbid_double ignore_double (replace forbid_single ignore_single fc),
        Applied 0)
  else (fc, NoPatternMatch).

(** [os.path.relpath(fpath, ct_base)] for a path below [ct_base]. *)
Definition relpath (fpath base : path) : path := drop (length base) fpath.

(** One turn of the loop over the files of [ct_base]; [patched_files]
    is the list the loop appends to. *)
Definition patch3_file (patched_files : list path) (dirpath : path) (fname : string)
    : M (list path) :=
  if endswith ".py" fname then
    let fpath := OS.join dirpath [fname] in
    fc ← read_file fpath;
    match patch3 fc with
    | (fc', Applied _) =>
        write_file fpath fc';;
        mret (patched_files ++ [relpath fpath ct_base])
    | _ => mret patched_files
    end
  else mret patched_files.

Fixpoint patch3_loop (files : list (path * string)) (patched_files : list path)
    : M (list path) :=
  match files with
  | [] => mret patched_files
  | (dirpath, fname) :: rest =>
      patched_files ← patch3_file patched_files dirpath fname;
      patch3_loop rest patched_files
  end.

Definition run_patch3 : M unit :=
  fs0 ← get_fs;
  if isdir fs0 ct_base then
    patched_files ← patch3_loop (walk fs0 ct_base) [];
    match patched_files with
    | [] => print Patch3None
    | _ => print (Patch3In patched_files)
    end
  else mret tt.

(** *** The frame of patches 4, 7, 8 and 11

    Each of them is, for every root of [vllm_roots], the same few lines
    around its own decision: skip silently when the target does not
    exist, read it, decide, write in the applying branch only, and print
    one line. *)
Definition patch_target (target : path) (patch : string → string * verdict)
    (report : path → verdict → message) : M unit :=
  fs0 ← get_fs;
  if exists_ fs0 target then
    content ← read_file target;
    match patch content with
    | (content', Applied alt) =>
        write_file target content';;
        print (report target (Applied alt))
    | (_, v) => print (report target v)
    end
  else mret tt.

(** *** Patch 4 *)

Definition old_raise : string := text
  [ "    if matched_target is None:";
    "        raise ValueError(";
    "            f" +:+ dq +:+ "Unable to find matching target for {layer_name} in the " +:+ dq;
    "            " +:+ dq +:+ "compressed-tensors config." +:+ dq;
    "        )" ].

Definition new_raise : string := text
  [ "    # Generic Linear fallback: if " +:+ dq +:+ "Linear" +:+ dq
      +:+ " is in targets and no match found,";
    "    # match it. Any layer reaching here through get_quant_method IS a linear";
    "    # layer (checked via isinstance(layer, LinearBase) or FusedMoE).";
    "    # This handles MoE expert layers and non-standard projection names";
    "    # (e.g., q_a_proj, kv_a_proj_with_mqa in GLM-4.7-Flash).";
    "    if matched_target is None:";
    "        for t in targets:";
    "            if t == " +:+ dq +:+ "Linear" +:+ dq +:+ " or t.endswith(" +:+ dq
      +:+ "Linear" +:+ dq +:+ "):";
    "                matched_target = t";
    "                break";
    EmptyString;
    "    if matched_target is None:";
    "        raise ValueError(";
    "            f" +:+ dq +:+ "Unable to find matching target for {layer_name} in the " +:+ dq;
    "            " +:+ dq +:+ "compressed-tensors config." +:+ dq;
    "        )" ].

Definition patch4 (content : string) : string * verdict :=
  if contains old_raise content && negb (contains "MoE fallback" content)
  then (replace old_raise new_raise content, Applied 0)
  else if contains "MoE fallback" content
  then (content, AlreadyApplied)
  else (content, NoPatternMatch).

Definition patch4_message (p : path) (v : verdict) : message :=
  match v with
  | Applied _ => Patch4Applied p
  | AlreadyApplied => Patch4Already p
  | NoPatternMatch => Patch4NoPattern p
  end.

Definition run_patch4 (vllm_roots : list path) : M unit :=
  for_each vllm_roots (λ root,
    let utils_path :=
      OS.join root ["model_executor"; "layers"; "quantization";
                    "compressed_tensors"; "utils.py"] in
    patch_target utils_path patch4 patch4_message).

(** *** Patch 7 *)

Definition old_method : string := text
  [ "    def _add_loadable_non_param_tensors(";
    "        self, module: nn.Module, child_params: dict[str, torch.Tensor]";
    "    ):";
    "        " +:+ dq +:+ dq +:+ dq;
    "        Add tensor names that are not in the model params that may be in the";
    "        safetensors, e.g., batch normalization stats.";
    "        " +:+ dq +:+ dq +:+ dq;
    "        if isinstance(";
    "            module,";
    "            (";
    "                nn.BatchNorm1d,";
    "                nn.BatchNorm2d,";
    "                nn.BatchNorm3d,";
    "                nn.LazyBatchNorm1d,";
    "                nn.LazyBatchNorm2d,";
    "                nn.LazyBatchNorm3d,";
    "                nn.SyncBatchNorm,";
    "            ),";
    "        ):";
    "            module_state_dict = module.state_dict()";
    "            for stat_name in (" +:+ dq +:+ "running_mean" +:+ dq +:+ ", " +:+ dq
      +:+ "running_var" +:+ dq +:+ ", " +:+ dq +:+ "num_batches_tracked" +:+ dq +:+ "):";
    "                child_params[stat_name] = module_state_dict[stat_name]" ].

Definition new_method : string := text
  [ "    def _add_loadable_non_param_tensors(";
    "        self, module: nn.Module, child_params: dict[str, torch.Tensor]";
    "    ):";
    "        " +:+ dq +:+ dq +:+ dq;
    "        Add tensor names that are not in the model params that may be in the";
    "        safetensors, e.g., batch normalization stats or registered buffers.";
    "        " +:+ dq +:+ dq +:+ dq;
    "        # Add all registered buffers (e.g., e_score_correction_bias in MoE gates)";
    "        for buf_name, buf in module.named_buffers(recurse=False):";
    "            if buf_name not in child_params:";
    "                child_params[buf_name] = buf";
    "        if isinstance(";
    "            module,";
    "            (";
    "                nn.BatchNorm1d,";
    "                nn.BatchNorm2d,";
    "                nn.BatchNorm3d,";
    "                nn.LazyBatchNorm1d,";
    "                nn.LazyBatchNorm2d,";
    "                nn.LazyBatchNorm3d,";
    "                nn.SyncBatchNorm,";
    "            ),";
    "        ):";
    "            module_state_dict = module.state_dict()";
    "            for stat_name in (" +:+ dq +:+ "running_mean" +:+ dq +:+ ", " +:+ dq
      +:+ "running_var" +:+ dq +:+ ", " +:+ dq +:+ "num_batches_tracked" +:+ dq +:+ "):";
    "                child_params[stat_name] = module_state_dict[stat_name]" ].

(** [content.split('_add_loadable_non_param_tensors')[1].split('def ')[0][:200]]:
    the first 200 characters after the first occurrence of the method
    name, cut at the next [def].  The script evaluates it only when
    [old_method], which holds the name, is in [content], so that the
    index 1 exists; the empty string stands in for a missing piece. *)
Definition after_method_name (content : string) : string :=
  let piece := default EmptyString (split "_add_loadable_non_param_tensors" content !! 1) in
  str_take 200 (default EmptyString (split "def " piece !! 0)).

Definition patch7 (content : string) : string * verdict :=
  if contains old_method content
     && negb (contains "named_buffers" (after_method_name content))
  then (replace old_method new_method content, Applied 0)
  else if contains "named_buffers" content
  then (content, AlreadyApplied)
  else (content, NoPatternMatch).

Definition patch7_message (p : path) (v : verdict) : message :=
  match v with
  | Applied _ => Patch7Applied p
  | AlreadyApplied => Patch7Already p
  | NoPatternMatch => Patch7NoPattern p
  end.

Definition run_patch7 (vllm_roots : list path) : M unit :=
  for_each vllm_roots (λ root,
    let utils_path := OS.join root ["model_executor"; "models"; "utils.py"] in
    patch_target utils_path patch7 patch7_message).

(** *** Patch 8 *)

Definition patch8_marker : string :=
  "ignore_unexpected_suffixes.append(" +:+ dq +:+ "e_score_correction_bias" +:+ dq +:+ ")".

(** vLLM 0.15 pattern (with check_version call) *)
Definition old_init_015 : string := text
  [ "        self.check_version(" +:+ dq +:+ "5.0.0.dev0" +:+ dq +:+ ", " +:+ dq
      +:+ "MoE models support" +:+ dq +:+ ")";
    "        super(MixtureOfExperts, self).__init__(vllm_config=vllm_config, prefix=prefix)" ].

Definition new_init_015 : string := text
  [ "        self.check_version(" +:+ dq +:+ "5.0.0.dev0" +:+ dq +:+ ", " +:+ dq
      +:+ "MoE models support" +:+ dq +:+ ")";
    "        super(MixtureOfExperts, self).__init__(vllm_config=vllm_config, prefix=prefix)";
    "        # GLM-4.7-Flash has e_score_correction_bias in MoE gate,";
    "        # but vLLM does not use it (use_grouped_topk=False)";
    "        self.ignore_unexpected_suffixes.append(" +:+ dq +:+ "e_score_correction_bias"
      +:+ dq +:+ ")";
    "        # Ignore MTP (Multi-Token Prediction) layers not used at inference";
    "        _num_nextn = getattr(self.text_config, " +:+ dq +:+ "num_nextn_predict_layers"
      +:+ dq +:+ ", 0)";
    "        if _num_nextn > 0:";
    "            _num_hidden = self.text_config.num_hidden_layers";
    "            for _i in range(_num_nextn):";
    "                self.ignore_unexpected_prefixes.append(f" +:+ dq
      +:+ "model.layers.{_num_hidden + _i}" +:+ dq +:+ ")" ].

(** vLLM 0.12 pattern (without check_version call) *)
Definition old_init_012 : string := text
  [ "        super(MixtureOfExperts, self).__init__(vllm_config=vllm_config, prefix=prefix)" ].

Definition new_init_012 : string := text
  [ "        super(MixtureOfExperts, self).__init__(vllm_config=vllm_config, prefix=prefix)";
    "        # GLM-4.7-Flash has e_score_correction_bias in MoE gate,";
    "        # but vLLM does not use it (use_grouped_topk=False)";
    "        self.ignore_unexpected_suffixes.append(" +:+ dq +:+ "e_score_correction_bias"
      +:+ dq +:+ ")";
    "        # Ignore MTP (Multi-Token Prediction) layers not used at inference";
    "        _num_nextn = getattr(self.text_config, " +:+ dq +:+ "num_nextn_predict_layers"
      +:+ dq +:+ ", 0)";
    "        if _num_nextn > 0:";
    "            _num_hidden = self.text_config.num_hidden_layers";
    "            for _i in range(_num_nextn):";
    "                self.ignore_unexpected_prefixes.append(f" +:+ dq
      +:+ "model.layers.{_num_hidden + _i}" +:+ dq +:+ ")" ].

Definition patch8 (content : string) : string * verdict :=
  if negb (contains patch8_marker content) then
    if contains old_init_015 content
    then (replace old_init_015 new_init_015 content, Applied 0)
    else if contains old_init_012 content
    then (replace old_init_012 new_init_012 content, Applied 1)
    else (content, NoPatternMatch)
  else (content, AlreadyApplied).

Definition patch8_message (p : path) (v : verdict) : message :=
  match v with
  | Applied alt => Patch8Applied p alt
  | AlreadyApplied => Patch8Already p
  | NoPatternMatch => Patch8NoPattern p
  end.

Definition run_patch8 (vllm_roots : list path) : M unit :=
  for_each vllm_roots (λ root,
    let moe_mixin_path :=
      OS.join root ["model_executor"; "models"; "transformers"; "moe.py"] in
    patch_target moe_mixin_path patch8 patch8_message).

(** *** Patch 11 *)

Definition content_check : string :=
  "if origin_chunk.choices[0].delta.content is not None:".

Definition tool_calls_elif : string :=
  "elif len(origin_chunk.choices[0].delta.tool_calls) > 0:".

Fixpoint scan_lines (i : nat) (lines : list string)
    (found : option nat * option nat) : option nat * option nat :=
  match lines with
  | [] => found
  | line :: rest =>
      let stripped := strip line in
      let content_check_line :=
        if String.eqb stripped content_check then Some i else found.1 in
      let tool_calls_elif_line :=
        if String.eqb stripped tool_calls_elif then Some i else found.2 in
      scan_lines (S i) rest (content_check_line, tool_calls_elif_line)
  end.

Definition line_at (lines : list string) (i : nat) : string :=
  default EmptyString (lines !! i).

Definition has_tc_lines (indent : string) : string :=
  indent +:+ "_has_tc = (origin_chunk.choices[0].delta.tool_calls" +:+ nl
  +:+ indent +:+ "           and len(origin_chunk.choices[0].delta.tool_calls) > 0)" +:+ nl
  +:+ indent +:+ "if origin_chunk.choices[0].delta.content is not None and not _has_tc:"
  +:+ nl.

Definition elif_has_tc (indent2 : string) : string :=
  indent2 +:+ "elif _has_tc:" +:+ nl.

(** The text is read with [readlines], scanned for the two anchors
    first, and only then tested for the marker; the new text is what
    [writelines] writes. *)
Definition patch11 (content : string) : string * verdict :=
  let lines := readlines content in
  let found := scan_lines 0 lines (None, None) in
  if contains "_has_tc" (PyStr.concat lines) then (content, AlreadyApplied)
  else match found with
       | (Some content_check_line, Some tool_calls_elif_line) =>
           let indent := indent_of (line_at lines content_check_line) in
           let indent2 := indent_of (line_at lines tool_calls_elif_line) in
           let lines := <[content_check_line := has_tc_lines indent]> lines in
           let lines := <[tool_calls_elif_line := elif_has_tc indent2]> lines in
           (PyStr.concat lines, Applied 0)
       | _ => (content, NoPatternMatch)
       end.

Definition patch11_message (p : path) (v : verdict) : message :=
  match v with
  | Applied _ => Patch11Applied p
  | AlreadyApplied => Patch11Already p
  | NoPatternMatch => Patch11NoPattern p
  end.

Definition run_patch11 (vllm_roots : list path) : M unit :=
  for_each vllm_roots (λ root,
    let serving_path := OS.join root ["entrypoints"; "anthropic"; "serving.py"] in
    patch_target serving_path patch11 patch11_message).

(** *** Patch 5 *)

(** The two [find] commands run on one directory. *)
Definition clear_caches (root : path) : M unit :=
  set_fs (find_delete_pyc root);;
  set_fs (find_rm_pycache root).

Definition run_patch5 (vllm_roots : list path) : M unit :=
  for_each (vllm_roots ++ [ct_base]) (λ root,
    fs0 ← get_fs;
    if isdir fs0 root then clear_caches root else mret tt);;
  clear_caches transformers_dir;;
  print Patch5Cleared.

(** *** The script *)

Definition run : M unit :=
  vllm_roots ← find_vllm_roots;
  run_patch3;;
  run_patch4 vllm_roots;;
  run_patch7 vllm_roots;;
  run_patch8 vllm_roots;;
  run_patch11 vllm_roots;;
  run_patch5 vllm_roots.

End PatchTransformers.

(** ** sitecustomize.py *)

Module Shim.

(** *** Datasets and arguments *)

Definition column := list string.

(** The values the wrapped functions receive.  A dataset is its table,
    the columns in order; any other object has no [column_names]. *)
Inductive value :=
  | VNone
  | VDataset (table : list (string * column))
  | VObject (label : string).

(** [getattr(dataset, "column_names", []) or []] *)
Definition column_names (dataset : value) : list string :=
  match dataset with
  | VDataset table => table.*1
  | _ => []
  end.

(** [dataset[name]] *)
Fixpoint table_column (table : list (string * column)) (name : string) : column :=
  match table with
  | [] => []
  | (n, col) :: rest => if String.eqb n name then col else table_column rest name
  end.

Definition getitem (dataset : value) (name : string) : column :=
  match dataset with
  | VDataset table => table_column table name
  | _ => []
  end.

(** [dataset.add_column(name, col)]: a new dataset with the column
    appended. *)
Definition add_column (name : string) (col : column) (dataset : value) : value :=
  match dataset with
  | VDataset table => VDataset (table ++ [(name, col)])
  | other => other
  end.

Definition candidates : list string :=
  ["text"; "problem_statement"; "prompt"; "question"].

(** The [for candidate in (...)] loop with its early [return], and the
    [return "text"] after it. *)
Fixpoint pick_loop (candidates : list string) (columns : gset string) : string :=
  match candidates with
  | [] => "text"
  | candidate :: rest =>
      if decide (candidate ∈ columns) then candidate else pick_loop rest columns
  end.

Definition _pick_text_column (dataset : value) : string :=
  let columns : gset string := list_to_set (column_names dataset) in
  pick_loop candidates columns.

(** What [compat_openai_inference] does to its arguments before it
    calls the original. *)
Definition compat_arguments (args : list value) (kwargs : gmap string value)
    : list value * gmap string value :=
  let dataset := default VNone (kwargs !! "test_dataset") in
  let dataset :=
    match dataset, args with
    | VNone, first :: _ => first
    | _, _ => dataset
    end in
  match dataset with
  | VNone => (args, kwargs)
  | _ =>
      let columns : gset string := list_to_set (column_names dataset) in
      if decide ("text" ∉ columns) then
        let fallback := _pick_text_column dataset in
        if decide (fallback ≠ "text") then
          let dataset := add_column "text" (getitem dataset fallback) dataset in
          match args with
          | _ :: rest => (dataset :: rest, kwargs)
          | [] => (args, <["test_dataset" := dataset]> kwargs)
          end
        else (args, kwargs)
      else (args, kwargs)
  end.

(** *** Callables *)

(** A callable of the patched modules: a function of the host library,
    or one of the closures that [_patch_swebench_main] builds around
    the function it found installed.  [compat_main] keeps no original:
    it takes the place of [api.main] and looks [api.openai_inference]
    up when it is called. *)
Inductive callable :=
  | Host (name : string)
  | compat_encoding_for_model (original_encoding_for_model : callable)
  | compat_openai_inference (original_openai_inference : callable)
  | compat_main.

(** A call of an inference function: the host function that is
    reached in the end, and the arguments it is called with. *)
Fixpoint deliver (f : callable) (args : list value) (kwargs : gmap string value)
    : callable * list value * gmap string value :=
  match f with
  | compat_openai_inference original_openai_inference =>
      let '(args, kwargs) := compat_arguments args kwargs in
      deliver original_openai_inference args kwargs
  | _ => (f, args, kwargs)
  end.

Section Encodings.
Context {encoding : Type}.
(** The host's [encoding_for_model] functions by name, and
    [tiktoken.get_encoding]; [None] is a raised exception. *)
Variable host_encoding_for_model : string → string → option encoding.
Variable get_encoding : string → option encoding.

Fixpoint call_encoding_for_model (f : callable) (model_name : string)
    : option encoding :=
  match f with
  | Host name => host_encoding_for_model name model_name
  | compat_encoding_for_model original_encoding_for_model =>
      match call_encoding_for_model original_encoding_for_model model_name with
      | Some enc => Some enc
      | None => get_encoding "cl100k_base"
      end
  | _ => None
  end.
End Encodings.

(** *** The process and the guard *)

Record tiktoken_module := Tiktoken { encoding_for_model : callable }.

Record api_module := RunApi { openai_inference : callable; main : callable }.

(** The two optional modules as the process would import them; [None]
    when the import raises. *)
Record process := Process {
  tiktoken : option tiktoken_module;
  run_api : option api_module
}.

Inductive exn := ImportError (module : string).

Inductive result (A : Type) :=
  | Returns (a : A)
  | Raises (e : exn).
Arguments Returns {A} a.
Arguments Raises {A} e.

(** [import name] *)
Definition import_module {A} (name : string) (found : option A) : result A :=
  match found with
  | Some m => Returns m
  | None => Raises (ImportError name)
  end.

(** [try: body / except Exception: handler] *)
Definition try_except {A} (body : result A) (handler : result A) : result A :=
  match body with
  | Returns a => Returns a
  | Raises _ => handler
  end.

Definition and_then {A B} (m : result A) (k : A → result B) : result B :=
  match m with
  | Returns a => k a
  | Raises e => Raises e
  end.

Definition flag : string := "LLAMA_SWAP_SWEBENCH_TEXT_COMPAT".

Definition _patch_swebench_main (environ : gmap string string) (p : process)
    : result process :=
  if decide (environ !! flag ≠ Some "1") then Returns p
  else
    and_then
      (try_except
         (and_then (import_module "tiktoken" (tiktoken p)) (λ m, Returns (Some m)))
         (Returns None))
      (λ tiktoken_found,
         let p :=
           match tiktoken_found with
           | Some m =>
               let original_encoding_for_model := encoding_for_model m in
               Process
                 (Some (Tiktoken (compat_encoding_for_model original_encoding_for_model)))
                 (run_api p)
           | None => p
           end in
         match import_module "swebench.inference.run_api" (run_api p) with
         | Raises _ => Returns p
         | Returns api =>
             let original_openai_inference := openai_inference api in
             Returns
               (Process (tiktoken p)
                  (Some (RunApi (compat_openai_inference original_openai_inference)
                                compat_main)))
         end).

(** Executing the guard once more in a process it has already run in. *)
Definition twice (environ : gmap string string) (p : process) : result process :=
  and_then (_patch_swebench_main environ p) (_patch_swebench_main environ).

End Shim.

(** ** The properties the specification asks for *)

Module Spec.
Import PyStr OS Report.

(** The pattern matcher in the specification's words: of an ordered
    list of alternatives, the first whose pattern is found in the
    content, with its position in the list. *)
Fixpoint first_match (i : nat) (alternatives : list (string * string))
    (content : string) : option (nat * string * string) :=
  match alternatives with
  | [] => None
  | (pattern, replacement) :: rest =>
      if contains pattern content then Some (i, pattern, replacement)
      else first_match (S i) rest content
  end.

(** The transform of the first matching alternative and of no other. *)
Definition apply_first_match (alternatives : list (string * string))
    (content : string) : string * verdict :=
  match first_match 0 alternatives content with
  | Some (i, pattern, replacement) => (replace pattern replacement content, Applied i)
  | None => (content, NoPatternMatch)
  end.

(** No compiled file is left at or below [root]. *)
Definition no_pyc_files (fs : filesystem) (root : path) : Prop :=
  ∀ p c, within root p = true → name_endswith ".pyc" p = true →
         fs !! p ≠ Some (File c).

(** No cache directory is left at or below [root]. *)
Definition no_pycache_dirs (fs : filesystem) (root : path) : Prop :=
  ∀ p, within root p = true → named "__pycache__" p = true →
       fs !! p ≠ Some Dir.

(** What the loop of [Script.clear_pyc] leaves of a file system: the
    files below [top] whose name ends in .pyc are gone, every other
    entry, the directories among them, is as it was. *)
Definition without_pyc_files (top : path) (fs : filesystem) : filesystem :=
  if isdir fs top
  then filter (λ kv : path * entry,
                 (is_file kv.2 && below top kv.1 && name_endswith ".pyc" kv.1) = false)
              fs
  else fs.

(** A printed line that reports a missing target. *)
Definition reports_missing_target (m : message) : bool :=
  match outcome_of m with
  | Some skipped_no_target => true
  | _ => false
  end.

End Spec.

(** ** The properties asked of the shim *)

Module ShimSpec.
Import Shim.

(** The dataset [compat_openai_inference] looks at: the keyword argument
    [test_dataset] unless it is missing or [None], else the first
    positional argument, else nothing. *)
Definition inspected (args : list value) (kwargs : gmap string value) : value :=
  match default VNone (kwargs !! "test_dataset"), args with
  | VNone, first :: _ => first
  | dataset, _ => dataset
  end.

Definition other_candidates : list string :=
  ["problem_statement"; "prompt"; "question"].

(** The dataset has no column "text" but one of the other candidates. *)
Definition lacks_text_has_other (dataset : value) : Prop :=
  ("text" ∉ column_names dataset)
  ∧ Exists (λ c, c ∈ column_names dataset) other_candidates.

#[global] Instance lacks_text_has_other_dec (dataset : value) :
  Decision (lacks_text_has_other dataset).
Proof. unfold lacks_text_has_other. apply _. Defined.

(** [picked] is the first of [candidates] that is among [columns]. *)
Definition first_present (candidates columns : list string) (picked : string) : Prop :=
  ∃ i, candidates !! i = Some picked ∧ picked ∈ columns
       ∧ ∀ j c, j < i → candidates !! j = Some c → c ∉ columns.

(** A process in which both optional modules import, with the host's
    functions in place. *)
Definition fresh : process :=
  Process (Some (Tiktoken (Host "tiktoken.encoding_for_model")))
          (Some (RunApi (Host "swebench.inference.run_api.openai_inference")
                        (Host "swebench.inference.run_api.main"))).

End ShimSpec.

(** ** File systems to run the scripts on *)

Module Examples.
Import PyStr OS Report Script.

(** [p] and the directories above it, as directories. *)
Definition mkdirs (p : path) (fs0 : filesystem) : filesystem :=
  foldr (λ d m, <[d := Dir]> m) fs0 (ancestors p).

(** The file [p] with the directories above it. *)
Definition with_file (p : path) (content : string) (fs0 : filesystem) : filesystem :=
  <[p := File content]> (mkdirs (dirname p) fs0).

Definition vllm_root : path := PatchTransformers.dist_packages ++ ["vllm"].

Definition quantization_utils : path :=
  vllm_root ++ ["model_executor"; "layers"; "quantization"; "compressed_tensors";
                "utils.py"].

(** A pip installation of vllm whose quantization utils.py is the
    upstream text that Patch 4 looks for. *)
Definition pristine_vllm : filesystem :=
  with_file quantization_utils PatchTransformers.old_raise ∅.

(** A machine with Python's dist-packages and none of the packages. *)
Definition nothing_installed : filesystem :=
  mkdirs PatchTransformers.dist_packages ∅.

(** A serving.py with the two lines that Fix 1 rewrites. *)
Definition serving_py : string := text
  [ "            if origin_chunk.choices[0].delta.content is not None:";
    "                pass";
    "            elif len(origin_chunk.choices[0].delta.tool_calls) > 0:";
    "                pass";
    EmptyString ].

(** The anthropic entry point of an installed vllm, imported once
    already: its compiled file is in the cache directory. *)
Definition imported_serving : filesystem :=
  with_file (PatchStreaming.anthropic_dir ++ ["__pycache__"; "serving.cpython-312.pyc"])
            "compiled"
    (with_file PatchStreaming.fpath serving_py ∅).

(** A moe.py with two classes whose constructors both have the line of
    the vLLM 0.12 pattern. *)
Definition two_constructors : string :=
  PatchTransformers.old_init_012 +:+ nl +:+ PatchTransformers.old_init_012.


End Examples.

(** ** Further properties of the scripts *)

Module Frame.
Import PyStr OS Report Script.

(** The line number a scan for [wanted] ends with: that of the last of
    [lines] that satisfies it, counted from [i]; [init] if there is
    none. *)
Fixpoint last_match (wanted : string → bool) (i : nat) (lines : list string)
    (init : option nat) : option nat :=
  match lines with
  | [] => init
  | line :: rest =>
      last_match wanted (S i) rest (if wanted line then Some i else init)
  end.

(** The part of [s] in front of the first occurrence of [sep]; all of
    [s] if there is none. *)
Definition before (sep s : string) : string :=
  match find sep s with
  | Some n => str_take n s
  | None => s
  end.

(** A script step that ends normally from every world whose file system
    is [good], and leaves a good one. *)
Definition succeeds (good : filesystem → Prop) {A} (m : M A) : Prop :=
  ∀ w, good (fs w) → ∃ a w', m w = (Ok a, w') ∧ good (fs w').

(** Every entry of [fs0] is still an entry of [fs1]. *)
Definition nothing_removed (fs0 fs1 : filesystem) : Prop :=
  ∀ p, is_Some (fs0 !! p) → is_Some (fs1 !! p).

(** A script step that removes no entry, however it ends. *)
Definition removes_nothing {A} (m : M A) : Prop :=
  ∀ w, nothing_removed (fs w) (fs (m w).2).

(** A script step that raises nothing but IsADirectoryError for one of
    [targets] that is a directory, and has removed no entry when it
    raises. *)
Definition stops_only_at (targets : list path) {A} (m : M A) : Prop :=
  ∀ w e w', m w = (Raise e, w') →
            (∃ t, t ∈ targets ∧ e = IsADirectoryError t ∧ fs w' !! t = Some Dir)
            ∧ nothing_removed (fs w) (fs w').

(** The target is missing, or a file to which [patch] does not apply. *)
Definition settled (patch : string → string * verdict) (fs0 : filesystem)
    (target : path) : Prop :=
  match fs0 !! target with
  | Some (File c) => is_applied (patch c).2 = false
  | Some Dir => False
  | None => True
  end.

(** Every entry of [fs1] was an entry of [fs0], of the same kind:
    nothing has been created, and no file has become a directory or a
    directory a file. *)
Definition no_new_entries (fs0 fs1 : filesystem) : Prop :=
  ∀ p e', fs1 !! p = Some e' →
          ∃ e, fs0 !! p = Some e ∧ is_file e = is_file e'.

(** A script step that, however it ends, creates nothing and leaves
    every entry outside [scope] as it was. *)
Definition only_touches {A} (scope : path → bool) (m : M A) : Prop :=
  ∀ w, no_new_entries (fs w) (fs (m w).2)
       ∧ ∀ p, scope p = false → fs (m w).2 !! p = fs w !! p.

(** The files that patches 4, 7, 8 and 11 of patch_transformers.py
    look for, relative to a vllm root. *)
Definition target_files : list path :=
  [ ["model_executor"; "layers"; "quantization"; "compressed_tensors"; "utils.py"];
    ["model_executor"; "models"; "utils.py"];
    ["model_executor"; "models"; "transformers"; "moe.py"];
    ["entrypoints"; "anthropic"; "serving.py"] ].

Definition transformers_targets : list path :=
  root ← PatchTransformers.vllm_candidates; OS.join root <$> target_files.

(** The directories Patch 5 clears. *)
Definition cache_roots : list path :=
  PatchTransformers.vllm_candidates
  ++ [PatchTransformers.ct_base; PatchTransformers.transformers_dir].

(** A compiled file or the content of a cache directory, by its name,
    at or below one of the cleared directories. *)
Definition cache_entry (p : path) : bool :=
  (name_endswith ".pyc" p || existsb (named "__pycache__") (ancestors p))
  && existsb (λ root, within root p) cache_roots.

(** All that patch_transformers.py may change. *)
Definition transformers_scope (p : path) : bool :=
  (below PatchTransformers.ct_base p && name_endswith ".py" p)
  || bool_decide (p ∈ transformers_targets)
  || cache_entry p.

(** All that patch_streaming.py may change. *)
Definition streaming_scope (p : path) : bool :=
  bool_decide (p = PatchStreaming._ind_cfg_path)
  || bool_decide (p = PatchStreaming.fpath)
  || (name_endswith ".pyc" p
      && (below (dirname PatchStreaming._ind_cfg_path) p
          || below PatchStreaming.anthropic_dir p)).

(** What Patch 3 makes of an entry at [p]. *)
Definition patch3_entry (p : path) (e : entry) : entry :=
  match e with
  | File fc =>
      if below PatchTransformers.ct_base p && name_endswith ".py" p
      then File (PatchTransformers.patch3 fc).1
      else e
  | Dir => Dir
  end.

(** The files of [ps] that Patch 3 rewrites, relative to ct_base. *)
Definition patch3_patched (fs0 : filesystem) (ps : list path) : list path :=
  omap (λ p, match fs0 !! p with
             | Some (File fc) =>
                 if name_endswith ".py" p
                    && is_applied (PatchTransformers.patch3 fc).2
                 then Some (PatchTransformers.relpath p PatchTransformers.ct_base)
                 else None
             | _ => None
             end) ps.

End Frame.

(** ** More file systems to run the scripts on *)

Module Installed.
Import PyStr OS Report Script Examples.

Definition moe_py : path :=
  vllm_root ++ ["model_executor"; "models"; "transformers"; "moe.py"].

Definition serving_path : path :=
  vllm_root ++ ["entrypoints"; "anthropic"; "serving.py"].

(** A vllm whose moe.py is the constructor text of the 0.15 pattern. *)
Definition vllm_with_moe : filesystem :=
  with_file moe_py PatchTransformers.old_init_015 ∅.

(** A vllm whose serving.py has the two lines of Patch 11. *)
Definition vllm_with_serving : filesystem :=
  with_file serving_path serving_py ∅.

(** A torch whose config.py is the line Fix 0 looks for. *)
Definition torch_with_config : filesystem :=
  with_file PatchStreaming._ind_cfg_path PatchStreaming.install_config ∅.

(** A torch whose config.py has neither that line nor the attribute,
    with a compiled file beside it. *)
Definition torch_other_config : filesystem :=
  with_file (dirname PatchStreaming._ind_cfg_path ++ ["config.pyc"]) "compiled"
    (with_file PatchStreaming._ind_cfg_path "import sys" ∅).

Definition models_utils : path :=
  vllm_root ++ ["model_executor"; "models"; "utils.py"].

Definition quantization_cache : path :=
  vllm_root ++ ["model_executor"; "layers"; "quantization"; "compressed_tensors";
                "__pycache__"].

(** An imported vllm whose quantization utils.py is the upstream text
    of Patch 4, with its compiled file in the cache directory beside
    it, and whose models/utils.py is a directory. *)
Definition vllm_with_a_directory_target : filesystem :=
  with_file (quantization_cache ++ ["utils.cpython-312.pyc"]) "compiled"
    (with_file quantization_utils PatchTransformers.old_raise
       (mkdirs models_utils ∅)).

(** A vllm whose quantization utils.py is a directory. *)
Definition utils_is_a_directory : filesystem :=
  mkdirs quantization_utils ∅.

(** A package of compressed_tensors with a module in each spelling of
    the option, one without it, and a file that is no module. *)
Definition compressed_tensors : filesystem :=
  with_file (PatchTransformers.ct_base ++ ["config"; "base.py"])
            ("model_config = ConfigDict(" +:+ PatchTransformers.forbid_double +:+ ")")
    (with_file (PatchTransformers.ct_base ++ ["quantization"; "args.py"])
               ("class Config: " +:+ PatchTransformers.forbid_single)
       (with_file (PatchTransformers.ct_base ++ ["version.py"]) "__version__ = 1"
          (with_file (PatchTransformers.ct_base ++ ["README"])
                     PatchTransformers.forbid_single ∅))).

(** A cache directory of an imported vllm, beside a source file. *)
Definition imported_vllm : filesystem :=
  with_file (vllm_root ++ ["__pycache__"; "envs.cpython-312.pyc"]) "compiled"
    (with_file (vllm_root ++ ["__pycache__"; "notes.txt"]) "kept by hand"
       (with_file (vllm_root ++ ["envs.py"]) "import os" ∅)).

End Installed.

(** ** The guard executed again and again *)

Module Repeated.
Import Shim.

(** [n] executions of the guard in one process, each on what the one
    before has left. *)
Fixpoint executions (n : nat) (environ : gmap string string) (p : process)
    : result process :=
  match n with
  | 0 => Returns p
  | S k => and_then (_patch_swebench_main environ p) (executions k environ)
  end.

(** A dataset of two columns, neither of them "text". *)
Definition issues : value :=
  VDataset [ ("instance_id", ["repo-1"; "repo-2"]);
             ("problem_statement", ["it crashes"; "it hangs"]) ].

End Repeated.

(** * Facts *)

(** ** Strings *)

#[local] Arguments String.append !_ _ / : simpl nomatch.

Section StringFacts.
Import PyStr.

Lemma str_app_assoc (a b c : string) : (a +:+ b) +:+ c = a +:+ (b +:+ c).
Proof. induction a as [|x a IH]; simpl; [reflexivity | now rewrite IH]. Qed.

Lemma str_app_nil_r (a : string) : a +:+ EmptyString = a.
Proof. induction a as [|x a IH]; simpl; [reflexivity | now rewrite IH]. Qed.

Lemma startswith_app (p s : string) : startswith p (p +:+ s) = true.
Proof.
  induction p as [|x p IH]; simpl; [reflexivity|].
  now rewrite Ascii.eqb_refl.
Qed.

Lemma startswith_inv (p s : string) :
  startswith p s = true → ∃ r, s = p +:+ r.
Proof.
  revert s. induction p as [|x p IH]; intros s H.
  - now exists s.
  - destruct s as [|y s]; simpl in H; [discriminate|].
    destruct (Ascii.eqb_spec x y) as [->|]; [|discriminate].
    destruct (IH _ H) as [r ->]. now exists r.
Qed.

Lemma startswith_contains (sub s : string) :
  startswith sub s = true → contains sub s = true.
Proof. intros H. destruct s; simpl; now rewrite H. Qed.

(** [sub in s] holds exactly when [s] is some text, [sub], and more
    text. *)
Lemma contains_iff (sub s : string) :
  contains sub s = true ↔ ∃ a b, s = a +:+ sub +:+ b.
Proof.
  split.
  - induction s as [|c s IH]; simpl; intros H.
    + rewrite orb_false_r in H. apply startswith_inv in H as [r ->].
      now exists EmptyString, r.
    + apply orb_true_iff in H as [H|H].
      * apply startswith_inv in H as [r ->]. now exists EmptyString, r.
      * destruct (IH H) as (a & b & ->). now exists (String c a), b.
  - intros (a & b & ->). induction a as [|c a IH]; simpl.
    + apply startswith_contains, startswith_app.
    + rewrite IH. apply orb_true_r.
Qed.

Lemma contains_app_l (sub a s : string) :
  contains sub s = true → contains sub (a +:+ s) = true.
Proof.
  rewrite !contains_iff. intros (x & y & ->).
  exists (a +:+ x), y. now rewrite str_app_assoc.
Qed.

(** Being a substring is transitive. *)
Lemma contains_trans (a b c : string) :
  contains a b = true → contains b c = true → contains a c = true.
Proof.
  rewrite !contains_iff. intros (x & y & ->) (u & v & ->).
  exists (u +:+ x), (y +:+ v). now rewrite !str_app_assoc.
Qed.

Lemma find_contains (sub s : string) :
  contains sub s = true ↔ is_Some (find sub s).
Proof.
  induction s as [|c s IH]; simpl.
  - destruct (startswith sub EmptyString); simpl; split; intros H;
      eauto; try discriminate; destruct H; discriminate.
  - destruct (startswith sub (String c s)); simpl; [split; eauto|].
    rewrite IH. destruct (find sub s); simpl; split; intros H;
      eauto; destruct H; discriminate.
Qed.

(** After a replacement the scan passes over the rest of the
    occurrence without looking at it. *)
Lemma replace_scan_skip (old new : string) (count : option nat) (u s : string) :
  replace_scan old new count (String.length u) (u +:+ s)
  = replace_scan old new count 0 s.
Proof.
  induction u as [|c u IH]; simpl; [|exact IH].
  destruct s; reflexivity.
Qed.

(** When the first occurrence of [old] starts right after [pre], the
    scan copies [pre], emits [new], and goes on behind the occurrence
    with one replacement less to go. *)
Lemma replace_scan_first (old new : string) (count : option nat) (pre post : string) :
  old ≠ EmptyString →
  may_replace count = true →
  find old (pre +:+ old +:+ post) = Some (String.length pre) →
  replace_scan old new count 0 (pre +:+ old +:+ post)
  = pre +:+ new +:+ replace_scan old new (one_less count) 0 post.
Proof.
  intros Hold Hcount. induction pre as [|c pre IH]; simpl; intros Hfind.
  - destruct old as [|o old]; [done|]. simpl.
    rewrite Hcount, Ascii.eqb_refl, startswith_app. simpl.
    rewrite Nat.sub_0_r. f_equal. apply replace_scan_skip.
  - destruct (startswith old (String c (pre +:+ old +:+ post))) eqn:E;
      [discriminate|].
    rewrite andb_false_r. f_equal. apply IH.
    destruct (find old (pre +:+ old +:+ post)); simpl in Hfind; congruence.
Qed.

Lemma replace_scan_exhausted (old new : string) (s : string) :
  replace_scan old new (Some 0) 0 s = s.
Proof. induction s as [|c s IH]; simpl; [reflexivity | now rewrite IH]. Qed.

(** [replace] leaves a text without occurrence as it is. *)
Lemma replace_scan_absent (old new : string) (count : option nat) (s : string) :
  contains old s = false → replace_scan old new count 0 s = s.
Proof.
  induction s as [|c s IH]; simpl; [reflexivity|]. intros H.
  apply orb_false_iff in H as [H1 H2].
  destruct old as [|o old]; [discriminate|].
  simpl in H1 |- *. rewrite H1, andb_false_r. f_equal. now apply IH.
Qed.

Lemma readlines_concat (s : string) : PyStr.concat (readlines s) = s.
Proof.
  induction s as [|c s IH]; simpl; [reflexivity|].
  destruct (Ascii.eqb c nl_char).
  - simpl. now rewrite IH.
  - destruct (readlines s) as [|l ls]; simpl in *; now rewrite <- IH.
Qed.

End StringFacts.

(** ** The file system and the monad *)

Section ScriptFacts.
Import OS Report Script.

Lemma bind_ok {A B} (m : M A) (k : A → M B) (w w' : world) (a : A) :
  m w = (Ok a, w') → (m ≫= k) w = k a w'.
Proof. intros H. unfold mbind, M_bind, bind. now rewrite H. Qed.

(** A sequence that ends normally went through an intermediate world. *)
Lemma bind_inv {A B} (m : M A) (k : A → M B) (w w' : world) (b : B) :
  (m ≫= k) w = (Ok b, w') → ∃ a w1, m w = (Ok a, w1) ∧ k a w1 = (Ok b, w').
Proof.
  unfold mbind, M_bind, bind. destruct (m w) as [[a|e] w1]; intros H.
  - now exists a, w1.
  - discriminate.
Qed.

Lemma world_eta (w : world) : World (fs w) (out w) = w.
Proof. now destruct w. Qed.

Lemma for_each_fmap {A B} (f : A → B) (xs : list A) (body : B → M unit) (w : world) :
  for_each (f <$> xs) body w = for_each xs (λ x, body (f x)) w.
Proof.
  revert w. induction xs as [|x xs IH]; intros w; simpl; [reflexivity|].
  unfold mbind, M_bind, bind. destruct (body (f x) w) as [[[]|e] w1]; auto.
Qed.

Lemma below_nonempty (top p : path) : below top p = true → p ≠ [].
Proof.
  unfold below. intros H ->. apply andb_true_iff in H as [_ H].
  apply Nat.ltb_lt in H. simpl in H. lia.
Qed.

Lemma dirname_basename (p : path) : p ≠ [] → OS.join (dirname p) [basename p] = p.
Proof.
  intros Hp. unfold OS.join, dirname, basename.
  destruct (exists_last Hp) as (l & a & ->).
  rewrite removelast_last, last_snoc. reflexivity.
Qed.

Lemma basename_endswith (suffix : string) (p : path) :
  p ≠ [] → PyStr.endswith suffix (basename p) = name_endswith suffix p.
Proof.
  intros Hp. unfold basename, name_endswith.
  destruct (last p) eqn:E; [reflexivity|].
  apply last_None in E. contradiction.
Qed.

(** A loop that removes some of a list of distinct files ends normally
    and removes exactly those. *)
Lemma remove_loop (doomed : path → bool) (ps : list path) (body : path → M unit)
    (w : world) :
  NoDup ps →
  (∀ p, p ∈ ps → ∃ c, fs w !! p = Some (File c)) →
  (∀ p w, p ∈ ps → body p w = (if doomed p then remove p else mret tt) w) →
  ∃ fs', for_each ps body w = (Ok tt, World fs' (out w))
         ∧ ∀ q, fs' !! q = if bool_decide (q ∈ ps) && doomed q then None else fs w !! q.
Proof.
  revert w. induction ps as [|x ps IH]; intros w Hnd Hfiles Hbody.
  - exists (fs w). split; [simpl; now rewrite world_eta | intros q].
    rewrite bool_decide_eq_false_2; [reflexivity | apply not_elem_of_nil].
  - apply NoDup_cons in Hnd as [Hx Hnd]. simpl.
    destruct (Hfiles x) as [c Hc]; [left|].
    assert (∃ w1, body x w = (Ok tt, w1) ∧ out w1 = out w
                  ∧ ∀ q, fs w1 !! q = if bool_decide (q = x) && doomed x
                                     then None else fs w !! q)
      as (w1 & Hrun & Hout & Hfs).
    { rewrite Hbody by left. destruct (doomed x) eqn:Ed.
      - unfold remove. rewrite Hc. eexists; split; [reflexivity|]. simpl.
        split; [reflexivity|]. intros q. rewrite andb_true_r.
        case_bool_decide as Hq; [subst; apply lookup_delete_eq|].
        now apply lookup_delete_ne.
      - exists w. split; [reflexivity|]. split; [reflexivity|]. intros q.
        now rewrite andb_false_r. }
    destruct (IH w1) as (fs' & Hloop & Hlook); [assumption| | |].
    + intros p Hp. destruct (Hfiles p) as [c' Hc']; [now right|].
      exists c'. rewrite Hfs.
      rewrite bool_decide_eq_false_2; [assumption|]. intros ->. contradiction.
    + intros p w2 Hp. apply Hbody. now right.
    + exists fs'. split.
      * rewrite (bind_ok _ _ _ _ _ Hrun), Hloop, Hout. reflexivity.
      * intros q. rewrite Hlook, Hfs.
        destruct (decide (q = x)) as [->|Hne].
        -- rewrite (bool_decide_eq_false_2 (x ∈ ps)) by assumption.
           rewrite (bool_decide_eq_true_2 (x ∈ x :: ps)) by left.
           rewrite bool_decide_eq_true_2 by reflexivity. simpl.
           destruct (doomed x); reflexivity.
        -- rewrite (bool_decide_eq_false_2 (q = x)) by assumption. simpl.
           destruct (decide (q ∈ ps)) as [Hin|Hnin].
           ++ rewrite !bool_decide_eq_true_2; [reflexivity | now right | assumption].
           ++ rewrite !bool_decide_eq_false_2; [reflexivity | | assumption].
              intros Hin. apply elem_of_cons in Hin as [?|?]; contradiction.
Qed.

Lemma elem_of_files_below (fs0 : gmap path entry) (top p : path) :
  p ∈ files_below fs0 top ↔ (∃ c, fs0 !! p = Some (File c)) ∧ below top p = true.
Proof.
  unfold files_below. rewrite list_elem_of_fmap. split.
  - intros ([q e] & -> & Hin). apply list_elem_of_In, filter_In in Hin as [Hin Hp].
    apply list_elem_of_In, elem_of_map_to_list in Hin. simpl in *.
    apply andb_true_iff in Hp as [Hf Hb]. destruct e; [|discriminate]. eauto.
  - intros [[c Hc] Hb]. exists (p, File c). split; [reflexivity|].
    apply list_elem_of_In, filter_In. split.
    + now apply list_elem_of_In, elem_of_map_to_list.
    + simpl. now rewrite Hb.
Qed.

Lemma NoDup_files_below (fs0 : gmap path entry) (top : path) :
  NoDup (files_below fs0 top).
Proof.
  unfold files_below.
  pose proof (NoDup_fst_map_to_list fs0) as H.
  induction (map_to_list fs0) as [|[q e] l IH]; simpl; [constructor|].
  simpl in H. apply NoDup_cons in H as [Hq Hl].
  destruct (is_file e && below top q); simpl; [|now apply IH].
  apply NoDup_cons. split; [|now apply IH].
  intros Hin. apply Hq. apply list_elem_of_fmap in Hin as ([q' e'] & -> & Hin).
  apply list_elem_of_In, filter_In in Hin as [Hin _].
  apply list_elem_of_fmap. exists (q', e'). split; [reflexivity|].
  now apply list_elem_of_In.
Qed.

(** The clearing loop of patch_streaming.py never raises, and leaves the
    file system without the compiled files below [top]. *)
Lemma clear_pyc_spec (top : path) (w : world) :
  clear_pyc top w = (Ok tt, World (Spec.without_pyc_files top (fs w)) (out w)).
Proof.
  unfold clear_pyc, Spec.without_pyc_files, walk.
  unfold mbind, M_bind, bind, get_fs. simpl.
  destruct (isdir (fs w) top) eqn:Edir; [|simpl; now rewrite world_eta].
  rewrite for_each_fmap.
  destruct (remove_loop (name_endswith ".pyc") (files_below (fs w) top)
              (λ p, if PyStr.endswith ".pyc" (basename p)
                    then remove (OS.join (dirname p) [basename p]) else mret tt) w)
    as (fs' & Hrun & Hlook).
  - apply NoDup_files_below.
  - intros p Hp. now apply elem_of_files_below in Hp as [Hc _].
  - intros p w' Hp. apply elem_of_files_below in Hp as [_ Hb].
    apply below_nonempty in Hb.
    now rewrite basename_endswith, dirname_basename.
  - rewrite Hrun. do 2 f_equal. apply map_eq. intros q. rewrite Hlook.
    destruct (fs w !! q) as [e|] eqn:Eq.
    + destruct (is_file e && below top q && name_endswith ".pyc" q) eqn:Ep.
      * apply andb_true_iff in Ep as [Ep Hn]. apply andb_true_iff in Ep as [Hf Hb].
        destruct e; [|discriminate].
        rewrite bool_decide_eq_true_2, Hn by (apply elem_of_files_below; eauto).
        symmetry. apply map_lookup_filter_None. right. intros e' He' Hk.
        simpl in Hk. rewrite Eq in He'. injection He' as <-. simpl in Hk.
        rewrite Hb, Hn in Hk. discriminate.
      * transitivity (Some e).
        -- destruct (bool_decide (q ∈ files_below (fs w) top)) eqn:Ei;
             [|reflexivity].
           apply bool_decide_eq_true in Ei. apply elem_of_files_below in Ei as [[c Hc] Hb].
           rewrite Eq in Hc. injection Hc as ->. simpl in Ep. rewrite Hb in Ep.
           simpl in Ep. now rewrite Ep.
        -- symmetry. apply map_lookup_filter_Some. split; assumption.
    + transitivity (@None entry).
      * now destruct (bool_decide _ && _).
      * symmetry. apply map_lookup_filter_None. left. assumption.
Qed.

(** The loop leaves every directory where it is. *)
Lemma without_pyc_files_dirs (top : path) (fs0 : gmap path entry) (q : path) :
  fs0 !! q = Some Dir → Spec.without_pyc_files top fs0 !! q = Some Dir.
Proof.
  intros H. unfold Spec.without_pyc_files. destruct (isdir fs0 top); [|assumption].
  apply map_lookup_filter_Some. split; [assumption|]. reflexivity.
Qed.

(** The loop leaves no compiled file below [top]. *)
Lemma without_pyc_files_clean (top : path) (fs0 : gmap path entry) (q : path) (c : string) :
  isdir fs0 top = true → below top q = true → name_endswith ".pyc" q = true →
  Spec.without_pyc_files top fs0 !! q ≠ Some (File c).
Proof.
  intros Hd Hb Hn H. unfold Spec.without_pyc_files in H. rewrite Hd in H.
  apply map_lookup_filter_Some in H as [_ H]. simpl in H.
  rewrite Hb, Hn in H. discriminate.
Qed.

(** Without a compiled file below [top] the loop changes nothing. *)
Lemma without_pyc_files_noop (top : path) (fs0 : gmap path entry) :
  (∀ q c, below top q = true → name_endswith ".pyc" q = true → fs0 !! q ≠ Some (File c)) →
  Spec.without_pyc_files top fs0 = fs0.
Proof.
  intros H. unfold Spec.without_pyc_files. destruct (isdir fs0 top); [|reflexivity].
  apply map_filter_id. intros q e He. simpl.
  destruct e as [c|]; [|reflexivity]. simpl.
  destruct (below top q) eqn:Eb; [|reflexivity].
  destruct (name_endswith ".pyc" q) eqn:En; [|reflexivity].
  now destruct (H q c).
Qed.

End ScriptFacts.

(** ** The two [find] commands of Patch 5 *)

Section FindFacts.
Import OS Report Script.

Lemma find_delete_pyc_subseteq (root : path) (fs0 : gmap path entry) :
  find_delete_pyc root fs0 ⊆ fs0.
Proof.
  unfold find_delete_pyc. destruct (exists_ fs0 root); [|reflexivity].
  apply map_filter_subseteq.
Qed.

Lemma find_rm_pycache_subseteq (root : path) (fs0 : gmap path entry) :
  find_rm_pycache root fs0 ⊆ fs0.
Proof.
  unfold find_rm_pycache. destruct (exists_ fs0 root); [|reflexivity].
  apply map_filter_subseteq.
Qed.

Lemma isdir_weaken (fs1 fs2 : gmap path entry) (p : path) :
  fs1 ⊆ fs2 → isdir fs1 p = true → isdir fs2 p = true.
Proof.
  unfold isdir. intros Hsub H. destruct (fs1 !! p) as [e|] eqn:E; [|discriminate].
  now rewrite (lookup_weaken _ _ _ _ E Hsub).
Qed.

Lemma isdir_exists (fs0 : gmap path entry) (p : path) :
  isdir fs0 p = true → exists_ fs0 p = true.
Proof. unfold isdir, exists_. now destruct (fs0 !! p). Qed.

Lemma no_pyc_files_weaken (fs1 fs2 : gmap path entry) (root : path) :
  fs1 ⊆ fs2 → Spec.no_pyc_files fs2 root → Spec.no_pyc_files fs1 root.
Proof.
  intros Hsub H p c Hw Hn E. apply (H p c Hw Hn).
  exact (lookup_weaken _ _ _ _ E Hsub).
Qed.

Lemma no_pycache_dirs_weaken (fs1 fs2 : gmap path entry) (root : path) :
  fs1 ⊆ fs2 → Spec.no_pycache_dirs fs2 root → Spec.no_pycache_dirs fs1 root.
Proof.
  intros Hsub H p Hw Hn E. apply (H p Hw Hn).
  exact (lookup_weaken _ _ _ _ E Hsub).
Qed.

Lemma find_delete_pyc_clean (root : path) (fs0 : gmap path entry) :
  exists_ fs0 root = true → Spec.no_pyc_files (find_delete_pyc root fs0) root.
Proof.
  intros He p c Hw Hn E. unfold find_delete_pyc in E. rewrite He in E.
  apply map_lookup_filter_Some in E as [_ E]. simpl in E.
  unfold find_pyc_deletes in E. rewrite Hw, Hn in E. discriminate.
Qed.

Lemma ancestors_self (p : path) : In p (ancestors p).
Proof.
  induction p as [|a p IH]; simpl; [now left|]. right.
  apply in_map_iff. now exists p.
Qed.

Lemma find_rm_pycache_clean (root : path) (fs0 : gmap path entry) :
  exists_ fs0 root = true → Spec.no_pycache_dirs (find_rm_pycache root fs0) root.
Proof.
  intros He p Hw Hn E. unfold find_rm_pycache in E. rewrite He in E.
  apply map_lookup_filter_Some in E as [E Hk]. simpl in Hk.
  assert (in_pycache fs0 root p = true) as Hin; [|congruence].
  apply existsb_exists. exists p. split; [apply ancestors_self|].
  rewrite Hw, Hn. unfold isdir. now rewrite E.
Qed.

(** With nothing to remove, neither command changes the file system. *)
Lemma find_delete_pyc_noop (root : path) (fs0 : gmap path entry) :
  (∀ p, within root p = true → is_Some (fs0 !! p) → name_endswith ".pyc" p = false) →
  find_delete_pyc root fs0 = fs0.
Proof.
  intros H. unfold find_delete_pyc. destruct (exists_ fs0 root); [|reflexivity].
  apply map_filter_id. intros p e He. simpl. unfold find_pyc_deletes.
  destruct (within root p) eqn:Ew; [|reflexivity].
  rewrite (H p Ew) by eauto. reflexivity.
Qed.

Lemma find_rm_pycache_noop (root : path) (fs0 : gmap path entry) :
  Spec.no_pycache_dirs fs0 root → find_rm_pycache root fs0 = fs0.
Proof.
  intros H. unfold find_rm_pycache. destruct (exists_ fs0 root); [|reflexivity].
  apply map_filter_id. intros p e He. simpl.
  destruct (in_pycache fs0 root p) eqn:E; [|reflexivity].
  apply existsb_exists in E as (d & _ & Hd).
  apply andb_true_iff in Hd as [Hd Hdir]. apply andb_true_iff in Hd as [Hw Hn].
  unfold isdir in Hdir. destruct (fs0 !! d) as [[|]|] eqn:Ed; try discriminate.
  now destruct (H d Hw Hn).
Qed.

(** What one turn of the loop of Patch 5 does to the file system. *)
Lemma clear_caches_spec (root : path) (w : world) :
  PatchTransformers.clear_caches root w
  = (Ok tt, World (find_rm_pycache root (find_delete_pyc root (fs w))) (out w)).
Proof. reflexivity. Qed.

Lemma clear_caches_clean (root : path) (fs0 fs1 : gmap path entry) :
  fs1 ⊆ find_rm_pycache root (find_delete_pyc root fs0) →
  isdir fs1 root = true →
  Spec.no_pyc_files fs1 root ∧ Spec.no_pycache_dirs fs1 root.
Proof.
  intros Hsub Hd.
  pose proof (find_rm_pycache_subseteq root (find_delete_pyc root fs0)) as H1.
  pose proof (find_delete_pyc_subseteq root fs0) as H2.
  assert (fs1 ⊆ find_delete_pyc root fs0) as H3 by (etrans; eassumption).
  split.
  - apply (no_pyc_files_weaken _ _ _ H3), find_delete_pyc_clean.
    apply isdir_exists, (isdir_weaken fs1); [etrans|]; eassumption.
  - apply (no_pycache_dirs_weaken _ _ _ Hsub), find_rm_pycache_clean.
    apply isdir_exists, (isdir_weaken fs1); eassumption.
Qed.

(** The loop of Patch 5 over any list of roots ends normally, only
    removes entries, and leaves every root that is still a directory
    without caches. *)
Lemma patch5_loop_spec (roots : list path) (w : world) :
  ∃ fs', for_each roots
           (λ root, fs0 ← get_fs;
                    if isdir fs0 root then PatchTransformers.clear_caches root
                    else mret tt) w
         = (Ok tt, World fs' (out w))
       ∧ fs' ⊆ fs w
       ∧ ∀ root, root ∈ roots → isdir fs' root = true →
           Spec.no_pyc_files fs' root ∧ Spec.no_pycache_dirs fs' root.
Proof.
  revert w. induction roots as [|r roots IH]; intros w.
  - exists (fs w). split; [simpl; now rewrite world_eta|].
    split; [reflexivity|]. intros root Hin. now apply not_elem_of_nil in Hin.
  - set (fs1 := if isdir (fs w) r
                then find_rm_pycache r (find_delete_pyc r (fs w)) else fs w).
    assert (fs1 ⊆ fs w) as Hsub1.
    { unfold fs1. destruct (isdir (fs w) r); [|reflexivity].
      etrans; [apply find_rm_pycache_subseteq | apply find_delete_pyc_subseteq]. }
    destruct (IH (World fs1 (out w))) as (fs' & Hrun & Hsub & Hclean).
    simpl in Hrun, Hsub. exists fs'. split; [|split].
    + simpl. unfold mbind, M_bind, bind, get_fs. simpl.
      unfold fs1 in Hrun. destruct (isdir (fs w) r).
      * rewrite clear_caches_spec. exact Hrun.
      * simpl. rewrite world_eta in Hrun. exact Hrun.
    + etrans; eassumption.
    + intros root Hin Hd. apply elem_of_cons in Hin as [->|Hin]; [|now apply Hclean].
      assert (isdir (fs w) r = true) as Hd0.
      { apply (isdir_weaken fs'); [etrans|]; eassumption. }
      unfold fs1 in Hsub. rewrite Hd0 in Hsub.
      now apply (clear_caches_clean r (fs w)).
Qed.

End FindFacts.

(** ** The pieces of a split text *)

Section SplitFacts.
Import PyStr.








End SplitFacts.

(** ** The shim *)

Section ShimFacts.
Import Shim ShimSpec.

Lemma pick_loop_spec (cands : list string) (columns : gset string) :
  (∃ i, cands !! i = Some (pick_loop cands columns)
        ∧ pick_loop cands columns ∈ columns
        ∧ ∀ j c, j < i → cands !! j = Some c → c ∉ columns)
  ∨ ((∀ c, c ∈ cands → c ∉ columns) ∧ pick_loop cands columns = "text").
Proof.
  induction cands as [|x cands IH]; simpl.
  - right. split; [|reflexivity]. intros c Hc. now apply not_elem_of_nil in Hc.
  - destruct (decide (x ∈ columns)) as [Hx|Hx].
    + left. exists 0. split; [reflexivity|]. split; [assumption|]. intros; lia.
    + destruct IH as [(i & Hi & Hin & Hbefore)|[Hnone Htext]].
      * left. exists (S i). split; [assumption|]. split; [assumption|].
        intros [|j] c Hj Hc; simpl in Hc.
        -- now injection Hc as <-.
        -- apply (Hbefore j); [lia | assumption].
      * right. split; [|assumption].
        intros c Hc. apply elem_of_cons in Hc as [->|Hc]; auto.
Qed.

Lemma pick_text_column_spec (dataset : value) :
  first_present candidates (column_names dataset) (_pick_text_column dataset)
  ∨ ((∀ c, c ∈ candidates → c ∉ column_names dataset)
     ∧ _pick_text_column dataset = "text").
Proof.
  unfold _pick_text_column, first_present.
  destruct (pick_loop_spec candidates (list_to_set (column_names dataset)))
    as [(i & Hi & Hin & Hbefore)|[Hnone Htext]].
  - left. exists i. split; [assumption|]. rewrite elem_of_list_to_set in Hin.
    split; [assumption|]. intros j c Hj Hc Hcol.
    apply (Hbefore j c Hj Hc). now apply elem_of_list_to_set.
  - right. split; [|assumption]. intros c Hc Hcol.
    apply (Hnone c Hc). now apply elem_of_list_to_set.
Qed.

Lemma lacks_text_has_other_pick (dataset : value) :
  lacks_text_has_other dataset ↔
  ("text" ∉ column_names dataset) ∧ _pick_text_column dataset ≠ "text".
Proof.
  unfold lacks_text_has_other, other_candidates.
  rewrite !Exists_cons, Exists_nil.
  destruct (pick_text_column_spec dataset)
    as [(i & Hi & Hin & _)|[Hnone Htext]].
  - split; intros [Ht Hother]; (split; [assumption|]).
    + intros E. rewrite E in Hin. contradiction.
    + unfold candidates in Hi.
      destruct i as [|[|[|[|i]]]]; simpl in Hi; try discriminate;
        injection Hi as Hi; rewrite <- Hi in Hin, Hother;
        first [congruence | tauto].
  - split; intros [Ht Hother]; [|contradiction].
    exfalso. unfold candidates in Hnone.
    destruct Hother as [H|[H|[H|[]]]]; revert H; apply Hnone;
      repeat ((now left) || right).
Qed.

Lemma no_candidate_without_columns (dataset : value) :
  column_names dataset = [] → ¬ lacks_text_has_other dataset.
Proof.
  intros E [_ H]. rewrite E in H. unfold other_candidates in H.
  rewrite !Exists_cons, Exists_nil in H.
  destruct H as [H|[H|[H|[]]]]; now apply not_elem_of_nil in H.
Qed.

(** The nested tests of the wrapper amount to the one condition. *)
Lemma adapt_dataset {R} (dataset : value) (adapted unchanged : R) :
  match dataset with
  | VNone => unchanged
  | _ =>
      if decide ("text" ∉ (list_to_set (column_names dataset) : gset string)) then
        if decide (_pick_text_column dataset ≠ "text") then adapted else unchanged
      else unchanged
  end
  = if decide (lacks_text_has_other dataset) then adapted else unchanged.
Proof.
  assert ((if decide ("text" ∉ (list_to_set (column_names dataset) : gset string)) then
             if decide (_pick_text_column dataset ≠ "text") then adapted else unchanged
           else unchanged)
          = if decide (lacks_text_has_other dataset) then adapted else unchanged)
    as Hsame.
  { destruct (decide (lacks_text_has_other dataset)) as [H|H];
      rewrite lacks_text_has_other_pick in H.
    - destruct H as [Ht Hp].
      rewrite decide_True by (now rewrite elem_of_list_to_set).
      now rewrite decide_True.
    - case_decide as Ht; [|reflexivity]. rewrite elem_of_list_to_set in Ht.
      case_decide; [tauto | reflexivity]. }
  destruct dataset; exact Hsame.
Qed.

Lemma compat_arguments_spec (args : list value) (kwargs : gmap string value) :
  let dataset := inspected args kwargs in
  compat_arguments args kwargs =
    if decide (lacks_text_has_other dataset) then
      let dataset' :=
        add_column "text" (getitem dataset (_pick_text_column dataset)) dataset in
      match args with
      | _ :: rest => (dataset' :: rest, kwargs)
      | [] => ([], <["test_dataset" := dataset']> kwargs)
      end
    else (args, kwargs).
Proof.
  unfold compat_arguments, inspected.
  destruct (default VNone (kwargs !! "test_dataset")) as [|table|label];
    destruct args as [|first rest]; cbv zeta; cbv iota;
    rewrite <- adapt_dataset; reflexivity.
Qed.

Lemma add_text_has_text (dataset : value) (col : column) :
  lacks_text_has_other dataset →
  "text" ∈ column_names (add_column "text" col dataset).
Proof.
  intros H. destruct dataset as [|table|label];
    try (exfalso; revert H; now apply no_candidate_without_columns).
  unfold add_column, column_names. rewrite fmap_app.
  apply elem_of_app. right. left.
Qed.

(** Adapting adapted arguments changes nothing more. *)
Lemma compat_arguments_idempotent (args : list value) (kwargs : gmap string value) :
  let '(args', kwargs') := compat_arguments args kwargs in
  compat_arguments args' kwargs' = (args', kwargs').
Proof.
  rewrite compat_arguments_spec.
  destruct (decide (lacks_text_has_other (inspected args kwargs))) as [H|H].
  - set (d := inspected args kwargs) in *.
    set (d' := add_column "text" (getitem d (_pick_text_column d)) d).
    assert (¬ lacks_text_has_other d') as Hd'.
    { intros [Hno _]. apply Hno. now apply add_text_has_text. }
    assert (d' ≠ VNone) as Hne.
    { unfold d'. destruct d; simpl; try discriminate.
      exfalso. revert H. now apply no_candidate_without_columns. }
    destruct args as [|a rest]; cbv beta iota zeta.
    + rewrite compat_arguments_spec.
      assert (inspected [] (<["test_dataset" := d']> kwargs) = d') as ->.
      { unfold inspected. rewrite lookup_insert_eq. simpl. now destruct d'. }
      now rewrite decide_False.
    + rewrite compat_arguments_spec.
      destruct (default VNone (kwargs !! "test_dataset")) eqn:Ek.
      * assert (inspected (d' :: rest) kwargs = d') as ->.
        { unfold inspected. now rewrite Ek. }
        now rewrite decide_False.
      * assert (inspected (d' :: rest) kwargs = d) as ->.
        { unfold d, inspected. now rewrite Ek. }
        rewrite decide_True by assumption. reflexivity.
      * assert (inspected (d' :: rest) kwargs = d) as ->.
        { unfold d, inspected. now rewrite Ek. }
        rewrite decide_True by assumption. reflexivity.
  - rewrite compat_arguments_spec. now rewrite decide_False.
Qed.

End ShimFacts.

(** ** The patches on a text *)

Section PatchFacts.
Import PyStr OS Report Script.

(** [s.replace(old, new, count)] at the first occurrence of a non-empty
    [old]. *)
Lemma replace_count_first (old new : string) (count : option nat) (pre post : string) :
  old ≠ EmptyString →
  may_replace count = true →
  find old (pre +:+ old +:+ post) = Some (String.length pre) →
  replace_count old new count (pre +:+ old +:+ post)
  = pre +:+ new +:+ replace_count old new (one_less count) post.
Proof.
  intros Hold Hcount Hfind. unfold replace_count.
  destruct old as [|c old]; [done|]. now apply replace_scan_first.
Qed.

(** With [count = 1] the text behind the first occurrence is kept. *)
Lemma replace_once (old new pre post : string) :
  old ≠ EmptyString →
  find old (pre +:+ old +:+ post) = Some (String.length pre) →
  replace_count old new (Some 1) (pre +:+ old +:+ post) = pre +:+ new +:+ post.
Proof.
  intros Hold Hfind. rewrite replace_count_first by done. simpl.
  unfold replace_count. destruct old; [done|]. now rewrite replace_scan_exhausted.
Qed.

(** Without a count the replacement goes on behind the first
    occurrence. *)
Lemma replace_all_first (old new pre post : string) :
  old ≠ EmptyString →
  find old (pre +:+ old +:+ post) = Some (String.length pre) →
  replace old new (pre +:+ old +:+ post) = pre +:+ new +:+ replace old new post.
Proof. intros Hold Hfind. unfold replace. now rewrite replace_count_first. Qed.

Lemma find_some_contains (sub s : string) (i : nat) :
  find sub s = Some i → contains sub s = true.
Proof. intros H. apply find_contains. now rewrite H. Qed.

(** An occurrence found splits the text around it. *)
Lemma find_split (sub s : string) (i : nat) :
  find sub s = Some i →
  ∃ pre post, s = pre +:+ sub +:+ post ∧ String.length pre = i.
Proof.
  revert i. induction s as [|c s IH]; intros i; simpl.
  - destruct (startswith sub EmptyString) eqn:E; [|discriminate].
    intros [= <-]. apply startswith_inv in E as [r ->].
    now exists EmptyString, r.
  - destruct (startswith sub (String c s)) eqn:E.
    + intros [= <-]. apply startswith_inv in E as [r ->].
      now exists EmptyString, r.
    + destruct (find sub s) as [j|]; [|discriminate]. simpl. intros [= <-].
      destruct (IH j eq_refl) as (pre & post & -> & <-).
      now exists (String c pre), post.
Qed.

(** Where [old] occurs, the text after [replace] holds [new]. *)
Lemma replace_holds_new (old new s : string) :
  old ≠ EmptyString → contains old s = true →
  contains new (replace old new s) = true.
Proof.
  intros Hold Hin. apply find_contains in Hin as [i Hi].
  destruct (find_split _ _ _ Hi) as (pre & post & -> & <-).
  rewrite replace_all_first by assumption.
  apply contains_iff. eauto.
Qed.

(** A line of a text is part of the text. *)
Lemma join_holds_line (sep : string) (lines : list string) (i : nat) (x : string) :
  lines !! i = Some x → contains x (PyStr.join sep lines) = true.
Proof.
  revert i. induction lines as [|l lines IH]; intros i Hi; [discriminate|].
  destruct i as [|i]; simpl in Hi.
  - injection Hi as ->. destruct lines as [|l' lines]; simpl.
    + apply startswith_contains. rewrite <- (str_app_nil_r x) at 2.
      apply startswith_app.
    + apply startswith_contains, startswith_app.
  - destruct lines as [|l' lines]; [discriminate|].
    change (PyStr.join sep (l :: l' :: lines))
      with (l +:+ sep +:+ PyStr.join sep (l' :: lines)).
    do 2 apply contains_app_l. now apply (IH i).
Qed.

Lemma concat_holds_line (lines : list string) (i : nat) (x : string) :
  lines !! i = Some x → contains x (PyStr.concat lines) = true.
Proof.
  revert i. induction lines as [|l lines IH]; intros i Hi; [discriminate|].
  destruct i as [|i]; simpl in Hi.
  - injection Hi as ->. apply startswith_contains, startswith_app.
  - change (PyStr.concat (l :: lines)) with (l +:+ PyStr.concat lines).
    apply contains_app_l. now apply (IH i).
Qed.

End PatchFacts.

(** ** A second run of the patches that write their marker *)

Section SecondRun.
Import PyStr OS Report Script.

Lemma streaming_scan_bound (lines : list string) (i : nat)
    (found : option nat * option nat) :
  let r := PatchStreaming.scan_lines i lines found in
  (r.1 = found.1 ∨ ∃ k, r.1 = Some k ∧ k < i + length lines)
  ∧ (r.2 = found.2 ∨ ∃ k, r.2 = Some k ∧ k < i + length lines).
Proof.
  revert i found. induction lines as [|l lines IH]; intros i found; simpl.
  - split; now left.
  - set (f1 := if String.eqb (strip l) PatchStreaming.content_check
               then Some i else found.1).
    set (f2 := if String.eqb (strip l) PatchStreaming.tool_calls_elif
               then Some i else found.2).
    destruct (IH (S i) (f1, f2)) as [H1 H2]. cbn [fst snd] in H1, H2. split.
    + destruct H1 as [H1|(k & H1 & Hk)]; rewrite H1;
        [|right; exists k; split; [done|lia]].
      unfold f1. destruct (String.eqb (strip l) PatchStreaming.content_check); [|now left].
      right. exists i. split; [done|lia].
    + destruct H2 as [H2|(k & H2 & Hk)]; rewrite H2;
        [|right; exists k; split; [done|lia]].
      unfold f2. destruct (String.eqb (strip l) PatchStreaming.tool_calls_elif); [|now left].
      right. exists i. split; [done|lia].
Qed.

Lemma transformers_scan_bound (lines : list string) (i : nat)
    (found : option nat * option nat) :
  let r := PatchTransformers.scan_lines i lines found in
  (r.1 = found.1 ∨ ∃ k, r.1 = Some k ∧ k < i + length lines)
  ∧ (r.2 = found.2 ∨ ∃ k, r.2 = Some k ∧ k < i + length lines).
Proof.
  revert i found. induction lines as [|l lines IH]; intros i found; simpl.
  - split; now left.
  - set (f1 := if String.eqb (strip l) PatchTransformers.content_check
               then Some i else found.1).
    set (f2 := if String.eqb (strip l) PatchTransformers.tool_calls_elif
               then Some i else found.2).
    destruct (IH (S i) (f1, f2)) as [H1 H2]. cbn [fst snd] in H1, H2. split.
    + destruct H1 as [H1|(k & H1 & Hk)]; rewrite H1;
        [|right; exists k; split; [done|lia]].
      unfold f1. destruct (String.eqb (strip l) PatchTransformers.content_check); [|now left].
      right. exists i. split; [done|lia].
    + destruct H2 as [H2|(k & H2 & Hk)]; rewrite H2;
        [|right; exists k; split; [done|lia]].
      unfold f2. destruct (String.eqb (strip l) PatchTransformers.tool_calls_elif); [|now left].
      right. exists i. split; [done|lia].
Qed.

(** Fix 1 writes its marker: once it has applied, it reports
    already-applied on its own result. *)
Lemma fix1_second_run (content content' : string) (found : option nat * option nat) :
  PatchStreaming.fix1 content = (content', Applied 0, found) →
  PatchStreaming.fix1 content' = (content', AlreadyApplied, (None, None)).
Proof.
  unfold PatchStreaming.fix1 at 1.
  destruct (contains "_has_tc" content); [discriminate|]. cbv [negb]. cbv zeta.
  pose proof (streaming_scan_bound (split nl content) 0 (None, None)) as [_ H2].
  destruct (PatchStreaming.scan_lines 0 (split nl content) (None, None))
    as [[i|] [j|]]; try discriminate.
  cbn [fst snd] in H2.
  destruct H2 as [?|(k & [= <-] & Hk)]; [discriminate|]. simpl in Hk.
  intros [= <- _].
  set (lines1 := <[i := _]> (split nl content)).
  set (new := PatchStreaming.elif_has_tc _).
  assert (contains "_has_tc" (PyStr.join nl (<[j := new]> lines1)) = true) as Hm.
  { apply (contains_trans _ new).
    - unfold new, PatchStreaming.elif_has_tc. apply contains_app_l.
      vm_compute. reflexivity.
    - apply (join_holds_line _ _ j). apply list_lookup_insert_eq.
      unfold lines1. now rewrite length_insert. }
  unfold PatchStreaming.fix1. now rewrite Hm.
Qed.

(** So does Patch 11. *)
Lemma patch11_second_run (content content' : string) :
  PatchTransformers.patch11 content = (content', Applied 0) →
  PatchTransformers.patch11 content' = (content', AlreadyApplied).
Proof.
  unfold PatchTransformers.patch11 at 1. cbv zeta.
  destruct (contains "_has_tc" (PyStr.concat (readlines content)));
    [discriminate|].
  pose proof (transformers_scan_bound (readlines content) 0 (None, None)) as [_ H2].
  destruct (PatchTransformers.scan_lines 0 (readlines content) (None, None))
    as [[i|] [j|]]; try discriminate.
  cbn [fst snd] in H2.
  destruct H2 as [?|(k & [= <-] & Hk)]; [discriminate|]. simpl in Hk.
  intros [= <-].
  set (lines1 := <[i := _]> (readlines content)).
  set (new := PatchTransformers.elif_has_tc _).
  assert (contains "_has_tc" (PyStr.concat (<[j := new]> lines1)) = true) as Hm.
  { apply (contains_trans _ new).
    - unfold new, PatchTransformers.elif_has_tc. apply contains_app_l.
      vm_compute. reflexivity.
    - apply (concat_holds_line _ j). apply list_lookup_insert_eq.
      unfold lines1. now rewrite length_insert. }
  unfold PatchTransformers.patch11. cbv zeta.
  now rewrite readlines_concat, Hm.
Qed.

(** So does Patch 8, with either alternative. *)
Lemma patch8_second_run (content content' : string) (alt : nat) :
  PatchTransformers.patch8 content = (content', Applied alt) →
  PatchTransformers.patch8 content' = (content', AlreadyApplied).
Proof.
  unfold PatchTransformers.patch8 at 1.
  destruct (contains PatchTransformers.patch8_marker content); [discriminate|].
  cbv [negb].
  assert (∀ old new,
            old ≠ EmptyString → contains old content = true →
            contains PatchTransformers.patch8_marker new = true →
            PatchTransformers.patch8 (replace old new content)
            = (replace old new content, AlreadyApplied)) as Hdone.
  { intros old new Hold Hin Hmarker. unfold PatchTransformers.patch8.
    now rewrite (contains_trans _ _ _ Hmarker (replace_holds_new _ new _ Hold Hin)). }
  destruct (contains PatchTransformers.old_init_015 content) eqn:E15.
  - intros [= <- _].
    apply (Hdone PatchTransformers.old_init_015 PatchTransformers.new_init_015);
      [|assumption|vm_compute; reflexivity].
    intros H. apply (f_equal String.length) in H. vm_compute in H. discriminate.
  - destruct (contains PatchTransformers.old_init_012 content) eqn:E12;
      [|discriminate].
    intros [= <- _].
    apply (Hdone PatchTransformers.old_init_012 PatchTransformers.new_init_012);
      [|assumption|vm_compute; reflexivity].
    intros H. apply (f_equal String.length) in H. vm_compute in H. discriminate.
Qed.

(** So does Fix 0, where it found its pattern. *)
Lemma fix0_second_run (content : string) :
  contains "assume_32bit_indexing" content = false →
  contains PatchStreaming.install_config content = true →
  PatchStreaming.fix0 content
  = (replace PatchStreaming.install_config PatchStreaming.install_config_patched
       content, Applied 0)
  ∧ PatchStreaming.fix0
      (replace PatchStreaming.install_config PatchStreaming.install_config_patched
         content)
    = (replace PatchStreaming.install_config PatchStreaming.install_config_patched
         content, AlreadyApplied).
Proof.
  intros Hmarker Hin. unfold PatchStreaming.fix0. rewrite Hmarker.
  split; [reflexivity|].
  rewrite (contains_trans "assume_32bit_indexing"
             PatchStreaming.install_config_patched); [reflexivity | |].
  - vm_compute. reflexivity.
  - apply replace_holds_new; [|assumption].
    intros H. apply (f_equal String.length) in H. vm_compute in H. discriminate.
Qed.

End SecondRun.

(** * Properties of the two patch scripts *)

Section ReplacementProperties.
Import PyStr OS Report Script Examples.

(** C1.  The claim does not hold of Patch 4, whose marker is never
    written: the text that replaces the [raise] holds the old text again
    and does not hold "MoE fallback".  On an installation with the
    upstream utils.py the first run applies the patch, and the second
    run applies it once more, prints the same line instead of the
    already-patched one, and leaves a file that differs from the one the
    first run left. *)
Theorem patch4_applies_again :
  PatchTransformers.patch4 PatchTransformers.old_raise
  = (PatchTransformers.new_raise, Applied 0)
  ∧ contains "MoE fallback" PatchTransformers.new_raise = false
  ∧ contains PatchTransformers.old_raise PatchTransformers.new_raise = true
  ∧ (let first := PatchTransformers.run (World pristine_vllm []) in
     let second := PatchTransformers.run (World (fs first.2) []) in
     let again :=
       replace PatchTransformers.old_raise PatchTransformers.new_raise
               PatchTransformers.new_raise in
     first.1 = Ok tt
     ∧ out first.2 = [FoundInstallations [vllm_root];
                      Patch4Applied quantization_utils; Patch5Cleared]
     ∧ fs first.2 !! quantization_utils = Some (File PatchTransformers.new_raise)
     ∧ second.1 = Ok tt
     ∧ out second.2 = [FoundInstallations [vllm_root];
                       Patch4Applied quantization_utils; Patch5Cleared]
     ∧ fs second.2 !! quantization_utils = Some (File again)
     ∧ again ≠ PatchTransformers.new_raise).
Proof.
  split; [vm_compute; reflexivity|].
  split; [vm_compute; reflexivity|].
  split; [vm_compute; reflexivity|].
  cbv zeta. repeat split; try (vm_compute; reflexivity).
  intros H. apply (f_equal String.length) in H. vm_compute in H. discriminate.
Qed.

(** C2, as stated, fails.  Patch 8 on a moe.py with the line of the 0.12
    pattern in two constructors rewrites both, not the first alone. *)
Lemma patch8_rewrites_both_constructors :
  find PatchTransformers.old_init_012 two_constructors = Some 0
  ∧ PatchTransformers.patch8 two_constructors
    = (PatchTransformers.new_init_012 +:+ nl +:+ PatchTransformers.new_init_012,
       Applied 1)
  ∧ PatchTransformers.new_init_012 +:+ nl +:+ PatchTransformers.new_init_012
    ≠ PatchTransformers.new_init_012 +:+ nl +:+ PatchTransformers.old_init_012.
Proof.
  split; [vm_compute; reflexivity|].
  split; [vm_compute; reflexivity|].
  intros H. apply (f_equal String.length) in H. vm_compute in H. discriminate.
Qed.

Lemma nonempty_by_length (s : string) : String.length s ≠ 0 → s ≠ EmptyString.
Proof. intros H ->. now apply H. Qed.

(** C2, amended.  Only Fix 2 bounds its replacement: it rewrites the
    first occurrence of its pattern and keeps the text behind it, later
    occurrences included.  Fix 0 and Patches 3, 4, 7 and 8 call
    [replace] without a count: when they apply, the first occurrence is
    rewritten and the same replacement goes on in the text behind it, so
    that every occurrence is rewritten. *)
Theorem replacement_counts (pre post : string) :
  (find PatchStreaming.old_tool_start
        (pre +:+ PatchStreaming.old_tool_start +:+ post) = Some (String.length pre) →
   PatchStreaming.fix2 (pre +:+ PatchStreaming.old_tool_start +:+ post)
   = (pre +:+ PatchStreaming.new_tool_start +:+ post, Applied 0))
  ∧ (find PatchStreaming.install_config
          (pre +:+ PatchStreaming.install_config +:+ post) = Some (String.length pre) →
     contains "assume_32bit_indexing"
              (pre +:+ PatchStreaming.install_config +:+ post) = false →
     PatchStreaming.fix0 (pre +:+ PatchStreaming.install_config +:+ post)
     = (pre +:+ PatchStreaming.install_config_patched
        +:+ replace PatchStreaming.install_config
                    PatchStreaming.install_config_patched post,
        Applied 0))
  ∧ (find PatchTransformers.forbid_single
          (pre +:+ PatchTransformers.forbid_single +:+ post) = Some (String.length pre) →
     PatchTransformers.patch3 (pre +:+ PatchTransformers.forbid_single +:+ post)
     = (replace PatchTransformers.forbid_double PatchTransformers.ignore_double
          (pre +:+ PatchTransformers.ignore_single
           +:+ replace PatchTransformers.forbid_single
                       PatchTransformers.ignore_single post),
        Applied 0))
  ∧ (find PatchTransformers.old_raise
          (pre +:+ PatchTransformers.old_raise +:+ post) = Some (String.length pre) →
     contains "MoE fallback" (pre +:+ PatchTransformers.old_raise +:+ post) = false →
     PatchTransformers.patch4 (pre +:+ PatchTransformers.old_raise +:+ post)
     = (pre +:+ PatchTransformers.new_raise
        +:+ replace PatchTransformers.old_raise PatchTransformers.new_raise post,
        Applied 0))
  ∧ (find PatchTransformers.old_method
          (pre +:+ PatchTransformers.old_method +:+ post) = Some (String.length pre) →
     contains "named_buffers"
       (PatchTransformers.after_method_name
          (pre +:+ PatchTransformers.old_method +:+ post)) = false →
     PatchTransformers.patch7 (pre +:+ PatchTransformers.old_method +:+ post)
     = (pre +:+ PatchTransformers.new_method
        +:+ replace PatchTransformers.old_method PatchTransformers.new_method post,
        Applied 0))
  ∧ (find PatchTransformers.old_init_015
          (pre +:+ PatchTransformers.old_init_015 +:+ post) = Some (String.length pre) →
     contains PatchTransformers.patch8_marker
              (pre +:+ PatchTransformers.old_init_015 +:+ post) = false →
     PatchTransformers.patch8 (pre +:+ PatchTransformers.old_init_015 +:+ post)
     = (pre +:+ PatchTransformers.new_init_015
        +:+ replace PatchTransformers.old_init_015 PatchTransformers.new_init_015 post,
        Applied 0))
  ∧ (find PatchTransformers.old_init_012
          (pre +:+ PatchTransformers.old_init_012 +:+ post) = Some (String.length pre) →
     contains PatchTransformers.patch8_marker
              (pre +:+ PatchTransformers.old_init_012 +:+ post) = false →
     contains PatchTransformers.old_init_015
              (pre +:+ PatchTransformers.old_init_012 +:+ post) = false →
     PatchTransformers.patch8 (pre +:+ PatchTransformers.old_init_012 +:+ post)
     = (pre +:+ PatchTransformers.new_init_012
        +:+ replace PatchTransformers.old_init_012 PatchTransformers.new_init_012 post,
        Applied 1)).
Proof.
  repeat split.
  - intros Hfind. unfold PatchStreaming.fix2.
    rewrite (find_some_contains _ _ _ Hfind).
    rewrite replace_once; [reflexivity | | assumption].
    apply nonempty_by_length. vm_compute. discriminate.
  - intros Hfind Hmarker. unfold PatchStreaming.fix0. rewrite Hmarker.
    cbv [negb]. rewrite replace_all_first; [reflexivity | | assumption].
    apply nonempty_by_length. vm_compute. discriminate.
  - intros Hfind. unfold PatchTransformers.patch3.
    rewrite (find_some_contains _ _ _ Hfind). cbv [orb].
    rewrite replace_all_first; [reflexivity | | assumption].
    apply nonempty_by_length. vm_compute. discriminate.
  - intros Hfind Hmarker. unfold PatchTransformers.patch4.
    rewrite (find_some_contains _ _ _ Hfind), Hmarker. cbv [negb andb].
    rewrite replace_all_first; [reflexivity | | assumption].
    apply nonempty_by_length. vm_compute. discriminate.
  - intros Hfind Hmarker. unfold PatchTransformers.patch7.
    rewrite (find_some_contains _ _ _ Hfind), Hmarker. cbv [negb andb].
    rewrite replace_all_first; [reflexivity | | assumption].
    apply nonempty_by_length. vm_compute. discriminate.
  - intros Hfind Hmarker. unfold PatchTransformers.patch8. rewrite Hmarker.
    rewrite (find_some_contains _ _ _ Hfind). cbv [negb].
    rewrite replace_all_first; [reflexivity | | assumption].
    apply nonempty_by_length. vm_compute. discriminate.
  - intros Hfind Hmarker H015. unfold PatchTransformers.patch8.
    rewrite Hmarker, H015, (find_some_contains _ _ _ Hfind). cbv [negb].
    rewrite replace_all_first; [reflexivity | | assumption].
    apply nonempty_by_length. vm_compute. discriminate.
Qed.

Lemma replacement_counts_witness :
  PatchStreaming.fix2
    (EmptyString +:+ PatchStreaming.old_tool_start
     +:+ (nl +:+ PatchStreaming.old_tool_start))
  = (EmptyString +:+ PatchStreaming.new_tool_start
     +:+ (nl +:+ PatchStreaming.old_tool_start), Applied 0).
Proof.
  apply (proj1 (replacement_counts EmptyString (nl +:+ PatchStreaming.old_tool_start))).
  vm_compute. reflexivity.
Defined.

End ReplacementProperties.

Section MarkerProperties.
Import PyStr OS Report Script Examples.

(** What [patch_target] does on a target that is a file. *)
Lemma patch_target_file (target : path) (patch : string → string * verdict)
    (report : path → verdict → message) (w : world) (content : string) :
  fs w !! target = Some (File content) →
  PatchTransformers.patch_target target patch report w
  = match patch content with
    | (content', Applied alt) =>
        (Ok tt, World (<[target := File content']> (fs w))
                      (out w ++ [report target (Applied alt)]))
    | (_, v) => (Ok tt, World (fs w) (out w ++ [report target v]))
    end.
Proof.
  intros Hfile. destruct (patch content) as [content' v] eqn:E.
  unfold PatchTransformers.patch_target.
  unfold mbind, M_bind, bind, get_fs, exists_, read_file. cbv beta iota.
  rewrite Hfile. cbv beta iota. rewrite Hfile. cbv beta iota. rewrite E.
  destruct v as [alt| |]; try reflexivity.
  unfold write_file, print. cbv beta iota. rewrite Hfile. reflexivity.
Qed.

(** What [patch_target] does on a target that does not exist: nothing. *)
Lemma patch_target_missing (target : path) (patch : string → string * verdict)
    (report : path → verdict → message) (w : world) :
  exists_ (fs w) target = false →
  PatchTransformers.patch_target target patch report w = (Ok tt, w).
Proof.
  intros Hmissing. unfold PatchTransformers.patch_target.
  unfold mbind, M_bind, bind, get_fs. now rewrite Hmissing.
Qed.

(** What the serving.py part of patch_streaming.py does when the file
    is there. *)
Lemma patch_serving_file (w : world) (content : string) :
  fs w !! PatchStreaming.fpath = Some (File content) →
  PatchStreaming.patch_serving w
  = let '(content1, v1, found) := PatchStreaming.fix1 content in
    let '(content2, v2) := PatchStreaming.fix2 content1 in
    let printed := out w ++ [PatchStreaming.fix1_message v1 found]
                         ++ [PatchStreaming.fix2_message v2] in
    if is_applied v1 || is_applied v2 then
      (Ok tt,
       World (Spec.without_pyc_files PatchStreaming.anthropic_dir
                (<[PatchStreaming.fpath := File content2]> (fs w)))
             (printed ++ [PatchedSuccessfully]))
    else (Ok tt, World (fs w) (printed ++ [NoPatchesApplied])).
Proof.
  intros Hfile. unfold PatchStreaming.patch_serving.
  unfold mbind at 1. unfold M_bind, bind at 1. unfold read_file at 1.
  rewrite Hfile.
  destruct (PatchStreaming.fix1 content) as [[content1 v1] found].
  unfold mbind at 1. unfold bind at 1. unfold print at 1.
  destruct (PatchStreaming.fix2 content1) as [content2 v2].
  unfold mbind at 1. unfold bind at 1. unfold print at 1.
  cbv zeta. destruct (is_applied v1 || is_applied v2).
  - unfold mbind at 1. unfold bind at 1. unfold write_file at 1.
    cbn [fs out]. rewrite Hfile.
    unfold mbind at 1. unfold bind at 1. rewrite clear_pyc_spec.
    cbn [fs out]. unfold print. cbn [fs out].
    now rewrite <- !app_assoc.
  - unfold print. cbn [fs out]. now rewrite <- !app_assoc.
Qed.




(** C6.  Patch 8 tries its two alternatives in the order 0.15, 0.12 and
    applies the first whose pattern occurs in the text, and no other:
    unless its marker is there, what it returns is what the first-match
    rule of the specification returns on that ordered list.  The 0.12
    pattern is part of the 0.15 pattern, so that both occur wherever the
    newer one does, and there the newer alternative is the one
    applied. *)
Theorem patch8_first_match_wins (content : string) :
  PatchTransformers.patch8 content
  = (if contains PatchTransformers.patch8_marker content
     then (content, AlreadyApplied)
     else Spec.apply_first_match
            [ (PatchTransformers.old_init_015, PatchTransformers.new_init_015);
              (PatchTransformers.old_init_012, PatchTransformers.new_init_012) ]
            content)
  ∧ (contains PatchTransformers.old_init_015 content = true →
     contains PatchTransformers.old_init_012 content = true
     ∧ (contains PatchTransformers.patch8_marker content = false →
        PatchTransformers.patch8 content
        = (replace PatchTransformers.old_init_015 PatchTransformers.new_init_015
             content, Applied 0))).
Proof.
  unfold PatchTransformers.patch8.
  unfold Spec.apply_first_match, Spec.first_match.
  destruct (contains PatchTransformers.patch8_marker content); cbv [negb].
  - split; [reflexivity|]. intros H015. split; [|discriminate].
    apply (contains_trans _ PatchTransformers.old_init_015); [|assumption].
    vm_compute. reflexivity.
  - split.
    + destruct (contains PatchTransformers.old_init_015 content); [reflexivity|].
      now destruct (contains PatchTransformers.old_init_012 content).
    + intros H015. rewrite H015. split; [|reflexivity].
      apply (contains_trans _ PatchTransformers.old_init_015); [|assumption].
      vm_compute. reflexivity.
Qed.

Lemma patch8_first_match_wins_witness :
  contains PatchTransformers.old_init_012 PatchTransformers.old_init_015 = true
  ∧ PatchTransformers.patch8 PatchTransformers.old_init_015
    = (replace PatchTransformers.old_init_015 PatchTransformers.new_init_015
         PatchTransformers.old_init_015, Applied 0).
Proof.
  assert (contains PatchTransformers.patch8_marker PatchTransformers.old_init_015
          = false) as Hmarker by (vm_compute; reflexivity).
  assert (contains PatchTransformers.old_init_015 PatchTransformers.old_init_015
          = true) as H015 by (vm_compute; reflexivity).
  destruct (proj2 (patch8_first_match_wins PatchTransformers.old_init_015) H015)
    as [H012 Happlied].
  exact (conj H012 (Happlied Hmarker)).
Defined.

End MarkerProperties.

(** ** The loop of Patch 3 *)

Section Patch3Facts.
Import PyStr OS Report Script Frame.

Lemma patch3_patched_ext (fs0 fs1 : gmap path entry) (ps : list path) :
  (∀ p, p ∈ ps → fs1 !! p = fs0 !! p) →
  patch3_patched fs1 ps = patch3_patched fs0 ps.
Proof.
  induction ps as [|p ps IH]; intros Hsame; [reflexivity|].
  unfold patch3_patched in *. cbn [omap list_omap].
  rewrite (Hsame p) by left. rewrite IH; [reflexivity|].
  intros q Hq. apply Hsame. now right.
Qed.

Lemma patch3_verdict (fc : string) :
  PatchTransformers.patch3 fc
  = ((PatchTransformers.patch3 fc).1,
     if is_applied (PatchTransformers.patch3 fc).2 then Applied 0 else NoPatternMatch).
Proof.
  unfold PatchTransformers.patch3.
  now destruct (contains _ fc || contains _ fc).
Qed.

Lemma patch3_unapplied (fc : string) :
  is_applied (PatchTransformers.patch3 fc).2 = false →
  (PatchTransformers.patch3 fc).1 = fc.
Proof.
  unfold PatchTransformers.patch3.
  now destruct (contains _ fc || contains _ fc).
Qed.

(** One turn of the loop of Patch 3 on a file of the walk. *)
Lemma patch3_file_spec (acc : list path) (p : path) (fc : string) (w : world) :
  below PatchTransformers.ct_base p = true →
  fs w !! p = Some (File fc) →
  PatchTransformers.patch3_file acc (dirname p) (basename p) w
  = (Ok (acc ++ patch3_patched (fs w) [p]),
     World (<[p := patch3_entry p (File fc)]> (fs w)) (out w)).
Proof.
  intros Hbelow Hfile. pose proof (below_nonempty _ _ Hbelow) as Hne.
  unfold PatchTransformers.patch3_file, patch3_patched, patch3_entry.
  cbn [omap list_omap]. rewrite Hfile, Hbelow. cbn [andb].
  rewrite (basename_endswith _ _ Hne), (dirname_basename _ Hne).
  destruct (name_endswith ".py" p); cbn [andb].
  - change ((read_file ?q ≫= ?k) w) with (bind (read_file q) k w).
    unfold bind at 1, read_file. rewrite Hfile.
    rewrite (patch3_verdict fc).
    destruct (is_applied (PatchTransformers.patch3 fc).2) eqn:Happlied.
    + change ((write_file ?q ?c ≫= ?k) w) with (bind (write_file q c) k w).
      unfold bind, write_file. now rewrite Hfile.
    + rewrite (patch3_unapplied _ Happlied), (insert_id _ _ _ Hfile), app_nil_r.
      now rewrite world_eta.
  - now rewrite (insert_id _ _ _ Hfile), app_nil_r, world_eta.
Qed.

Lemma patch3_loop_spec (ps : list path) (acc : list path) (w : world) :
  NoDup ps →
  (∀ p, p ∈ ps → below PatchTransformers.ct_base p = true
                 ∧ ∃ fc, fs w !! p = Some (File fc)) →
  ∃ fs',
    PatchTransformers.patch3_loop ((λ p, (dirname p, basename p)) <$> ps) acc w
    = (Ok (acc ++ patch3_patched (fs w) ps), World fs' (out w))
    ∧ ∀ q, fs' !! q = if bool_decide (q ∈ ps) then patch3_entry q <$> fs w !! q
                      else fs w !! q.
Proof.
  revert acc w. induction ps as [|p ps IH]; intros acc w Hnodup Hall.
  - exists (fs w). cbn. rewrite app_nil_r, world_eta. split; [reflexivity|].
    intros q. reflexivity.
  - apply NoDup_cons in Hnodup as [Hp Hnodup].
    destruct (Hall p ltac:(left)) as (Hbelow & fc & Hfile).
    cbn [fmap list_fmap PatchTransformers.patch3_loop].
    rewrite (bind_ok _ _ _ _ _ (patch3_file_spec acc p fc w Hbelow Hfile)).
    destruct (IH (acc ++ patch3_patched (fs w) [p])
                 (World (<[p := patch3_entry p (File fc)]> (fs w)) (out w)) Hnodup)
      as (fs' & Hloop & Hlookup).
    { intros q Hq. destruct (Hall q ltac:(now right)) as (Hb & c & Hc).
      split; [assumption|]. exists c. cbn [fs].
      rewrite lookup_insert_ne; [assumption|]. intros <-. contradiction. }
    exists fs'. split.
    + rewrite Hloop. cbn [fs out]. f_equal. f_equal.
      rewrite <- app_assoc. f_equal.
      rewrite (patch3_patched_ext (fs w) (<[p := patch3_entry p (File fc)]> (fs w)) ps).
      * unfold patch3_patched. cbn [omap list_omap].
        now destruct (match fs w !! p with Some (File _) => _ | _ => None end).
      * intros q Hq. apply lookup_insert_ne. intros <-. contradiction.
    + intros q. rewrite Hlookup. cbn [fs].
      destruct (decide (q = p)) as [->|Hne].
      * rewrite (bool_decide_eq_false_2 _ Hp), lookup_insert_eq.
        rewrite bool_decide_eq_true_2 by left. now rewrite Hfile.
      * rewrite lookup_insert_ne by congruence.
        destruct (decide (q ∈ ps)) as [Hin|Hnot].
        -- rewrite (bool_decide_eq_true_2 _ Hin).
           rewrite bool_decide_eq_true_2 by now right. reflexivity.
        -- rewrite (bool_decide_eq_false_2 _ Hnot).
           rewrite bool_decide_eq_false_2; [reflexivity|].
           intros [?|?]%elem_of_cons; contradiction.
Qed.

(** Patch 3 ends normally, whatever the file system. *)
Lemma run_patch3_ok (w : world) :
  ∃ w', PatchTransformers.run_patch3 w = (Ok tt, w').
Proof.
  unfold PatchTransformers.run_patch3.
  change ((get_fs ≫= ?k) w) with (k (fs w) w). cbv beta.
  destruct (isdir (fs w) PatchTransformers.ct_base) eqn:Hdir; [|now exists w].
  unfold walk. rewrite Hdir.
  destruct (patch3_loop_spec (files_below (fs w) PatchTransformers.ct_base) [] w)
    as (fs' & Hloop & _).
  { apply NoDup_files_below. }
  { intros p [Hfile Hbelow]%elem_of_files_below. now split. }
  rewrite (bind_ok _ _ _ _ _ Hloop). cbn [app].
  destruct (patch3_patched _ _); eexists; reflexivity.
Qed.

End Patch3Facts.


(** ** Runs that an exception stops *)

Section StopFacts.
Import PyStr OS Report Script Frame.

Lemma patch_target_dir (target : path) (patch : string → string * verdict)
    (report : path → verdict → message) (w : world) :
  fs w !! target = Some Dir →
  PatchTransformers.patch_target target patch report w
  = (Raise (IsADirectoryError target), w).
Proof.
  intros Hdir. unfold PatchTransformers.patch_target.
  change ((get_fs ≫= ?k) w) with (k (fs w) w). cbv beta.
  unfold exists_. rewrite Hdir.
  change ((read_file target ≫= ?k) w) with (bind (read_file target) k w).
  unfold bind, read_file. now rewrite Hdir.
Qed.

Lemma nothing_removed_refl (fs0 : gmap path entry) : nothing_removed fs0 fs0.
Proof. now intros p H. Qed.

Lemma nothing_removed_trans (fs0 fs1 fs2 : gmap path entry) :
  nothing_removed fs0 fs1 → nothing_removed fs1 fs2 → nothing_removed fs0 fs2.
Proof. intros H01 H12 p H. apply H12, H01, H. Qed.

Lemma nothing_removed_insert (fs0 : gmap path entry) (p : path) (e : entry) :
  nothing_removed fs0 (<[p := e]> fs0).
Proof.
  intros q H. destruct (decide (q = p)) as [->|Hne].
  - rewrite lookup_insert_eq. eauto.
  - now rewrite lookup_insert_ne by congruence.
Qed.

Lemma removes_nothing_same {A} (m : M A) :
  (∀ w, fs (m w).2 = fs w) → removes_nothing m.
Proof. intros H w. rewrite H. apply nothing_removed_refl. Qed.

Lemma removes_nothing_bind {A B} (m : M A) (k : A → M B) :
  removes_nothing m → (∀ a, removes_nothing (k a)) → removes_nothing (m ≫= k).
Proof.
  intros Hm Hk w. change ((m ≫= k) w) with (bind m k w). unfold bind.
  specialize (Hm w). destruct (m w) as [[a|e] w1]; cbn [snd] in *; [|exact Hm].
  exact (nothing_removed_trans _ _ _ Hm (Hk a w1)).
Qed.

Lemma removes_nothing_for_each {A} (xs : list A) (body : A → M unit) :
  (∀ x, removes_nothing (body x)) → removes_nothing (for_each xs body).
Proof.
  intros Hbody. induction xs as [|x xs IH]; cbn [for_each].
  - now apply removes_nothing_same.
  - apply removes_nothing_bind; [apply Hbody | intros _; exact IH].
Qed.

Lemma removes_nothing_patch_target (target : path) (patch : string → string * verdict)
    (report : path → verdict → message) :
  removes_nothing (PatchTransformers.patch_target target patch report).
Proof.
  intros w. destruct (fs w !! target) as [[content|]|] eqn:Hfile.
  - rewrite (patch_target_file _ _ _ _ _ Hfile).
    destruct (patch content) as [content' [alt| |]]; cbn [snd fs];
      [apply nothing_removed_insert | apply nothing_removed_refl..].
  - rewrite (patch_target_dir _ _ _ _ Hfile). apply nothing_removed_refl.
  - rewrite patch_target_missing by (unfold exists_; now rewrite Hfile).
    apply nothing_removed_refl.
Qed.

Lemma removes_nothing_patch3_file (patched_files : list path) (dirpath : path)
    (fname : string) :
  removes_nothing (PatchTransformers.patch3_file patched_files dirpath fname).
Proof.
  unfold PatchTransformers.patch3_file.
  destruct (endswith ".py" fname); [|now apply removes_nothing_same].
  intros w. change ((read_file ?p ≫= ?k) w) with (bind (read_file p) k w).
  unfold bind, read_file.
  destruct (fs w !! OS.join dirpath [fname]) as [[fc|]|] eqn:Hfile;
    try apply nothing_removed_refl.
  destruct (PatchTransformers.patch3 fc) as [fc' [alt| |]];
    try apply nothing_removed_refl.
  change ((write_file ?p ?c ≫= ?k) w) with (bind (write_file p c) k w).
  unfold bind, write_file. rewrite Hfile. cbn [snd fs].
  apply nothing_removed_insert.
Qed.

Lemma removes_nothing_patch3_loop (files : list (path * string))
    (patched_files : list path) :
  removes_nothing (PatchTransformers.patch3_loop files patched_files).
Proof.
  revert patched_files. induction files as [|[d f] files IH]; intros acc;
    cbn [PatchTransformers.patch3_loop].
  - now apply removes_nothing_same.
  - apply removes_nothing_bind; [apply removes_nothing_patch3_file | exact IH].
Qed.

Lemma removes_nothing_run_patch3 : removes_nothing PatchTransformers.run_patch3.
Proof.
  unfold PatchTransformers.run_patch3.
  apply removes_nothing_bind; [now apply removes_nothing_same|]. intros fs0.
  destruct (isdir fs0 PatchTransformers.ct_base); [|now apply removes_nothing_same].
  apply removes_nothing_bind; [apply removes_nothing_patch3_loop|].
  intros [|? ?]; now apply removes_nothing_same.
Qed.

Lemma stops_only_at_bind {A B} (targets : list path) (Q : A → Prop)
    (m : M A) (k : A → M B) :
  removes_nothing m → stops_only_at targets m →
  (∀ w a w', m w = (Ok a, w') → Q a) →
  (∀ a, Q a → stops_only_at targets (k a)) →
  stops_only_at targets (m ≫= k).
Proof.
  intros Hkeep Hm HQ Hk w e w'. change ((m ≫= k) w) with (bind m k w). unfold bind.
  specialize (Hkeep w). destruct (m w) as [[a|e1] w1] eqn:E; cbn [snd] in Hkeep.
  - intros Hrun. destruct (Hk a (HQ _ _ _ E) _ _ _ Hrun) as [Hexn Hkept].
    split; [exact Hexn | exact (nothing_removed_trans _ _ _ Hkeep Hkept)].
  - intros [= <- <-]. exact (Hm _ _ _ E).
Qed.

Lemma stops_only_at_seq {A B} (targets : list path) (m : M A) (k : A → M B) :
  removes_nothing m → stops_only_at targets m →
  (∀ a, stops_only_at targets (k a)) →
  stops_only_at targets (m ≫= k).
Proof.
  intros Hkeep Hm Hk. apply (stops_only_at_bind targets (λ _, True)); auto.
Qed.

(** A step that always ends normally stops nowhere. *)
Lemma stops_only_at_ok {A} (targets : list path) (m : M A) :
  (∀ w, ∃ a w', m w = (Ok a, w')) → stops_only_at targets m.
Proof.
  intros Hok w e w' Hrun. destruct (Hok w) as (a & w1 & Hw). congruence.
Qed.

Lemma stops_only_at_for_each {A} (targets : list path) (xs : list A)
    (body : A → M unit) :
  (∀ x, removes_nothing (body x)) →
  (∀ x, x ∈ xs → stops_only_at targets (body x)) →
  stops_only_at targets (for_each xs body).
Proof.
  intros Hkeep. induction xs as [|x xs IH]; intros Hbody; cbn [for_each].
  - apply stops_only_at_ok. intros w. now exists tt, w.
  - apply stops_only_at_seq; [apply Hkeep | apply Hbody; left |].
    intros _. apply IH. intros y Hy. apply Hbody. now right.
Qed.

Lemma stops_only_at_patch_target (targets : list path) (target : path)
    (patch : string → string * verdict) (report : path → verdict → message) :
  target ∈ targets →
  stops_only_at targets (PatchTransformers.patch_target target patch report).
Proof.
  intros Hin w e w'. destruct (fs w !! target) as [[content|]|] eqn:Hfile.
  - rewrite (patch_target_file _ _ _ _ _ Hfile).
    destruct (patch content) as [content' [alt| |]]; discriminate.
  - rewrite (patch_target_dir _ _ _ _ Hfile). intros [= <- <-].
    split; [now exists target | apply nothing_removed_refl].
  - rewrite patch_target_missing by (unfold exists_; now rewrite Hfile).
    discriminate.
Qed.

Lemma stops_only_at_patch_loop (roots : list path) (rel : path)
    (patch : string → string * verdict) (report : path → verdict → message) :
  roots ⊆ PatchTransformers.vllm_candidates → rel ∈ target_files →
  stops_only_at transformers_targets
    (for_each roots (λ root, PatchTransformers.patch_target (OS.join root rel) patch report)).
Proof.
  intros Hroots Hrel. apply stops_only_at_for_each.
  - intros root. apply removes_nothing_patch_target.
  - intros root Hroot. apply stops_only_at_patch_target.
    unfold transformers_targets. apply list_elem_of_bind. exists root.
    split; [|now apply Hroots]. apply list_elem_of_fmap. now exists rel.
Qed.

End StopFacts.

Section CacheProperties.
Import PyStr OS Report Script Examples.

Lemma print_spec (m : message) (w : world) :
  print m w = (Ok tt, World (fs w) (out w ++ [m])).
Proof. reflexivity. Qed.

(** The serving.py part ends normally only if serving.py is a file. *)
Lemma patch_serving_ok (w w' : world) :
  PatchStreaming.patch_serving w = (Ok tt, w') →
  ∃ content, fs w !! PatchStreaming.fpath = Some (File content).
Proof.
  unfold PatchStreaming.patch_serving.
  unfold mbind at 1. unfold M_bind, bind at 1. unfold read_file at 1.
  destruct (fs w !! PatchStreaming.fpath) as [[content|]|]; [eauto | |];
    discriminate.
Qed.

(** What Fix 0 does when config.py is a file. *)
Lemma run_fix0_file (w : world) (src : string) :
  fs w !! PatchStreaming._ind_cfg_path = Some (File src) →
  PatchStreaming.run_fix0 w
  = match PatchStreaming.fix0 src with
    | (src', Applied _) =>
        (Ok tt,
         World (Spec.without_pyc_files (dirname PatchStreaming._ind_cfg_path)
                  (<[PatchStreaming._ind_cfg_path := File src']> (fs w)))
               (out w ++ [Fix0Added]))
    | _ => (Ok tt, World (fs w) (out w ++ [Fix0Already]))
    end.
Proof.
  intros Hfile. destruct (PatchStreaming.fix0 src) as [src' v] eqn:E.
  unfold PatchStreaming.run_fix0.
  unfold mbind at 1. unfold M_bind, bind at 1. unfold get_fs at 1.
  unfold exists_. rewrite Hfile.
  unfold mbind at 1. unfold bind at 1. unfold read_file at 1. rewrite Hfile.
  rewrite E. destruct v as [alt| |]; try reflexivity.
  unfold mbind at 1. unfold bind at 1. unfold write_file at 1. rewrite Hfile.
  unfold mbind at 1. unfold bind at 1. rewrite clear_pyc_spec. reflexivity.
Qed.

Lemma run_fix0_ok (w w' : world) :
  PatchStreaming.run_fix0 w = (Ok tt, w') →
  last (out w') = Some Fix0Added →
  ∃ src, fs w !! PatchStreaming._ind_cfg_path = Some (File src).
Proof.
  unfold PatchStreaming.run_fix0.
  unfold mbind at 1. unfold M_bind, bind at 1. unfold get_fs at 1.
  unfold exists_.
  destruct (fs w !! PatchStreaming._ind_cfg_path) as [[src|]|] eqn:E.
  - eauto.
  - unfold mbind at 1. unfold bind at 1. unfold read_file at 1. rewrite E.
    discriminate.
  - rewrite print_spec. intros [= <-]. simpl. rewrite last_snoc. discriminate.
Qed.

(** After a write of [target], the clearing loop on a directory [top]
    leaves no compiled file below [top] and every directory in place. *)
Lemma written_then_cleared (fs0 : gmap path entry) (target top : path)
    (old new : string) :
  fs0 !! target = Some (File old) →
  isdir fs0 top = true →
  let fs' := Spec.without_pyc_files top (<[target := File new]> fs0) in
  (∀ q c, below top q = true → name_endswith ".pyc" q = true →
          fs' !! q ≠ Some (File c))
  ∧ (∀ q, fs0 !! q = Some Dir → fs' !! q = Some Dir).
Proof.
  intros Hfile Hdir fs'. split.
  - intros q c Hb Hn. apply without_pyc_files_clean; [|assumption..].
    unfold isdir in *. destruct (decide (target = top)) as [->|Hne].
    + rewrite Hfile in Hdir. discriminate.
    + now rewrite lookup_insert_ne.
  - intros q Hq. apply without_pyc_files_dirs.
    rewrite lookup_insert_ne; [assumption|]. intros ->. congruence.
Qed.

(** C4, as stated, fails.  patch_streaming.py on an installation whose
    serving.py has been imported before writes the patched serving.py
    and removes the compiled file, and the cache directory that held it
    is still there. *)
Lemma patch_streaming_keeps_pycache :
  let r := PatchStreaming.run (World imported_serving []) in
  let cache := PatchStreaming.anthropic_dir ++ ["__pycache__"] in
  r.1 = Ok tt
  ∧ out r.2 = [Fix0Skip; Fix1Applied; Fix2Skip; PatchedSuccessfully]
  ∧ fs r.2 !! (cache ++ ["serving.cpython-312.pyc"]) = None
  ∧ fs r.2 !! cache = Some Dir.
Proof. cbv zeta. repeat split; vm_compute; reflexivity. Qed.

(** Patch 5 as a whole. *)
Lemma run_patch5_spec (vllm_roots : list path) (w : world) :
  ∃ fs', PatchTransformers.run_patch5 vllm_roots w
         = (Ok tt, World fs' (out w ++ [Patch5Cleared]))
       ∧ fs' ⊆ fs w
       ∧ ∀ root,
           root ∈ vllm_roots ++ [PatchTransformers.ct_base;
                                 PatchTransformers.transformers_dir] →
           isdir fs' root = true →
           Spec.no_pyc_files fs' root ∧ Spec.no_pycache_dirs fs' root.
Proof.
  destruct (patch5_loop_spec (vllm_roots ++ [PatchTransformers.ct_base]) w)
    as (fs1 & Hloop & Hsub & Hclean).
  set (T := PatchTransformers.transformers_dir).
  set (fs' := find_rm_pycache T (find_delete_pyc T fs1)).
  assert (fs' ⊆ fs1) as Hsub'.
  { etrans; [apply find_rm_pycache_subseteq | apply find_delete_pyc_subseteq]. }
  exists fs'. split; [|split].
  - unfold PatchTransformers.run_patch5.
    rewrite (bind_ok _ _ _ _ _ Hloop).
    unfold mbind at 1. unfold M_bind, bind at 1.
    rewrite clear_caches_spec. reflexivity.
  - etrans; eassumption.
  - intros root Hin Hd.
    replace (vllm_roots ++ [PatchTransformers.ct_base; T])
      with ((vllm_roots ++ [PatchTransformers.ct_base]) ++ [T]) in Hin
      by now rewrite <- app_assoc.
    apply elem_of_app in Hin as [Hin|Hin].
    + destruct (Hclean root Hin (isdir_weaken _ _ _ Hsub' Hd)) as [H1 H2].
      split; [eapply no_pyc_files_weaken | eapply no_pycache_dirs_weaken];
        eassumption.
    + apply list_elem_of_singleton in Hin as ->.
      now apply (clear_caches_clean T fs1).
Qed.

(** C4, amended.  patch_streaming.py, after it has written serving.py
    (or config.py, in Fix 0), removes every file whose name ends in .pyc
    below the anthropic directory (below torch/_inductor), and removes
    no directory: a __pycache__ directory stays where it is.
    patch_transformers.py clears caches in Patch 5, its last step, which
    every run that ends normally reaches, whether or not anything was
    written: after such a run, below every vllm root it found, the
    compressed_tensors directory and the transformers directory, as far
    as they are directories, no .pyc file and no __pycache__ directory
    is left.  A run that an exception stops does not reach Patch 5: the
    exception is IsADirectoryError for one of the target files, which
    is a directory, and the run has removed nothing, also when an
    earlier patch has written a file, whose compiled file then stays
    in its cache directory.
    Neither removal ever raises, and each leaves a file system without
    such caches as it is. *)
Theorem caches_after_a_run :
  (∀ w w',
     isdir (fs w) PatchStreaming.anthropic_dir = true →
     PatchStreaming.patch_serving w = (Ok tt, w') →
     last (out w') = Some PatchedSuccessfully →
     (∀ q c, below PatchStreaming.anthropic_dir q = true →
             name_endswith ".pyc" q = true → fs w' !! q ≠ Some (File c))
     ∧ (∀ q, fs w !! q = Some Dir → fs w' !! q = Some Dir))
  ∧ (∀ w w',
       isdir (fs w) (dirname PatchStreaming._ind_cfg_path) = true →
       PatchStreaming.run_fix0 w = (Ok tt, w') →
       last (out w') = Some Fix0Added →
       (∀ q c, below (dirname PatchStreaming._ind_cfg_path) q = true →
               name_endswith ".pyc" q = true → fs w' !! q ≠ Some (File c))
       ∧ (∀ q, fs w !! q = Some Dir → fs w' !! q = Some Dir))
  ∧ (∀ w w',
       PatchTransformers.run w = (Ok tt, w') →
       ∀ root,
         root ∈ List.filter (isdir (fs w)) PatchTransformers.vllm_candidates
                ++ [PatchTransformers.ct_base; PatchTransformers.transformers_dir] →
         isdir (fs w') root = true →
         Spec.no_pyc_files (fs w') root ∧ Spec.no_pycache_dirs (fs w') root)
  ∧ (∀ top w,
       (∀ q c, below top q = true → name_endswith ".pyc" q = true →
               fs w !! q ≠ Some (File c)) →
       clear_pyc top w = (Ok tt, w))
  ∧ (∀ root w,
       (∀ p, within root p = true → is_Some (fs w !! p) →
             name_endswith ".pyc" p = false) →
       Spec.no_pycache_dirs (fs w) root →
       PatchTransformers.clear_caches root w = (Ok tt, w))
  ∧ (∀ top w, ∃ w', clear_pyc top w = (Ok tt, w'))
  ∧ (∀ vllm_roots w, ∃ w', PatchTransformers.run_patch5 vllm_roots w = (Ok tt, w'))
  ∧ (∀ w e w',
       PatchTransformers.run w = (Raise e, w') →
       (∃ t, t ∈ Frame.transformers_targets ∧ e = IsADirectoryError t
             ∧ fs w' !! t = Some Dir)
       ∧ (∀ p, is_Some (fs w !! p) → is_Some (fs w' !! p)))
  ∧ (let r := PatchTransformers.run (World Installed.vllm_with_a_directory_target []) in
     r.1 = Raise (IsADirectoryError Installed.models_utils)
     ∧ out r.2 = [FoundInstallations [vllm_root]; Patch4Applied quantization_utils]
     ∧ fs r.2 !! quantization_utils = Some (File PatchTransformers.new_raise)
     ∧ fs r.2 !! (Installed.quantization_cache ++ ["utils.cpython-312.pyc"])
       = Some (File "compiled")
     ∧ fs r.2 !! Installed.quantization_cache = Some Dir).
Proof.
  split; [|split; [|split; [|split; [|split; [|split; [|split; [|split]]]]]]].
  - intros w w' Hdir Hrun Hlast.
    destruct (patch_serving_ok _ _ Hrun) as [content Hfile].
    rewrite (patch_serving_file _ _ Hfile) in Hrun.
    destruct (PatchStreaming.fix1 content) as [[content1 v1] found].
    destruct (PatchStreaming.fix2 content1) as [content2 v2].
    cbv zeta in Hrun. destruct (is_applied v1 || is_applied v2).
    + injection Hrun as <-. cbn [fs].
      now apply (written_then_cleared _ _ _ content).
    + injection Hrun as <-. cbn [out] in Hlast.
      rewrite last_snoc in Hlast. discriminate.
  - intros w w' Hdir Hrun Hlast.
    destruct (run_fix0_ok _ _ Hrun Hlast) as [src Hfile].
    rewrite (run_fix0_file _ _ Hfile) in Hrun.
    destruct (PatchStreaming.fix0 src) as [src' [alt| |]].
    + injection Hrun as <-. cbn [fs].
      now apply (written_then_cleared _ _ _ src).
    + injection Hrun as <-. cbn [out] in Hlast.
      rewrite last_snoc in Hlast. discriminate.
    + injection Hrun as <-. cbn [out] in Hlast.
      rewrite last_snoc in Hlast. discriminate.
  - intros w w' Hrun root Hin Hd.
    unfold PatchTransformers.run in Hrun.
    apply bind_inv in Hrun as (vllm_roots & w0 & Hroots & Hrun).
    assert (vllm_roots
            = List.filter (isdir (fs w)) PatchTransformers.vllm_candidates)
      as -> by (injection Hroots as <- _; reflexivity).
    apply bind_inv in Hrun as ([] & w3 & _ & Hrun).
    apply bind_inv in Hrun as ([] & w4 & _ & Hrun).
    apply bind_inv in Hrun as ([] & w7 & _ & Hrun).
    apply bind_inv in Hrun as ([] & w8 & _ & Hrun).
    apply bind_inv in Hrun as ([] & w11 & _ & Hrun).
    destruct (run_patch5_spec
                (List.filter (isdir (fs w)) PatchTransformers.vllm_candidates) w11)
      as (fs' & Hfive & _ & Hclean).
    rewrite Hfive in Hrun. injection Hrun as <-. cbn [fs] in *.
    now apply Hclean.
  - intros top w Hnone. rewrite clear_pyc_spec.
    rewrite without_pyc_files_noop by assumption. now rewrite world_eta.
  - intros root w Hnopyc Hnodirs. rewrite clear_caches_spec.
    rewrite find_delete_pyc_noop by assumption.
    rewrite find_rm_pycache_noop by assumption. now rewrite world_eta.
  - intros top w. eexists. apply clear_pyc_spec.
  - intros vllm_roots w.
    destruct (run_patch5_spec vllm_roots w) as (fs' & Hrun & _). eauto.
  - assert (Frame.stops_only_at Frame.transformers_targets PatchTransformers.run)
      as Hstops; [|exact Hstops].
    assert (∀ w, PatchTransformers.find_vllm_roots w
                 = (Ok (List.filter (isdir (fs w)) PatchTransformers.vllm_candidates),
                    World (fs w)
                      (out w ++ [FoundInstallations
                                   (List.filter (isdir (fs w))
                                      PatchTransformers.vllm_candidates)])))
      as Hfound by reflexivity.
    unfold PatchTransformers.run.
    apply (stops_only_at_bind _ (λ roots, roots ⊆ PatchTransformers.vllm_candidates)).
    + apply removes_nothing_same. intros w. now rewrite Hfound.
    + apply stops_only_at_ok. intros w. rewrite Hfound. eauto.
    + intros w roots w'. rewrite Hfound.
      generalize PatchTransformers.vllm_candidates as l. intros l [= <- _] root Hroot.
      apply list_elem_of_In. apply list_elem_of_In in Hroot.
      now apply filter_In in Hroot as [Hroot _].
    + intros roots Hroots.
      assert (∀ rel patch report, rel ∈ Frame.target_files →
                Frame.removes_nothing
                  (for_each roots
                     (λ root, PatchTransformers.patch_target (OS.join root rel)
                                patch report))) as Hkeep.
      { intros rel patch report _. apply removes_nothing_for_each.
        intros root. apply removes_nothing_patch_target. }
      apply stops_only_at_seq;
        [apply removes_nothing_run_patch3
        |apply stops_only_at_ok; intros w;
         destruct (run_patch3_ok w) as [w1 ->]; eauto
        |intros _].
      apply stops_only_at_seq;
        [apply Hkeep
        |apply stops_only_at_patch_loop; [assumption|]
        |intros _]; [unfold Frame.target_files; set_solver..|].
      apply stops_only_at_seq;
        [apply Hkeep
        |apply stops_only_at_patch_loop; [assumption|]
        |intros _]; [unfold Frame.target_files; set_solver..|].
      apply stops_only_at_seq;
        [apply Hkeep
        |apply stops_only_at_patch_loop; [assumption|]
        |intros _]; [unfold Frame.target_files; set_solver..|].
      apply stops_only_at_seq;
        [apply Hkeep
        |apply stops_only_at_patch_loop; [assumption|]
        |intros _]; [unfold Frame.target_files; set_solver..|].
      apply stops_only_at_ok. intros w.
      destruct (run_patch5_spec roots w) as (fs' & -> & _). eauto.
  - cbv zeta. repeat split; vm_compute; reflexivity.
Qed.

Lemma caches_after_a_run_witness :
  let w := World imported_serving [] in
  let w' := (PatchStreaming.patch_serving w).2 in
  let cache := PatchStreaming.anthropic_dir ++ ["__pycache__"] in
  (∀ c, fs w' !! (cache ++ ["serving.cpython-312.pyc"]) ≠ Some (File c))
  ∧ fs w' !! cache = Some Dir.
Proof.
  intros w w' cache.
  assert (isdir (fs w) PatchStreaming.anthropic_dir = true) as Hdir
    by (vm_compute; reflexivity).
  assert (PatchStreaming.patch_serving w = (Ok tt, w')) as Hrun
    by (vm_compute; reflexivity).
  assert (last (out w') = Some PatchedSuccessfully) as Hlast
    by (vm_compute; reflexivity).
  destruct (proj1 caches_after_a_run w w' Hdir Hrun Hlast) as [Hfiles Hdirs].
  split.
  - intros c. apply Hfiles; vm_compute; reflexivity.
  - apply Hdirs. vm_compute. reflexivity.
Defined.

End CacheProperties.

Section MissingTargetProperties.
Import PyStr OS Report Script Examples.

(** C5, as stated, fails.  On a machine with none of the packages
    installed, patch_transformers.py ends normally with two lines, the
    list of installations found and the line of Patch 5: for no patch
    does it report a missing target. *)
Lemma missing_roots_are_not_reported :
  let r := PatchTransformers.run (World nothing_installed []) in
  r.1 = Ok tt
  ∧ out r.2 = [FoundInstallations []; Patch5Cleared]
  ∧ List.filter Spec.reports_missing_target (out r.2) = [].
Proof. cbv zeta. repeat split; vm_compute; reflexivity. Qed.

Lemma find_vllm_roots_spec (w : world) :
  PatchTransformers.find_vllm_roots w
  = (Ok (List.filter (isdir (fs w)) PatchTransformers.vllm_candidates),
     World (fs w)
       (out w ++ [FoundInstallations
                    (List.filter (isdir (fs w)) PatchTransformers.vllm_candidates)])).
Proof. reflexivity. Qed.

Lemma run_patch3_missing (w : world) :
  isdir (fs w) PatchTransformers.ct_base = false →
  PatchTransformers.run_patch3 w = (Ok tt, w).
Proof.
  intros H. unfold PatchTransformers.run_patch3.
  unfold mbind, M_bind, bind, get_fs. now rewrite H.
Qed.

Lemma run_fix0_missing (w : world) :
  exists_ (fs w) PatchStreaming._ind_cfg_path = false →
  PatchStreaming.run_fix0 w = (Ok tt, World (fs w) (out w ++ [Fix0Skip])).
Proof.
  intros H. unfold PatchStreaming.run_fix0.
  unfold mbind, M_bind, bind, get_fs. now rewrite H.
Qed.

(** Without serving.py the second part of patch_streaming.py stops at
    its [open]. *)
Lemma patch_serving_missing (w : world) :
  fs w !! PatchStreaming.fpath = None →
  PatchStreaming.patch_serving w
  = (Raise (FileNotFoundError PatchStreaming.fpath), w).
Proof.
  intros H. unfold PatchStreaming.patch_serving.
  unfold mbind at 1. unfold M_bind, bind at 1. unfold read_file at 1.
  now rewrite H.
Qed.

Lemma no_vllm_roots (fs0 : gmap path entry) :
  (∀ root, root ∈ PatchTransformers.vllm_candidates → isdir fs0 root = false) →
  List.filter (isdir fs0) PatchTransformers.vllm_candidates = [].
Proof.
  intros H. unfold PatchTransformers.vllm_candidates in *. cbn [List.filter].
  rewrite !H; [reflexivity | right; left | left].
Qed.

(** C5, amended.  patch_transformers.py writes nothing and prints
    nothing for a target that does not exist, and goes on: a candidate
    root that is not a directory is left out of [vllm_roots]; a target
    file that does not exist under a root is passed over, and the loop
    goes on with the next root as if the root had not been listed; a
    missing compressed_tensors directory makes Patch 3 do nothing.  Run
    where no root exists, the script ends normally, prints the list of
    installations found (empty) and the line of Patch 5, and changes
    nothing but the caches below the transformers directory.  Fix 0 of
    patch_streaming.py prints its SKIP line and writes nothing when
    config.py does not exist. *)
Theorem missing_targets_are_passed_over :
  (∀ target patch report w,
     exists_ (fs w) target = false →
     PatchTransformers.patch_target target patch report w = (Ok tt, w))
  ∧ (∀ root roots rel patch report w,
       exists_ (fs w) (OS.join root rel) = false →
       for_each (root :: roots)
         (λ r, PatchTransformers.patch_target (OS.join r rel) patch report) w
       = for_each roots
           (λ r, PatchTransformers.patch_target (OS.join r rel) patch report) w)
  ∧ (∀ w,
       PatchTransformers.find_vllm_roots w
       = (Ok (List.filter (isdir (fs w)) PatchTransformers.vllm_candidates),
          World (fs w)
            (out w ++ [FoundInstallations
                         (List.filter (isdir (fs w))
                                      PatchTransformers.vllm_candidates)])))
  ∧ (∀ w,
       isdir (fs w) PatchTransformers.ct_base = false →
       PatchTransformers.run_patch3 w = (Ok tt, w))
  ∧ (∀ w,
       (∀ root, root ∈ PatchTransformers.vllm_candidates →
                isdir (fs w) root = false) →
       isdir (fs w) PatchTransformers.ct_base = false →
       PatchTransformers.run w
       = (Ok tt,
          World (find_rm_pycache PatchTransformers.transformers_dir
                   (find_delete_pyc PatchTransformers.transformers_dir (fs w)))
                (out w ++ [FoundInstallations []; Patch5Cleared])))
  ∧ (∀ w,
       exists_ (fs w) PatchStreaming._ind_cfg_path = false →
       PatchStreaming.run_fix0 w = (Ok tt, World (fs w) (out w ++ [Fix0Skip]))).
Proof.
  split; [|split; [|split; [|split; [|split]]]].
  - intros. now apply patch_target_missing.
  - intros root roots rel patch report w Hmissing. cbn [for_each].
    now rewrite (bind_ok _ _ _ _ _ (patch_target_missing _ patch report _ Hmissing)).
  - apply find_vllm_roots_spec.
  - apply run_patch3_missing.
  - intros w Hroots Hct. unfold PatchTransformers.run.
    rewrite (bind_ok _ _ _ _ _ (find_vllm_roots_spec w)).
    rewrite (no_vllm_roots _ Hroots).
    set (w1 := World (fs w) (out w ++ [FoundInstallations []])).
    rewrite (bind_ok _ _ w1 w1 tt) by now apply run_patch3_missing.
    rewrite (bind_ok _ _ w1 w1 tt) by reflexivity.
    rewrite (bind_ok _ _ w1 w1 tt) by reflexivity.
    rewrite (bind_ok _ _ w1 w1 tt) by reflexivity.
    rewrite (bind_ok _ _ w1 w1 tt) by reflexivity.
    unfold PatchTransformers.run_patch5. cbn [app for_each].
    unfold mbind, M_bind, bind, get_fs. cbn [fs out w1]. rewrite Hct.
    cbn. rewrite clear_caches_spec, print_spec. unfold w1. cbn [fs out].
    now rewrite <- app_assoc.
  - apply run_fix0_missing.
Qed.

Lemma missing_targets_are_passed_over_witness :
  PatchTransformers.run_patch3 (World nothing_installed [])
  = (Ok tt, World nothing_installed []).
Proof.
  apply (proj1 (proj2 (proj2 (proj2 missing_targets_are_passed_over)))).
  vm_compute. reflexivity.
Defined.

End MissingTargetProperties.

(** * Properties of sitecustomize.py *)

Section ShimProperties.
Import Shim ShimSpec.

(** C7.  In every environment in which LLAMA_SWAP_SWEBENCH_TEXT_COMPAT
    is not set to exactly "1", the guard returns at once and leaves the
    process as it found it: tiktoken.encoding_for_model,
    api.openai_inference and api.main are the callables they were, as if
    the guard had not run. *)
Theorem guard_inert_without_flag (environ : gmap string string) (p : process) :
  environ !! flag ≠ Some "1" →
  _patch_swebench_main environ p = Returns p.
Proof.
  intros Hflag. unfold _patch_swebench_main. now rewrite decide_True.
Qed.

Lemma guard_inert_without_flag_witness :
  ({[ flag := "true" ]} : gmap string string) !! flag ≠ Some "1"
  ∧ _patch_swebench_main {[ flag := "true" ]} fresh = Returns fresh.
Proof.
  assert (({[ flag := "true" ]} : gmap string string) !! flag ≠ Some "1") as H.
  { rewrite lookup_singleton_eq. discriminate. }
  split; [exact H | exact (guard_inert_without_flag _ fresh H)].
Defined.

(** C8, as stated, fails.  With the flag set, a second execution of the
    guard wraps the wrappers of the first: the process it leaves is not
    the one a single execution leaves. *)
Lemma guard_twice_wraps_twice :
  twice {[ flag := "1" ]} fresh
  = Returns
      (Process
         (Some (Tiktoken (compat_encoding_for_model
                            (compat_encoding_for_model
                               (Host "tiktoken.encoding_for_model")))))
         (Some (RunApi (compat_openai_inference
                          (compat_openai_inference
                             (Host "swebench.inference.run_api.openai_inference")))
                       compat_main)))
  ∧ twice {[ flag := "1" ]} fresh ≠ _patch_swebench_main {[ flag := "1" ]} fresh.
Proof. split; [reflexivity | discriminate]. Qed.

Lemma guard_flag_set (environ : gmap string string) (p : process) :
  environ !! flag = Some "1" →
  _patch_swebench_main environ p =
    let p1 :=
      match tiktoken p with
      | Some m =>
          Process (Some (Tiktoken (compat_encoding_for_model (encoding_for_model m))))
                  (run_api p)
      | None => p
      end in
    match run_api p1 with
    | Some api =>
        Returns (Process (tiktoken p1)
                   (Some (RunApi (compat_openai_inference (openai_inference api))
                                 compat_main)))
    | None => Returns p1
    end.
Proof.
  intros Hflag. unfold _patch_swebench_main.
  rewrite decide_False by (intros H; now apply H).
  destruct p as [[m|] [api|]]; reflexivity.
Qed.

Lemma deliver_twice (f : callable) (args : list value) (kwargs : gmap string value) :
  deliver (compat_openai_inference (compat_openai_inference f)) args kwargs
  = deliver (compat_openai_inference f) args kwargs.
Proof.
  simpl. pose proof (compat_arguments_idempotent args kwargs) as H.
  destruct (compat_arguments args kwargs) as [args' kwargs']. now rewrite H.
Qed.

(** C8, amended.  The guard has no test for a wrapper already in place.
    With the flag set and both modules importable, every execution wraps
    whatever tiktoken.encoding_for_model and api.openai_inference are at
    that moment and installs compat_main, so that two executions leave
    both wrapped twice.  The doubled wrappers behave as the single ones:
    a call reaches the original with the same arguments, the text column
    added at most once, and the encoding returned is the same. *)
Theorem guard_wraps_at_every_execution (environ : gmap string string) (p : process)
    (t : tiktoken_module) (api : api_module) :
  environ !! flag = Some "1" →
  tiktoken p = Some t →
  run_api p = Some api →
  _patch_swebench_main environ p
  = Returns
      (Process (Some (Tiktoken (compat_encoding_for_model (encoding_for_model t))))
               (Some (RunApi (compat_openai_inference (openai_inference api))
                             compat_main)))
  ∧ twice environ p
    = Returns
        (Process
           (Some (Tiktoken (compat_encoding_for_model
                              (compat_encoding_for_model (encoding_for_model t)))))
           (Some (RunApi (compat_openai_inference
                            (compat_openai_inference (openai_inference api)))
                         compat_main)))
  ∧ (∀ f args kwargs,
       deliver (compat_openai_inference (compat_openai_inference f)) args kwargs
       = deliver (compat_openai_inference f) args kwargs)
  ∧ (∀ (encoding : Type) (host : string → string → option encoding)
       (get_encoding : string → option encoding) f model_name,
       call_encoding_for_model host get_encoding
         (compat_encoding_for_model (compat_encoding_for_model f)) model_name
       = call_encoding_for_model host get_encoding
           (compat_encoding_for_model f) model_name).
Proof.
  intros Hflag Ht Hapi.
  assert (_patch_swebench_main environ p
          = Returns
              (Process (Some (Tiktoken (compat_encoding_for_model (encoding_for_model t))))
                 (Some (RunApi (compat_openai_inference (openai_inference api))
                               compat_main)))) as Hone.
  { rewrite guard_flag_set by assumption. rewrite Ht. simpl. now rewrite Hapi. }
  split; [exact Hone|]. split; [|split].
  - unfold twice. rewrite Hone. simpl. now rewrite guard_flag_set.
  - apply deliver_twice.
  - intros encoding host get_encoding f model_name. simpl.
    destruct (call_encoding_for_model host get_encoding f model_name);
      [reflexivity|]. now destruct (get_encoding "cl100k_base").
Qed.

Lemma guard_wraps_at_every_execution_witness :
  twice {[ flag := "1" ]} fresh
  = Returns
      (Process
         (Some (Tiktoken (compat_encoding_for_model
                            (compat_encoding_for_model
                               (Host "tiktoken.encoding_for_model")))))
         (Some (RunApi (compat_openai_inference
                          (compat_openai_inference
                             (Host "swebench.inference.run_api.openai_inference")))
                       compat_main))).
Proof.
  exact (proj1 (proj2
    (guard_wraps_at_every_execution {[ flag := "1" ]} fresh
       (Tiktoken (Host "tiktoken.encoding_for_model"))
       (RunApi (Host "swebench.inference.run_api.openai_inference")
               (Host "swebench.inference.run_api.main"))
       eq_refl eq_refl eq_refl))).
Defined.

(** C9, as stated, fails.  With the flag set, tiktoken importable and
    swebench not, the guard returns with tiktoken.encoding_for_model
    wrapped: the failed import does not leave the process unchanged. *)
Lemma guard_wraps_tiktoken_without_swebench :
  let p := Process (Some (Tiktoken (Host "tiktoken.encoding_for_model"))) None in
  _patch_swebench_main {[ flag := "1" ]} p
  = Returns (Process (Some (Tiktoken (compat_encoding_for_model
                                        (Host "tiktoken.encoding_for_model"))))
                     None)
  ∧ _patch_swebench_main {[ flag := "1" ]} p ≠ Returns p.
Proof. split; [reflexivity | discriminate]. Qed.

(** C9, amended.  With the flag set the guard never raises, whatever
    imports fail.  The two imports are tried one after the other and
    each stands for itself: a failed import of tiktoken leaves tiktoken
    alone and the swebench functions are still wrapped if swebench
    imports; a failed import of swebench leaves api.openai_inference and
    api.main alone, with tiktoken.encoding_for_model already wrapped if
    tiktoken imported.  Only when both imports fail is the process
    unchanged. *)
Theorem guard_with_failed_imports (environ : gmap string string) (p : process) :
  environ !! flag = Some "1" →
  (∃ p', _patch_swebench_main environ p = Returns p')
  ∧ (tiktoken p = None → run_api p = None →
       _patch_swebench_main environ p = Returns p)
  ∧ (∀ t, tiktoken p = Some t → run_api p = None →
       _patch_swebench_main environ p
       = Returns (Process
                    (Some (Tiktoken (compat_encoding_for_model (encoding_for_model t))))
                    None))
  ∧ (∀ api, tiktoken p = None → run_api p = Some api →
       _patch_swebench_main environ p
       = Returns (Process None
                    (Some (RunApi (compat_openai_inference (openai_inference api))
                                  compat_main)))).
Proof.
  intros Hflag. rewrite guard_flag_set by assumption.
  destruct p as [[t|] [api|]]; simpl;
    (split; [eexists; reflexivity|]); repeat split; intros; congruence.
Qed.

Lemma guard_with_failed_imports_witness :
  _patch_swebench_main {[ flag := "1" ]} (Process None None)
  = Returns (Process None None).
Proof.
  exact (proj1 (proj2
    (guard_with_failed_imports {[ flag := "1" ]} (Process None None) eq_refl))
    eq_refl eq_refl).
Defined.

(** C10.  [_pick_text_column] returns the first of "text",
    "problem_statement", "prompt", "question" that is a column of the
    dataset, and "text" when none is.  [compat_openai_inference] calls
    the original with a dataset to which the column "text" has been
    added, holding the picked column, exactly when the dataset it looks
    at has no column "text" but one of the other candidates; in every
    other case it calls the original with the arguments it received. *)
Theorem text_column_fallback (dataset : value) (f : callable)
    (args : list value) (kwargs : gmap string value) :
  (first_present candidates (column_names dataset) (_pick_text_column dataset)
   ∨ ((∀ c, c ∈ candidates → c ∉ column_names dataset)
      ∧ _pick_text_column dataset = "text"))
  ∧ (let d := inspected args kwargs in
     let d' := add_column "text" (getitem d (_pick_text_column d)) d in
     deliver (compat_openai_inference f) args kwargs
     = (if decide (lacks_text_has_other d) then
          match args with
          | _ :: rest => deliver f (d' :: rest) kwargs
          | [] => deliver f [] (<["test_dataset" := d']> kwargs)
          end
        else deliver f args kwargs)
     ∧ (lacks_text_has_other d →
          _pick_text_column d ≠ "text"
          ∧ _pick_text_column d ∈ column_names d
          ∧ "text" ∈ column_names d')).
Proof.
  split; [apply pick_text_column_spec|]. intros d d'. split.
  - simpl. rewrite compat_arguments_spec. fold d. fold d'.
    destruct (decide (lacks_text_has_other d)); [|reflexivity].
    now destruct args.
  - intros H. pose proof H as Hpick. apply lacks_text_has_other_pick in Hpick as [Ht Hp].
    split; [assumption|]. split; [|now apply add_text_has_text].
    destruct (pick_text_column_spec d) as [(i & _ & Hin & _)|[_ E]];
      [assumption | contradiction].
Qed.

End ShimProperties.

(** * Further properties *)

(** ** The line scans and the method window *)

Section LineFacts.
Import PyStr OS Report Script Frame.

Lemma last_match_spec (wanted : string → bool) (lines : list string) (i : nat)
    (init : option nat) :
  (last_match wanted i lines init = init
   ∧ ∀ m l, lines !! m = Some l → wanted l = false)
  ∨ ∃ k l, last_match wanted i lines init = Some (i + k)
           ∧ lines !! k = Some l ∧ wanted l = true
           ∧ ∀ m l', k < m → lines !! m = Some l' → wanted l' = false.
Proof.
  revert i init. induction lines as [|line rest IH]; intros i init.
  - left. split; [reflexivity|]. intros m l H. now rewrite lookup_nil in H.
  - cbn [last_match].
    destruct (IH (S i) (if wanted line then Some i else init))
      as [[Heq Hnone] | (k & l & Heq & Hk & Hl & Hlast)].
    + destruct (wanted line) eqn:Hw.
      * right. exists 0, line. rewrite Heq, Nat.add_0_r.
        split; [reflexivity|]. split; [reflexivity|]. split; [assumption|].
        intros [|m] l' Hm Hl'; [lia|]. exact (Hnone m l' Hl').
      * left. split; [assumption|].
        intros [|m] l Hm; [injection Hm as <-; assumption | exact (Hnone m l Hm)].
    + right. exists (S k), l. rewrite Heq.
      split; [f_equal; lia|]. split; [assumption|]. split; [assumption|].
      intros [|m] l' Hm Hl'; [lia|]. apply (Hlast m l'); [lia | assumption].
Qed.

Lemma streaming_scan_last_match (lines : list string) (i : nat)
    (found : option nat * option nat) :
  PatchStreaming.scan_lines i lines found
  = (last_match (λ l, String.eqb (strip l) PatchStreaming.content_check) i lines found.1,
     last_match (λ l, String.eqb (strip l) PatchStreaming.tool_calls_elif) i lines found.2).
Proof.
  revert i found. induction lines as [|line rest IH]; intros i [a b].
  - reflexivity.
  - cbn [PatchStreaming.scan_lines last_match]. now rewrite IH.
Qed.

Lemma transformers_scan_last_match (lines : list string) (i : nat)
    (found : option nat * option nat) :
  PatchTransformers.scan_lines i lines found
  = (last_match (λ l, String.eqb (strip l) PatchTransformers.content_check) i lines found.1,
     last_match (λ l, String.eqb (strip l) PatchTransformers.tool_calls_elif) i lines
       found.2).
Proof.
  revert i found. induction lines as [|line rest IH]; intros i [a b].
  - reflexivity.
  - cbn [PatchTransformers.scan_lines last_match]. now rewrite IH.
Qed.

(** A scan that starts with nothing found ends with the last line that
    is wanted, or with nothing when no line is. *)
Lemma last_match_from_none (wanted : string → bool) (lines : list string) :
  match last_match wanted 0 lines None with
  | Some k => ∃ l, lines !! k = Some l ∧ wanted l = true
                   ∧ ∀ m l', k < m → lines !! m = Some l' → wanted l' = false
  | None => ∀ m l, lines !! m = Some l → wanted l = false
  end.
Proof.
  destruct (last_match_spec wanted lines 0 None)
    as [[-> Hnone] | (k & l & -> & Hk & Hl & Hlast)].
  - exact Hnone.
  - exists l. auto.
Qed.

Lemma lstrip_suffix (s : string) :
  ∃ ws, s = ws +:+ lstrip s ∧ Forall (λ c, is_space c = true) (list_ascii_of_string ws).
Proof.
  induction s as [|c s (ws & Heq & Hws)].
  - exists EmptyString. split; [reflexivity | constructor].
  - cbn [lstrip]. destruct (is_space c) eqn:Hc.
    + exists (String c ws). split.
      * cbn. now rewrite <- Heq.
      * cbn. constructor; assumption.
    + exists EmptyString. split; [reflexivity | constructor].
Qed.

Lemma str_take_app (a b : string) : str_take (String.length a) (a +:+ b) = a.
Proof. induction a as [|c a IH]; cbn; [now destruct b | now rewrite IH]. Qed.

Lemma length_app (a b : string) :
  String.length (a +:+ b) = String.length a + String.length b.
Proof. induction a as [|c a IH]; cbn; [reflexivity | now rewrite IH]. Qed.

(** The indentation of a line is its leading white space: the line is
    the indentation followed by what [lstrip] leaves of it. *)
Lemma indent_of_spec (line : string) :
  line = indent_of line +:+ lstrip line
  ∧ Forall (λ c, is_space c = true) (list_ascii_of_string (indent_of line)).
Proof.
  destruct (lstrip_suffix line) as (ws & Heq & Hws).
  assert (indent_of line = ws) as ->; [|now split].
  unfold indent_of. rewrite Heq at 1 3. rewrite length_app.
  replace (String.length ws + String.length (lstrip line)
           - String.length (lstrip line)) with (String.length ws) by lia.
  apply str_take_app.
Qed.

Lemma split_scan_nonempty (sep : string) (skip : nat) (s : string) :
  split_scan sep skip s ≠ [].
Proof.
  revert skip. induction s as [|c s IH]; intros skip; cbn [split_scan].
  - discriminate.
  - destruct skip as [|k]; [|apply IH].
    destruct (startswith sep (String c s)); [discriminate|].
    destruct (split_scan sep 0 s); discriminate.
Qed.

(** A text that holds the separator splits into two pieces at least. *)
Lemma split_two_pieces (sep s : string) :
  sep ≠ EmptyString → contains sep s = true →
  ∃ a b rest, split sep s = a :: b :: rest.
Proof.
  intros Hsep. unfold split. induction s as [|c s IH]; intros Hin.
  - destruct sep; [congruence | discriminate].
  - cbn [split_scan]. cbn [contains] in Hin.
    destruct (startswith sep (String c s)) eqn:Hst.
    + pose proof (split_scan_nonempty sep (String.length sep - 1) s) as Hne.
      destruct (split_scan sep (String.length sep - 1) s) as [|b rest];
        [congruence|]. now exists EmptyString, b, rest.
    + cbn in Hin. destruct (IH Hin) as (a & b & rest & ->).
      now exists (String c a), b, rest.
Qed.

Lemma split_scan_skip (sep u s : string) :
  split_scan sep (String.length u) (u +:+ s) = split_scan sep 0 s.
Proof.
  induction u as [|c u IH]; cbn.
  - now destruct s.
  - exact IH.
Qed.

(** [split] at the first occurrence: the piece in front of it, then the
    pieces of what follows it. *)
Lemma split_first (sep pre post : string) :
  sep ≠ EmptyString →
  find sep (pre +:+ sep +:+ post) = Some (String.length pre) →
  split sep (pre +:+ sep +:+ post) = pre :: split sep post.
Proof.
  intros Hsep. unfold split. induction pre as [|c pre IH]; intros Hfind.
  - cbn [String.append]. destruct sep as [|x sep]; [congruence|].
    cbn [String.append split_scan].
    assert (startswith (String x sep) (String x (sep +:+ post)) = true) as ->
      by apply (startswith_app (String x sep) post).
    f_equal. cbn [String.length].
    replace (S (String.length sep) - 1) with (String.length sep) by lia.
    apply split_scan_skip.
  - cbn [String.append] in *. cbn [find String.length] in Hfind.
    cbn [split_scan].
    destruct (startswith sep (String c (pre +:+ sep +:+ post))); [discriminate|].
    destruct (find sep (pre +:+ sep +:+ post)) as [n|] eqn:Hn; [|discriminate].
    cbn in Hfind. injection Hfind as ->. now rewrite IH.
Qed.

Lemma find_take_drop (sub s : string) (n : nat) :
  find sub s = Some n →
  s = str_take n s +:+ sub +:+ str_drop (n + String.length sub) s
  ∧ String.length (str_take n s) = n.
Proof.
  revert n. induction s as [|c s IH]; intros n; cbn [find].
  - destruct (startswith sub EmptyString) eqn:Hst; [|discriminate].
    intros [= <-]. destruct sub; [|discriminate]. now split.
  - destruct (startswith sub (String c s)) eqn:Hst.
    + intros [= <-]. destruct (startswith_inv _ _ Hst) as [r Hr].
      cbn [str_take String.append plus]. split; [|reflexivity].
      rewrite Hr at 1. f_equal. rewrite Hr.
      clear. induction sub as [|x sub IH]; cbn; [now destruct r | exact IH].
    + destruct (find sub s) as [m|] eqn:Hm; [|discriminate].
      intros [= <-]. destruct (IH m eq_refl) as [Heq Hlen].
      cbn [str_take str_drop String.append plus String.length].
      split; [now rewrite <- Heq | now rewrite Hlen].
Qed.

Lemma find_none_contains (sub s : string) :
  find sub s = None → contains sub s = false.
Proof.
  intros H. destruct (contains sub s) eqn:Hc; [|reflexivity].
  apply find_contains in Hc. rewrite H in Hc. now destruct Hc.
Qed.

Lemma split_absent (sep s : string) :
  contains sep s = false → split sep s = [s].
Proof.
  unfold split. induction s as [|c s IH]; intros Hin; [reflexivity|].
  cbn [split_scan]. cbn [contains] in Hin. apply orb_false_iff in Hin as [-> Hin].
  now rewrite (IH Hin).
Qed.

(** The first piece of a split is the text in front of the first
    separator. *)
Lemma split_head_before (sep s : string) :
  sep ≠ EmptyString → split sep s !! 0 = Some (before sep s).
Proof.
  intros Hsep. unfold before. destruct (find sep s) as [n|] eqn:Hfind.
  - destruct (find_take_drop _ _ _ Hfind) as [Heq Hlen].
    rewrite Heq at 1. rewrite split_first; [reflexivity | assumption |].
    rewrite <- Heq, Hlen. exact Hfind.
  - now rewrite (split_absent _ _ (find_none_contains _ _ Hfind)).
Qed.

End LineFacts.

(** ** What the scripts leave alone *)

Section FrameFacts.
Import PyStr OS Report Script Frame.

(** A run is known by how it ended and the world it left. *)
Lemma ended_ok {A} (r : result A * world) (a : A) : r.1 = Ok a → r = (Ok a, r.2).
Proof. destruct r as [x w]. cbn. now intros ->. Qed.

Lemma no_new_entries_refl (fs0 : gmap path entry) : no_new_entries fs0 fs0.
Proof. intros p e H. now exists e. Qed.

Lemma no_new_entries_trans (fs0 fs1 fs2 : gmap path entry) :
  no_new_entries fs0 fs1 → no_new_entries fs1 fs2 → no_new_entries fs0 fs2.
Proof.
  intros H01 H12 p e2 H2. destruct (H12 p e2 H2) as (e1 & H1 & Hk1).
  destruct (H01 p e1 H1) as (e0 & H0 & Hk0). exists e0. split; [assumption|].
  now rewrite Hk0.
Qed.

Lemma no_new_entries_subseteq (fs0 fs1 : gmap path entry) :
  fs1 ⊆ fs0 → no_new_entries fs0 fs1.
Proof.
  intros Hsub p e H. exists e. split; [|reflexivity].
  exact (lookup_weaken _ _ _ _ H Hsub).
Qed.

Lemma no_new_entries_overwrite (fs0 : gmap path entry) (p : path) (old new : string) :
  fs0 !! p = Some (File old) → no_new_entries fs0 (<[p := File new]> fs0).
Proof.
  intros Hp q e H. destruct (decide (q = p)) as [->|Hne].
  - rewrite lookup_insert_eq in H. injection H as <-. now exists (File old).
  - rewrite lookup_insert_ne in H by congruence. now exists e.
Qed.

Lemma only_touches_same {A} (scope : path → bool) (m : M A) :
  (∀ w, fs (m w).2 = fs w) → only_touches scope m.
Proof.
  intros H w. rewrite H. split; [apply no_new_entries_refl | reflexivity].
Qed.

Lemma only_touches_bind {A B} (scope : path → bool) (Q : A → Prop)
    (m : M A) (k : A → M B) :
  only_touches scope m →
  (∀ w a w', m w = (Ok a, w') → Q a) →
  (∀ a, Q a → only_touches scope (k a)) →
  only_touches scope (m ≫= k).
Proof.
  intros Hm HQ Hk w. change ((m ≫= k) w) with (bind m k w). unfold bind.
  specialize (Hm w). destruct (m w) as [[a|e] w1] eqn:E; cbn [snd] in *.
  - destruct Hm as [Hnew Hsame].
    destruct (Hk a (HQ _ _ _ E) w1) as [Hnew' Hsame']. split.
    + exact (no_new_entries_trans _ _ _ Hnew Hnew').
    + intros p Hp. now rewrite Hsame', Hsame.
  - exact Hm.
Qed.

Lemma only_touches_seq {A B} (scope : path → bool) (m : M A) (k : A → M B) :
  only_touches scope m → (∀ a, only_touches scope (k a)) →
  only_touches scope (m ≫= k).
Proof.
  intros Hm Hk. apply (only_touches_bind scope (λ _, True)); auto.
Qed.

Lemma only_touches_print (scope : path → bool) (m : message) :
  only_touches scope (print m).
Proof. now apply only_touches_same. Qed.

Lemma only_touches_ret {A} (scope : path → bool) (a : A) :
  only_touches scope (mret a : M A).
Proof. now apply only_touches_same. Qed.

Lemma only_touches_get_fs (scope : path → bool) : only_touches scope get_fs.
Proof. now apply only_touches_same. Qed.

Lemma only_touches_for_each {A} (scope : path → bool) (xs : list A)
    (body : A → M unit) :
  (∀ x, x ∈ xs → only_touches scope (body x)) →
  only_touches scope (for_each xs body).
Proof.
  induction xs as [|x xs IH]; intros Hbody; cbn [for_each].
  - apply only_touches_ret.
  - apply only_touches_seq.
    + apply Hbody. left.
    + intros _. apply IH. intros y Hy. apply Hbody. now right.
Qed.

Lemma only_touches_set_fs (scope : path → bool) (f : gmap path entry → gmap path entry) :
  (∀ fs0, f fs0 ⊆ fs0) →
  (∀ fs0 p, scope p = false → f fs0 !! p = fs0 !! p) →
  only_touches scope (set_fs f).
Proof.
  intros Hsub Hsame w. cbn. split.
  - apply no_new_entries_subseteq, Hsub.
  - intros p Hp. now apply Hsame.
Qed.

Lemma only_touches_patch_target (scope : path → bool) (target : path)
    (patch : string → string * verdict) (report : path → verdict → message) :
  scope target = true →
  only_touches scope (PatchTransformers.patch_target target patch report).
Proof.
  intros Hin w. destruct (fs w !! target) as [[content|]|] eqn:Hfile.
  - rewrite (patch_target_file _ _ _ _ _ Hfile).
    destruct (patch content) as [content' [alt| |]]; cbn [snd fs];
      try (split; [apply no_new_entries_refl | reflexivity]).
    split.
    + exact (no_new_entries_overwrite _ _ _ _ Hfile).
    + intros p Hp. apply lookup_insert_ne. congruence.
  - rewrite (patch_target_dir _ _ _ _ Hfile).
    split; [apply no_new_entries_refl | reflexivity].
  - rewrite patch_target_missing by (unfold exists_; now rewrite Hfile).
    split; [apply no_new_entries_refl | reflexivity].
Qed.

Lemma without_pyc_files_subseteq (top : path) (fs0 : gmap path entry) :
  Spec.without_pyc_files top fs0 ⊆ fs0.
Proof.
  unfold Spec.without_pyc_files. destruct (isdir fs0 top); [|reflexivity].
  apply map_filter_subseteq.
Qed.

Lemma without_pyc_files_lookup (top : path) (fs0 : gmap path entry) (p : path) :
  Spec.without_pyc_files top fs0 !! p
  = if isdir fs0 top
    then match fs0 !! p with
         | Some (File c) =>
             if below top p && name_endswith ".pyc" p then None else Some (File c)
         | other => other
         end
    else fs0 !! p.
Proof.
  unfold Spec.without_pyc_files. destruct (isdir fs0 top); [|reflexivity].
  destruct (fs0 !! p) as [e|] eqn:Hp.
  - destruct e as [c|]; cbn.
    + destruct (below top p && name_endswith ".pyc" p) eqn:Hb.
      * apply map_lookup_filter_None. right. intros e He. rewrite Hp in He.
        injection He as <-. cbn. now rewrite Hb.
      * apply map_lookup_filter_Some. split; [assumption|]. cbn. exact Hb.
    + apply map_lookup_filter_Some. split; [assumption | reflexivity].
  - apply map_lookup_filter_None. now left.
Qed.

Lemma only_touches_clear_pyc (scope : path → bool) (top : path) :
  (∀ p, below top p = true → name_endswith ".pyc" p = true → scope p = true) →
  only_touches scope (clear_pyc top).
Proof.
  intros Hscope w. rewrite clear_pyc_spec. cbn [snd fs]. split.
  - apply no_new_entries_subseteq, without_pyc_files_subseteq.
  - intros p Hp. rewrite without_pyc_files_lookup.
    destruct (isdir (fs w) top); [|reflexivity].
    destruct (fs w !! p) as [[c|]|]; try reflexivity.
    destruct (below top p) eqn:Hb; [|reflexivity].
    destruct (name_endswith ".pyc" p) eqn:Hn; [|reflexivity].
    rewrite (Hscope p Hb Hn) in Hp. discriminate.
Qed.

Lemma within_refl (p : path) : within p p = true.
Proof. induction p as [|a p IH]; cbn; [reflexivity|]. now rewrite String.eqb_refl. Qed.

Lemma within_trans (a b c : path) :
  within a b = true → within b c = true → within a c = true.
Proof.
  revert b c. induction a as [|x a IH]; intros [|y b] [|z c]; cbn; try done.
  intros [Hxy Hab]%andb_true_iff [Hyz Hbc]%andb_true_iff.
  apply String.eqb_eq in Hxy as ->. rewrite Hyz. cbn. exact (IH _ _ Hab Hbc).
Qed.

Lemma ancestors_within (d p : path) : In d (ancestors p) → within d p = true.
Proof.
  revert d. induction p as [|a p IH]; intros d; cbn [ancestors].
  - intros [<-|[]]. reflexivity.
  - intros [<-|Hd]; [reflexivity|].
    apply list_elem_of_In, list_elem_of_fmap in Hd as (d' & -> & Hd').
    cbn. rewrite String.eqb_refl. cbn. apply IH. now apply list_elem_of_In.
Qed.

Lemma within_ancestors (d p : path) : within d p = true → In d (ancestors p).
Proof.
  revert d. induction p as [|a p IH]; intros [|x d]; cbn [ancestors within]; try done.
  - now left.
  - now left.
  - intros [Hx Hd]%andb_true_iff. apply String.eqb_eq in Hx as ->. right.
    apply list_elem_of_In, list_elem_of_fmap. exists d. split; [reflexivity|].
    apply list_elem_of_In, IH, Hd.
Qed.

Lemma find_delete_pyc_lookup (root : path) (fs0 : gmap path entry) (p : path) :
  (within root p && name_endswith ".pyc" p) = false →
  find_delete_pyc root fs0 !! p = fs0 !! p.
Proof.
  intros Hp. unfold find_delete_pyc. destruct (exists_ fs0 root); [|reflexivity].
  destruct (fs0 !! p) as [e|] eqn:He.
  - apply map_lookup_filter_Some. split; [assumption|]. cbn.
    unfold find_pyc_deletes. now rewrite Hp.
  - apply map_lookup_filter_None. now left.
Qed.

Lemma in_pycache_named (fs0 : gmap path entry) (root p : path) :
  in_pycache fs0 root p = true →
  existsb (named "__pycache__") (ancestors p) = true ∧ within root p = true.
Proof.
  unfold in_pycache. intros (d & Hd & Hc)%existsb_exists.
  apply andb_true_iff in Hc as [[Hroot Hname]%andb_true_iff Hdir]. split.
  - apply existsb_exists. now exists d.
  - exact (within_trans _ _ _ Hroot (ancestors_within _ _ Hd)).
Qed.

Lemma find_rm_pycache_lookup (root : path) (fs0 : gmap path entry) (p : path) :
  in_pycache fs0 root p = false →
  find_rm_pycache root fs0 !! p = fs0 !! p.
Proof.
  intros Hp. unfold find_rm_pycache. destruct (exists_ fs0 root); [|reflexivity].
  destruct (fs0 !! p) as [e|] eqn:He.
  - apply map_lookup_filter_Some. split; assumption.
  - apply map_lookup_filter_None. now left.
Qed.

Lemma cache_entry_false (root p : path) :
  root ∈ cache_roots → cache_entry p = false →
  (within root p && name_endswith ".pyc" p) = false
  ∧ ∀ fs0, in_pycache fs0 root p = false.
Proof.
  intros Hroot Hp. unfold cache_entry in Hp.
  destruct (within root p) eqn:Hw.
  - assert (existsb (λ r, within r p) cache_roots = true) as Hex.
    { apply existsb_exists. exists root. split; [now apply list_elem_of_In | assumption]. }
    rewrite Hex, andb_true_r in Hp. apply orb_false_iff in Hp as [Hn Ha].
    split; [now rewrite Hn|]. intros fs0.
    destruct (in_pycache fs0 root p) eqn:Hc; [|reflexivity].
    apply in_pycache_named in Hc as [Hc _]. congruence.
  - split; [reflexivity|]. intros fs0.
    destruct (in_pycache fs0 root p) eqn:Hc; [|reflexivity].
    apply in_pycache_named in Hc as [_ Hc]. congruence.
Qed.

Lemma only_touches_clear_caches (scope : path → bool) (root : path) :
  root ∈ cache_roots →
  (∀ p, cache_entry p = true → scope p = true) →
  only_touches scope (PatchTransformers.clear_caches root).
Proof.
  intros Hroot Hscope w. rewrite clear_caches_spec. cbn [snd fs]. split.
  - apply no_new_entries_subseteq.
    etrans; [apply find_rm_pycache_subseteq | apply find_delete_pyc_subseteq].
  - intros p Hp.
    assert (cache_entry p = false) as Hc.
    { destruct (cache_entry p) eqn:E; [|reflexivity].
      rewrite (Hscope p E) in Hp. discriminate. }
    destruct (cache_entry_false root p Hroot Hc) as [Hpyc Hdir].
    rewrite find_rm_pycache_lookup by apply Hdir.
    now apply find_delete_pyc_lookup.
Qed.

End FrameFacts.

(** ** Properties of the line patches and of the window of Patch 7 *)

Section LineProperties.
Import PyStr OS Report Script Frame Examples.

(** X1.  Fix 1 of patch_streaming.py applies exactly when the text does
    not hold the marker _has_tc and, split at its newlines, has a line
    that strips to the content check and a line that strips to the
    tool_calls elif; in every other case the text is returned as it
    was. *)
Theorem fix1_applies_iff (content : string) :
  let lines := split nl content in
  (is_applied (PatchStreaming.fix1 content).1.2 = true
   ↔ contains "_has_tc" content = false
     ∧ (∃ i l, lines !! i = Some l ∧ strip l = PatchStreaming.content_check)
     ∧ (∃ j l, lines !! j = Some l ∧ strip l = PatchStreaming.tool_calls_elif))
  ∧ (is_applied (PatchStreaming.fix1 content).1.2 = false
     → (PatchStreaming.fix1 content).1.1 = content).
Proof.
  cbv zeta. unfold PatchStreaming.fix1.
  destruct (contains "_has_tc" content); cbn [negb].
  { split; [|reflexivity]. split; [discriminate | now intros [? _]]. }
  rewrite streaming_scan_last_match. cbn [fst snd].
  pose proof (last_match_from_none
    (λ l, String.eqb (strip l) PatchStreaming.content_check) (split nl content)) as Ha.
  pose proof (last_match_from_none
    (λ l, String.eqb (strip l) PatchStreaming.tool_calls_elif) (split nl content)) as Hb.
  destruct (last_match _ 0 (split nl content) None) as [i|];
    [destruct (last_match _ 0 (split nl content) None) as [j|]|].
  - destruct Ha as (li & Hi & Hli & _), Hb as (lj & Hj & Hlj & _).
    apply String.eqb_eq in Hli, Hlj. split; [|discriminate].
    split; [|reflexivity]. intros _. split; [reflexivity|].
    split; [now exists i, li | now exists j, lj].
  - split; [|reflexivity]. split; [discriminate|].
    intros (_ & _ & j & l & Hj & Hl). apply String.eqb_eq in Hl.
    rewrite (Hb j l Hj) in Hl. discriminate.
  - split; [|reflexivity]. split; [discriminate|].
    intros (_ & (i & l & Hi & Hl) & _). apply String.eqb_eq in Hl.
    rewrite (Ha i l Hi) in Hl. discriminate.
Qed.

(** X2.  When Fix 1 applies, the two line numbers it found are those of
    the last line that strips to the content check and of the last line
    that strips to the tool_calls elif.  Both are lines of the text (no
    index is out of range) and they differ.  The new text is the old one
    with these two lines replaced, the first by the _has_tc assignment
    and the amended check, the second by the amended elif, each behind
    the leading white space of the line it replaces; every other line
    is kept. *)
Theorem fix1_rewrites_last_anchors (content content' : string)
    (found : option nat * option nat) :
  PatchStreaming.fix1 content = (content', Applied 0, found) →
  let lines := split nl content in
  ∃ i j li lj,
    found = (Some i, Some j) ∧ i ≠ j
    ∧ lines !! i = Some li ∧ strip li = PatchStreaming.content_check
    ∧ lines !! j = Some lj ∧ strip lj = PatchStreaming.tool_calls_elif
    ∧ (∀ m l, i < m → lines !! m = Some l → strip l ≠ PatchStreaming.content_check)
    ∧ (∀ m l, j < m → lines !! m = Some l → strip l ≠ PatchStreaming.tool_calls_elif)
    ∧ li = indent_of li +:+ lstrip li
    ∧ lj = indent_of lj +:+ lstrip lj
    ∧ ∃ lines',
        content' = PyStr.join nl lines'
        ∧ length lines' = length lines
        ∧ lines' !! i = Some (PatchStreaming.has_tc_lines (indent_of li))
        ∧ lines' !! j = Some (PatchStreaming.elif_has_tc (indent_of lj))
        ∧ ∀ m, m ≠ i → m ≠ j → lines' !! m = lines !! m.
Proof.
  cbv zeta. unfold PatchStreaming.fix1.
  destruct (contains "_has_tc" content); cbn [negb]; [discriminate|].
  rewrite streaming_scan_last_match. cbn [fst snd].
  pose proof (last_match_from_none
    (λ l, String.eqb (strip l) PatchStreaming.content_check) (split nl content)) as Ha.
  pose proof (last_match_from_none
    (λ l, String.eqb (strip l) PatchStreaming.tool_calls_elif) (split nl content)) as Hb.
  destruct (last_match _ 0 (split nl content) None) as [i|];
    [destruct (last_match _ 0 (split nl content) None) as [j|]|];
    [|discriminate..].
  destruct Ha as (li & Hi & Hli & Hlasti), Hb as (lj & Hj & Hlj & Hlastj).
  apply String.eqb_eq in Hli, Hlj.
  intros [= <- <-]. exists i, j, li, lj.
  assert (i ≠ j) as Hij.
  { intros ->. rewrite Hi in Hj. injection Hj as ->. rewrite Hli in Hlj.
    discriminate. }
  split; [reflexivity|]. split; [assumption|].
  split; [assumption|]. split; [assumption|].
  split; [assumption|]. split; [assumption|].
  split.
  { intros m l Hm Hl Heq. apply String.eqb_eq in Heq.
    rewrite (Hlasti m l Hm Hl) in Heq. discriminate. }
  split.
  { intros m l Hm Hl Heq. apply String.eqb_eq in Heq.
    rewrite (Hlastj m l Hm Hl) in Heq. discriminate. }
  split; [apply indent_of_spec|]. split; [apply indent_of_spec|].
  unfold PatchStreaming.line_at. rewrite Hi, Hj. cbn [default].
  eexists. split; [reflexivity|].
  split; [now rewrite !length_insert|].
  split.
  { rewrite list_lookup_insert_ne by congruence.
    apply list_lookup_insert_eq. now apply lookup_lt_Some in Hi. }
  split.
  { apply list_lookup_insert_eq. rewrite length_insert.
    now apply lookup_lt_Some in Hj. }
  intros m Hmi Hmj. now rewrite !list_lookup_insert_ne by congruence.
Qed.

Lemma fix1_rewrites_last_anchors_witness :
  (PatchStreaming.fix1 serving_py).2 = (Some 0, Some 2)
  ∧ ∃ li lj,
      split nl serving_py !! 0 = Some li ∧ strip li = PatchStreaming.content_check
      ∧ split nl serving_py !! 2 = Some lj ∧ strip lj = PatchStreaming.tool_calls_elif.
Proof.
  split; [vm_compute; reflexivity|].
  destruct (fix1_rewrites_last_anchors serving_py
              (PatchStreaming.fix1 serving_py).1.1 (Some 0, Some 2))
    as (i & j & li & lj & Hfound & _ & Hi & Hli & Hj & Hlj & _).
  - vm_compute. reflexivity.
  - injection Hfound as <- <-. now exists li, lj.
Defined.

(** X3.  Patch 11 of patch_transformers.py applies exactly when the text
    does not hold the marker _has_tc and one of its lines strips to the
    content check and one to the tool_calls elif, the lines being those
    of readlines; in every other case the text is returned as it was. *)
Theorem patch11_applies_iff (content : string) :
  let lines := readlines content in
  (is_applied (PatchTransformers.patch11 content).2 = true
   ↔ contains "_has_tc" content = false
     ∧ (∃ i l, lines !! i = Some l ∧ strip l = PatchTransformers.content_check)
     ∧ (∃ j l, lines !! j = Some l ∧ strip l = PatchTransformers.tool_calls_elif))
  ∧ (is_applied (PatchTransformers.patch11 content).2 = false
     → (PatchTransformers.patch11 content).1 = content).
Proof.
  cbv zeta. unfold PatchTransformers.patch11. rewrite readlines_concat.
  destruct (contains "_has_tc" content).
  { split; [|reflexivity]. split; [discriminate | now intros [? _]]. }
  rewrite transformers_scan_last_match. cbn [fst snd].
  pose proof (last_match_from_none
    (λ l, String.eqb (strip l) PatchTransformers.content_check) (readlines content)) as Ha.
  pose proof (last_match_from_none
    (λ l, String.eqb (strip l) PatchTransformers.tool_calls_elif) (readlines content))
    as Hb.
  destruct (last_match _ 0 (readlines content) None) as [i|];
    [destruct (last_match _ 0 (readlines content) None) as [j|]|].
  - destruct Ha as (li & Hi & Hli & _), Hb as (lj & Hj & Hlj & _).
    apply String.eqb_eq in Hli, Hlj. split; [|discriminate].
    split; [|reflexivity]. intros _. split; [reflexivity|].
    split; [now exists i, li | now exists j, lj].
  - split; [|reflexivity]. split; [discriminate|].
    intros (_ & _ & j & l & Hj & Hl). apply String.eqb_eq in Hl.
    rewrite (Hb j l Hj) in Hl. discriminate.
  - split; [|reflexivity]. split; [discriminate|].
    intros (_ & (i & l & Hi & Hl) & _). apply String.eqb_eq in Hl.
    rewrite (Ha i l Hi) in Hl. discriminate.
Qed.

(** X4.  When Patch 11 applies, the lines it rewrites are the last line
    that strips to the content check and the last line that strips to
    the tool_calls elif, both lines of the text and different from each
    other.  The new text is the concatenation of the lines of the old
    one with these two replaced, each replacement behind the leading
    white space of the line it replaces and ended by a newline; every
    other line is kept with its terminator. *)
Theorem patch11_rewrites_last_anchors (content content' : string) :
  PatchTransformers.patch11 content = (content', Applied 0) →
  let lines := readlines content in
  ∃ i j li lj,
    i ≠ j
    ∧ lines !! i = Some li ∧ strip li = PatchTransformers.content_check
    ∧ lines !! j = Some lj ∧ strip lj = PatchTransformers.tool_calls_elif
    ∧ (∀ m l, i < m → lines !! m = Some l → strip l ≠ PatchTransformers.content_check)
    ∧ (∀ m l, j < m → lines !! m = Some l
              → strip l ≠ PatchTransformers.tool_calls_elif)
    ∧ li = indent_of li +:+ lstrip li
    ∧ lj = indent_of lj +:+ lstrip lj
    ∧ ∃ lines',
        content' = PyStr.concat lines'
        ∧ length lines' = length lines
        ∧ lines' !! i = Some (PatchTransformers.has_tc_lines (indent_of li))
        ∧ lines' !! j = Some (PatchTransformers.elif_has_tc (indent_of lj))
        ∧ ∀ m, m ≠ i → m ≠ j → lines' !! m = lines !! m.
Proof.
  cbv zeta. unfold PatchTransformers.patch11. rewrite readlines_concat.
  destruct (contains "_has_tc" content); [discriminate|].
  rewrite transformers_scan_last_match. cbn [fst snd].
  pose proof (last_match_from_none
    (λ l, String.eqb (strip l) PatchTransformers.content_check) (readlines content)) as Ha.
  pose proof (last_match_from_none
    (λ l, String.eqb (strip l) PatchTransformers.tool_calls_elif) (readlines content))
    as Hb.
  destruct (last_match _ 0 (readlines content) None) as [i|];
    [destruct (last_match _ 0 (readlines content) None) as [j|]|];
    [|discriminate..].
  destruct Ha as (li & Hi & Hli & Hlasti), Hb as (lj & Hj & Hlj & Hlastj).
  apply String.eqb_eq in Hli, Hlj.
  intros [= <-]. exists i, j, li, lj.
  assert (i ≠ j) as Hij.
  { intros ->. rewrite Hi in Hj. injection Hj as ->. rewrite Hli in Hlj.
    discriminate. }
  split; [assumption|].
  split; [assumption|]. split; [assumption|].
  split; [assumption|]. split; [assumption|].
  split.
  { intros m l Hm Hl Heq. apply String.eqb_eq in Heq.
    rewrite (Hlasti m l Hm Hl) in Heq. discriminate. }
  split.
  { intros m l Hm Hl Heq. apply String.eqb_eq in Heq.
    rewrite (Hlastj m l Hm Hl) in Heq. discriminate. }
  split; [apply indent_of_spec|]. split; [apply indent_of_spec|].
  unfold PatchTransformers.line_at. rewrite Hi, Hj. cbn [default].
  eexists. split; [reflexivity|].
  split; [now rewrite !length_insert|].
  split.
  { rewrite list_lookup_insert_ne by congruence.
    apply list_lookup_insert_eq. now apply lookup_lt_Some in Hi. }
  split.
  { apply list_lookup_insert_eq. rewrite length_insert.
    now apply lookup_lt_Some in Hj. }
  intros m Hmi Hmj. now rewrite !list_lookup_insert_ne by congruence.
Qed.

Lemma patch11_rewrites_last_anchors_witness :
  ∃ i j li lj,
    i ≠ j
    ∧ readlines serving_py !! i = Some li
    ∧ strip li = PatchTransformers.content_check
    ∧ readlines serving_py !! j = Some lj
    ∧ strip lj = PatchTransformers.tool_calls_elif
    ∧ (∀ m l, i < m → readlines serving_py !! m = Some l
              → strip l ≠ PatchTransformers.content_check)
    ∧ (∀ m l, j < m → readlines serving_py !! m = Some l
              → strip l ≠ PatchTransformers.tool_calls_elif)
    ∧ li = indent_of li +:+ lstrip li
    ∧ lj = indent_of lj +:+ lstrip lj
    ∧ ∃ lines',
        (PatchTransformers.patch11 serving_py).1 = PyStr.concat lines'
        ∧ length lines' = length (readlines serving_py)
        ∧ lines' !! i = Some (PatchTransformers.has_tc_lines (indent_of li))
        ∧ lines' !! j = Some (PatchTransformers.elif_has_tc (indent_of lj))
        ∧ ∀ m, m ≠ i → m ≠ j → lines' !! m = readlines serving_py !! m.
Proof.
  apply (patch11_rewrites_last_anchors serving_py). vm_compute. reflexivity.
Defined.

(** X5.  Fix 1 is idempotent: applied to the text it has produced, it
    finds its marker and returns that text unchanged, as already
    applied. *)
Theorem fix1_twice (content content' : string) (found : option nat * option nat) :
  PatchStreaming.fix1 content = (content', Applied 0, found) →
  PatchStreaming.fix1 content' = (content', AlreadyApplied, (None, None))
  ∧ contains "_has_tc" content' = true.
Proof.
  intros H. pose proof (fix1_second_run _ _ _ H) as H2. split; [assumption|].
  unfold PatchStreaming.fix1 in H2.
  destruct (contains "_has_tc" content'); [reflexivity|]. cbn [negb] in H2.
  destruct (PatchStreaming.scan_lines 0 (split nl content') (None, None))
    as [[i|] [j|]]; discriminate.
Qed.

Lemma fix1_twice_witness :
  PatchStreaming.fix1 (PatchStreaming.fix1 serving_py).1.1
  = ((PatchStreaming.fix1 serving_py).1.1, AlreadyApplied, (None, None))
  ∧ contains "_has_tc" (PatchStreaming.fix1 serving_py).1.1 = true.
Proof.
  apply (fix1_twice serving_py _ (Some 0, Some 2)). vm_compute. reflexivity.
Defined.

(** X6.  Whenever the method text of Patch 7 is in the file, the two
    indexings that cut the window out of it succeed: the name
    _add_loadable_non_param_tensors occurs, so the split at it has a
    piece of index 1.  The window is what follows the first occurrence
    of the name, up to the next occurrence of the name or the next
    def, whichever comes first, and 200 characters of it at most. *)
Theorem patch7_window (content : string) :
  contains PatchTransformers.old_method content = true →
  ∃ pre post piece first,
    content = pre +:+ "_add_loadable_non_param_tensors" +:+ post
    ∧ find "_add_loadable_non_param_tensors" content = Some (String.length pre)
    ∧ split "_add_loadable_non_param_tensors" content !! 1 = Some piece
    ∧ piece = before "_add_loadable_non_param_tensors" post
    ∧ split "def " piece !! 0 = Some first
    ∧ first = before "def " piece
    ∧ PatchTransformers.after_method_name content = str_take 200 first.
Proof.
  intros Hin.
  assert (contains "_add_loadable_non_param_tensors" content = true) as Hname.
  { apply (contains_trans _ PatchTransformers.old_method); [|assumption].
    vm_compute. reflexivity. }
  apply find_contains in Hname as [n Hfind].
  destruct (find_take_drop _ _ _ Hfind) as [Heq Hlen].
  set (pre := str_take n content) in *.
  set (post := str_drop (n + String.length "_add_loadable_non_param_tensors") content)
    in *.
  assert (split "_add_loadable_non_param_tensors" content
          = pre :: split "_add_loadable_non_param_tensors" post) as Hsplit.
  { rewrite Heq at 1. apply split_first; [discriminate|].
    rewrite <- Heq, Hlen. exact Hfind. }
  assert (split "_add_loadable_non_param_tensors" content !! 1
          = Some (before "_add_loadable_non_param_tensors" post)) as Hpiece.
  { rewrite Hsplit. change ((pre :: ?l) !! 1) with (l !! 0).
    apply split_head_before. discriminate. }
  exists pre, post, (before "_add_loadable_non_param_tensors" post),
    (before "def " (before "_add_loadable_non_param_tensors" post)).
  split; [exact Heq|]. split; [now rewrite Hlen|]. split; [exact Hpiece|].
  split; [reflexivity|].
  assert (split "def " (before "_add_loadable_non_param_tensors" post) !! 0
          = Some (before "def " (before "_add_loadable_non_param_tensors" post)))
    as Hfirst by (apply split_head_before; discriminate).
  split; [exact Hfirst|]. split; [reflexivity|].
  unfold PatchTransformers.after_method_name. cbv zeta.
  rewrite Hpiece. cbn [default from_option id]. now rewrite Hfirst.
Qed.

Lemma patch7_window_witness :
  ∃ pre post piece first,
    PatchTransformers.old_method = pre +:+ "_add_loadable_non_param_tensors" +:+ post
    ∧ find "_add_loadable_non_param_tensors" PatchTransformers.old_method
      = Some (String.length pre)
    ∧ split "_add_loadable_non_param_tensors" PatchTransformers.old_method !! 1
      = Some piece
    ∧ piece = before "_add_loadable_non_param_tensors" post
    ∧ split "def " piece !! 0 = Some first
    ∧ first = before "def " piece
    ∧ PatchTransformers.after_method_name PatchTransformers.old_method
      = str_take 200 first.
Proof.
  apply (patch7_window PatchTransformers.old_method). vm_compute. reflexivity.
Defined.

End LineProperties.

(** ** Running a patch again *)

Section AgainFacts.
Import PyStr OS Report Script Frame.

Variable rel : path.
Variable patch : string → string * verdict.
Variable report : path → verdict → message.

Hypothesis patch_once :
  ∀ c c' alt, patch c = (c', Applied alt) → is_applied (patch c').2 = false.

Lemma patch_target_settles (target : path) (w w1 : world) :
  PatchTransformers.patch_target target patch report w = (Ok tt, w1) →
  settled patch (fs w1) target.
Proof.
  unfold Frame.settled. destruct (fs w !! target) as [[c|]|] eqn:Hfile.
  - rewrite (patch_target_file _ _ _ _ _ Hfile).
    destruct (patch c) as [c' v] eqn:Hp. destruct v as [alt| |].
    + intros [= <-]. cbn [fs]. rewrite lookup_insert_eq.
      exact (patch_once _ _ _ Hp).
    + intros [= <-]. cbn [fs]. now rewrite Hfile, Hp.
    + intros [= <-]. cbn [fs]. now rewrite Hfile, Hp.
  - now rewrite (patch_target_dir _ _ _ _ Hfile).
  - rewrite patch_target_missing by (unfold exists_; now rewrite Hfile).
    intros [= <-]. now rewrite Hfile.
Qed.

Lemma patch_target_keeps_settled (target t : path) (w w1 : world) :
  settled patch (fs w) t →
  PatchTransformers.patch_target target patch report w = (Ok tt, w1) →
  settled patch (fs w1) t.
Proof.
  intros Ht. destruct (decide (target = t)) as [->|Hne].
  - intros H. exact (patch_target_settles _ _ _ H).
  - unfold Frame.settled in *. destruct (fs w !! target) as [[c|]|] eqn:Hfile.
    + rewrite (patch_target_file _ _ _ _ _ Hfile).
      destruct (patch c) as [c' v]. destruct v as [alt| |]; intros [= <-]; cbn [fs];
        [now rewrite lookup_insert_ne by assumption | assumption..].
    + now rewrite (patch_target_dir _ _ _ _ Hfile).
    + rewrite patch_target_missing by (unfold exists_; now rewrite Hfile).
      now intros [= <-].
Qed.

Lemma patch_loop_keeps_settled (roots : list path) (t : path) (w w1 : world) :
  settled patch (fs w) t →
  for_each roots (λ root, PatchTransformers.patch_target (OS.join root rel) patch report) w
  = (Ok tt, w1) →
  settled patch (fs w1) t.
Proof.
  revert w. induction roots as [|root roots IH]; intros w Ht; cbn [for_each].
  - now intros [= <-].
  - intros H. apply bind_inv in H as ([] & w' & Hfirst & Hrest).
    exact (IH w' (patch_target_keeps_settled _ _ _ _ Ht Hfirst) Hrest).
Qed.

Lemma patch_loop_settles (roots : list path) (w w1 : world) :
  for_each roots (λ root, PatchTransformers.patch_target (OS.join root rel) patch report) w
  = (Ok tt, w1) →
  ∀ root, root ∈ roots → settled patch (fs w1) (OS.join root rel).
Proof.
  revert w. induction roots as [|r roots IH]; intros w; cbn [for_each].
  - intros _ root Hroot. now apply elem_of_nil in Hroot.
  - intros H. apply bind_inv in H as ([] & w' & Hfirst & Hrest).
    intros root [->|Hroot]%elem_of_cons.
    + exact (patch_loop_keeps_settled _ _ _ _ (patch_target_settles _ _ _ Hfirst) Hrest).
    + exact (IH w' Hrest root Hroot).
Qed.

Lemma patch_loop_settled (roots : list path) (w : world) :
  (∀ root, root ∈ roots → settled patch (fs w) (OS.join root rel)) →
  ∃ printed,
    for_each roots (λ root, PatchTransformers.patch_target (OS.join root rel) patch report)
      w
    = (Ok tt, World (fs w) (out w ++ printed))
    ∧ Forall (λ m, ∃ root v, m = report (OS.join root rel) v ∧ is_applied v = false)
             printed.
Proof.
  revert w. induction roots as [|root roots IH]; intros w Hall; cbn [for_each].
  - exists []. rewrite app_nil_r, world_eta. split; [reflexivity | constructor].
  - pose proof (Hall root ltac:(left)) as Hroot. unfold Frame.settled in Hroot.
    destruct (fs w !! OS.join root rel) as [[c|]|] eqn:Hfile; [| destruct Hroot |].
    + destruct (patch c) as [c' v] eqn:Hp. cbn [snd] in Hroot.
      destruct (IH (World (fs w) (out w ++ [report (OS.join root rel) v])))
        as (printed & Hrest & Hprinted).
      { intros r Hr. cbn [fs]. apply Hall. now right. }
      exists (report (OS.join root rel) v :: printed). split.
      * erewrite bind_ok.
        -- rewrite Hrest. cbn [fs out]. now rewrite <- app_assoc.
        -- rewrite (patch_target_file _ _ _ _ _ Hfile), Hp.
           destruct v; [discriminate | reflexivity..].
      * constructor; [|assumption]. now exists root, v.
    + destruct (IH w) as (printed & Hrest & Hprinted).
      { intros r Hr. apply Hall. now right. }
      exists printed. split; [|assumption].
      erewrite bind_ok; [exact Hrest|].
      apply patch_target_missing. unfold exists_. now rewrite Hfile.
Qed.

(** A loop of one of the patches 4, 7, 8 and 11 whose decision does not
    apply to its own result: run again on what a first run has left, it
    writes nothing and reports no application. *)
Lemma patch_loop_again (roots : list path) (w w1 : world) :
  for_each roots (λ root, PatchTransformers.patch_target (OS.join root rel) patch report) w
  = (Ok tt, w1) →
  ∃ printed,
    for_each roots (λ root, PatchTransformers.patch_target (OS.join root rel) patch report)
      w1
    = (Ok tt, World (fs w1) (out w1 ++ printed))
    ∧ Forall (λ m, ∃ root v, m = report (OS.join root rel) v ∧ is_applied v = false)
             printed.
Proof.
  intros H. apply patch_loop_settled. exact (patch_loop_settles _ _ _ H).
Qed.

End AgainFacts.

(** ** Properties of a second run *)

Section AgainProperties.
Import PyStr OS Report Script Frame Examples Installed.

(** X7.  Patch 8 is idempotent as the script runs it: when its loop over
    the vllm roots has run to its end, running it again on the file
    system it left writes no file, and every line it prints says
    already patched or no pattern, never applied. *)
Theorem patch8_again (vllm_roots : list path) (w w1 : world) :
  PatchTransformers.run_patch8 vllm_roots w = (Ok tt, w1) →
  ∃ printed,
    PatchTransformers.run_patch8 vllm_roots w1
    = (Ok tt, World (fs w1) (out w1 ++ printed))
    ∧ Forall (λ m, ∃ p, m = Patch8Already p ∨ m = Patch8NoPattern p) printed.
Proof.
  intros H. unfold PatchTransformers.run_patch8 in *.
  assert (∀ c c' alt, PatchTransformers.patch8 c = (c', Applied alt)
                      → is_applied (PatchTransformers.patch8 c').2 = false) as Honce.
  { intros c c' alt Hc. now rewrite (patch8_second_run _ _ _ Hc). }
  destruct (patch_loop_again _ _ _ Honce _ _ _ H) as (printed & Hagain & Hprinted).
  exists printed. split; [exact Hagain|].
  eapply Forall_impl; [exact Hprinted|].
  intros m (root & v & -> & Hv). eexists.
  destruct v; [discriminate | left | right]; reflexivity.
Qed.

Lemma patch8_again_witness :
  let w1 := (PatchTransformers.run_patch8 [vllm_root] (World vllm_with_moe [])).2 in
  out w1 = [Patch8Applied moe_py 0]
  ∧ ∃ printed,
      PatchTransformers.run_patch8 [vllm_root] w1
      = (Ok tt, World (fs w1) (out w1 ++ printed))
      ∧ Forall (λ m, ∃ p, m = Patch8Already p ∨ m = Patch8NoPattern p) printed.
Proof.
  split; [vm_compute; reflexivity|].
  apply (patch8_again [vllm_root] (World vllm_with_moe [])).
  apply ended_ok. vm_compute. reflexivity.
Defined.

(** X8.  Patch 11 is idempotent as the script runs it: when its loop over
    the vllm roots has run to its end, running it again on the file
    system it left writes no file, and every line it prints says
    already patched or no pattern, never applied. *)
Theorem patch11_again (vllm_roots : list path) (w w1 : world) :
  PatchTransformers.run_patch11 vllm_roots w = (Ok tt, w1) →
  ∃ printed,
    PatchTransformers.run_patch11 vllm_roots w1
    = (Ok tt, World (fs w1) (out w1 ++ printed))
    ∧ Forall (λ m, ∃ p, m = Patch11Already p ∨ m = Patch11NoPattern p) printed.
Proof.
  intros H. unfold PatchTransformers.run_patch11 in *.
  assert (∀ c c' alt, PatchTransformers.patch11 c = (c', Applied alt)
                      → is_applied (PatchTransformers.patch11 c').2 = false) as Honce.
  { intros c c' alt Hc.
    assert (alt = 0) as ->.
    { unfold PatchTransformers.patch11 in Hc.
      destruct (contains "_has_tc" _); [discriminate|].
      destruct (PatchTransformers.scan_lines 0 (readlines c) (None, None))
        as [[i|] [j|]]; now inversion Hc. }
    now rewrite (patch11_second_run _ _ Hc). }
  destruct (patch_loop_again _ _ _ Honce _ _ _ H) as (printed & Hagain & Hprinted).
  exists printed. split; [exact Hagain|].
  eapply Forall_impl; [exact Hprinted|].
  intros m (root & v & -> & Hv). eexists.
  destruct v; [discriminate | left | right]; reflexivity.
Qed.

Lemma patch11_again_witness :
  let w1 :=
    (PatchTransformers.run_patch11 [vllm_root] (World vllm_with_serving [])).2 in
  out w1 = [Patch11Applied serving_path]
  ∧ ∃ printed,
      PatchTransformers.run_patch11 [vllm_root] w1
      = (Ok tt, World (fs w1) (out w1 ++ printed))
      ∧ Forall (λ m, ∃ p, m = Patch11Already p ∨ m = Patch11NoPattern p) printed.
Proof.
  split; [vm_compute; reflexivity|].
  apply (patch11_again [vllm_root] (World vllm_with_serving [])).
  apply ended_ok. vm_compute. reflexivity.
Defined.

(** X9.  Fix 0 on a config.py that has the install_config_module line
    and not the attribute: the run writes the file with the assignment
    put in front of that line and prints that it was added; a second
    run on what the first left prints that it is already present and
    changes nothing. *)
Theorem fix0_then_already_present (w : world) (src : string) :
  fs w !! PatchStreaming._ind_cfg_path = Some (File src) →
  contains "assume_32bit_indexing" src = false →
  contains PatchStreaming.install_config src = true →
  ∃ w1,
    PatchStreaming.run_fix0 w = (Ok tt, w1)
    ∧ out w1 = out w ++ [Fix0Added]
    ∧ fs w1 !! PatchStreaming._ind_cfg_path
      = Some (File (replace PatchStreaming.install_config
                            PatchStreaming.install_config_patched src))
    ∧ PatchStreaming.run_fix0 w1
      = (Ok tt, World (fs w1) (out w1 ++ [Fix0Already])).
Proof.
  intros Hfile Hmarker Hanchor.
  destruct (fix0_second_run src Hmarker Hanchor) as [Hfirst Hsecond].
  rewrite (run_fix0_file _ _ Hfile), Hfirst. eexists. split; [reflexivity|].
  cbn [fs out]. split; [reflexivity|].
  assert (Spec.without_pyc_files (dirname PatchStreaming._ind_cfg_path)
            (<[PatchStreaming._ind_cfg_path :=
                 File (replace PatchStreaming.install_config
                         PatchStreaming.install_config_patched src)]> (fs w))
          !! PatchStreaming._ind_cfg_path
          = Some (File (replace PatchStreaming.install_config
                          PatchStreaming.install_config_patched src))) as Hkept.
  { rewrite without_pyc_files_lookup, lookup_insert_eq.
    replace (name_endswith ".pyc" PatchStreaming._ind_cfg_path) with false
      by (vm_compute; reflexivity).
    rewrite andb_false_r. now destruct (isdir _ _). }
  split; [exact Hkept|].
  erewrite run_fix0_file by (cbn [fs]; exact Hkept). now rewrite Hsecond.
Qed.

Lemma fix0_then_already_present_witness :
  ∃ w1,
    PatchStreaming.run_fix0 (World torch_with_config []) = (Ok tt, w1)
    ∧ out w1 = [] ++ [Fix0Added]
    ∧ fs w1 !! PatchStreaming._ind_cfg_path
      = Some (File (replace PatchStreaming.install_config
                            PatchStreaming.install_config_patched
                            PatchStreaming.install_config))
    ∧ PatchStreaming.run_fix0 w1
      = (Ok tt, World (fs w1) (out w1 ++ [Fix0Already])).
Proof.
  apply (fix0_then_already_present (World torch_with_config [])
           PatchStreaming.install_config); vm_compute; reflexivity.
Defined.

(** X10.  Fix 0 on a config.py that has neither the attribute nor the
    install_config_module line: the replacement finds nothing, yet the
    file is written again with the text it had, the compiled files
    below its directory are removed, and the line printed says that
    the attribute was added.  The file still lacks the attribute, so
    every later run does the same. *)
Theorem fix0_reports_added_without_anchor (w : world) (src : string) :
  fs w !! PatchStreaming._ind_cfg_path = Some (File src) →
  contains "assume_32bit_indexing" src = false →
  contains PatchStreaming.install_config src = false →
  PatchStreaming.fix0 src = (src, Applied 0)
  ∧ PatchStreaming.run_fix0 w
    = (Ok tt,
       World (Spec.without_pyc_files (dirname PatchStreaming._ind_cfg_path) (fs w))
             (out w ++ [Fix0Added]))
  ∧ Spec.without_pyc_files (dirname PatchStreaming._ind_cfg_path) (fs w)
    !! PatchStreaming._ind_cfg_path = Some (File src).
Proof.
  intros Hfile Hmarker Hanchor.
  assert (PatchStreaming.fix0 src = (src, Applied 0)) as Hfix.
  { unfold PatchStreaming.fix0. rewrite Hmarker. cbn [negb]. f_equal.
    exact (replace_scan_absent _ _ None _ Hanchor). }
  split; [exact Hfix|].
  rewrite (run_fix0_file _ _ Hfile), Hfix, (insert_id _ _ _ Hfile).
  split; [reflexivity|].
  rewrite without_pyc_files_lookup, Hfile.
  replace (name_endswith ".pyc" PatchStreaming._ind_cfg_path) with false
    by (vm_compute; reflexivity).
  rewrite andb_false_r. now destruct (isdir _ _).
Qed.

Lemma fix0_reports_added_without_anchor_witness :
  PatchStreaming.fix0 "import sys" = ("import sys", Applied 0)
  ∧ PatchStreaming.run_fix0 (World torch_other_config [])
    = (Ok tt,
       World (Spec.without_pyc_files (dirname PatchStreaming._ind_cfg_path)
                torch_other_config)
             ([] ++ [Fix0Added]))
  ∧ Spec.without_pyc_files (dirname PatchStreaming._ind_cfg_path) torch_other_config
    !! PatchStreaming._ind_cfg_path = Some (File "import sys").
Proof.
  apply (fix0_reports_added_without_anchor (World torch_other_config []) "import sys");
    vm_compute; reflexivity.
Defined.

End AgainProperties.

(** ** Properties of the cache clearing and of the scripts as a whole *)

Section ScriptFrameFacts.
Import PyStr OS Report Script Frame.

Lemma bind_raise {A B} (m : M A) (k : A → M B) (w w' : world) (e : exn) :
  m w = (Raise e, w') → (m ≫= k) w = (Raise e, w').
Proof.
  intros H. change ((m ≫= k) w) with (bind m k w). unfold bind. now rewrite H.
Qed.

Lemma within_length (a b : path) : within a b = true → length a ≤ length b.
Proof.
  revert b. induction a as [|x a IH]; intros [|y b]; cbn; try done; [lia|].
  intros [_ H]%andb_true_iff. apply IH in H. lia.
Qed.

Lemma within_same_length (a b : path) :
  within a b = true → length a = length b → a = b.
Proof.
  revert b. induction a as [|x a IH]; intros [|y b]; cbn; try done.
  intros [Hx H]%andb_true_iff [= Hlen]. apply String.eqb_eq in Hx as ->.
  f_equal. now apply IH.
Qed.

Lemma within_below (a b : path) : within a b = true → a ≠ b → below a b = true.
Proof.
  intros Hw Hne. unfold below. rewrite Hw. cbn. apply Nat.ltb_lt.
  pose proof (within_length _ _ Hw).
  destruct (decide (length a = length b)) as [Heq|]; [|lia].
  now apply within_same_length in Heq.
Qed.

Lemma named_pycache_not_pyc (d : path) :
  named "__pycache__" d = true → name_endswith ".pyc" d = false.
Proof.
  unfold named, name_endswith. destruct (last d) as [n|]; [|done].
  intros ->%String.eqb_eq. reflexivity.
Qed.

(** The first [find] of Patch 5 leaves the root in place when a cache
    directory is at or below it. *)
Lemma find_delete_pyc_keeps_root (fs0 : gmap path entry) (root d : path) :
  isdir fs0 root = true → isdir fs0 d = true →
  within root d = true → named "__pycache__" d = true →
  isdir (find_delete_pyc root fs0) root = true
  ∧ isdir (find_delete_pyc root fs0) d = true.
Proof.
  intros Hroot Hd Hwithin Hnamed.
  pose proof (named_pycache_not_pyc _ Hnamed) as Hnot.
  assert (isdir (find_delete_pyc root fs0) d = true) as Hd'.
  { unfold isdir in *. rewrite find_delete_pyc_lookup; [assumption|].
    now rewrite Hnot, andb_false_r. }
  split; [|exact Hd'].
  destruct (decide (root = d)) as [->|Hne]; [exact Hd'|].
  unfold isdir in *. unfold find_delete_pyc.
  destruct (fs0 !! root) as [[c|]|] eqn:Hr; try discriminate.
  unfold exists_. rewrite Hr.
  assert (filter (λ kv : path * entry, find_pyc_deletes fs0 root kv.1 kv.2 = false) fs0
          !! root = Some Dir) as ->; [|reflexivity].
  apply map_lookup_filter_Some. split; [assumption|]. cbn.
  unfold find_pyc_deletes. apply andb_false_iff. right.
  apply not_true_iff_false. intros Hall.
  rewrite forallb_forall in Hall.
  destruct (fs0 !! d) as [[c|]|] eqn:Hdd; try discriminate.
  specialize (Hall (d, Dir)). cbn in Hall.
  rewrite (within_below _ _ Hwithin Hne), Hnot in Hall.
  assert (In (d, Dir) (map_to_list fs0)) as Hin
    by now apply list_elem_of_In, elem_of_map_to_list.
  specialize (Hall Hin). discriminate.
Qed.

Lemma only_touches_patch3_file (patched_files : list path) (dirpath : path)
    (fname : string) :
  (endswith ".py" fname = true →
   (below PatchTransformers.ct_base (OS.join dirpath [fname])
    && name_endswith ".py" (OS.join dirpath [fname])) = true) →
  only_touches transformers_scope
    (PatchTransformers.patch3_file patched_files dirpath fname).
Proof.
  intros Hscope. unfold PatchTransformers.patch3_file.
  destruct (endswith ".py" fname); [|apply only_touches_ret].
  specialize (Hscope eq_refl). intros w.
  change ((read_file ?p ≫= ?k) w) with (bind (read_file p) k w).
  unfold bind, read_file.
  destruct (fs w !! OS.join dirpath [fname]) as [[fc|]|] eqn:Hfile;
    try (split; [apply no_new_entries_refl | reflexivity]).
  destruct (PatchTransformers.patch3 fc) as [fc' [alt| |]];
    try (split; [apply no_new_entries_refl | reflexivity]).
  change ((write_file ?p ?c ≫= ?k) w) with (bind (write_file p c) k w).
  unfold bind, write_file. rewrite Hfile. cbn [snd fs]. split.
  - exact (no_new_entries_overwrite _ _ _ _ Hfile).
  - intros p Hp. apply lookup_insert_ne. intros <-.
    unfold transformers_scope in Hp. now rewrite Hscope in Hp.
Qed.

Lemma only_touches_patch3_loop (files : list (path * string)) (patched_files : list path) :
  (∀ d f, (d, f) ∈ files → endswith ".py" f = true →
          (below PatchTransformers.ct_base (OS.join d [f])
           && name_endswith ".py" (OS.join d [f])) = true) →
  only_touches transformers_scope (PatchTransformers.patch3_loop files patched_files).
Proof.
  revert patched_files. induction files as [|[d f] files IH]; intros acc Hall;
    cbn [PatchTransformers.patch3_loop].
  - apply only_touches_ret.
  - apply only_touches_seq.
    + apply only_touches_patch3_file. apply Hall. left.
    + intros acc'. apply IH. intros d' f' Hin. apply Hall. now right.
Qed.

Lemma walk_below (fs0 : gmap path entry) (top d : path) (f : string) :
  (d, f) ∈ walk fs0 top →
  ∃ p, p ∈ files_below fs0 top ∧ OS.join d [f] = p ∧ f = basename p
       ∧ below top p = true.
Proof.
  unfold walk. destruct (isdir fs0 top); [|now intros ?%elem_of_nil].
  intros (p & [= -> ->] & Hp)%list_elem_of_fmap.
  pose proof Hp as [_ Hbelow]%elem_of_files_below.
  exists p. split; [assumption|]. split; [|now split].
  apply dirname_basename. exact (below_nonempty _ _ Hbelow).
Qed.

Lemma only_touches_run_patch3 :
  only_touches transformers_scope PatchTransformers.run_patch3.
Proof.
  unfold PatchTransformers.run_patch3.
  apply only_touches_seq; [apply only_touches_get_fs|]. intros fs0.
  destruct (isdir fs0 PatchTransformers.ct_base); [|apply only_touches_ret].
  apply only_touches_seq.
  - apply only_touches_patch3_loop. intros d f Hin Hpy.
    destruct (walk_below _ _ _ _ Hin) as (p & _ & -> & -> & Hbelow).
    rewrite Hbelow. cbn.
    rewrite <- (basename_endswith _ _ (below_nonempty _ _ Hbelow)). exact Hpy.
  - intros [|? ?]; apply only_touches_print.
Qed.

Lemma target_in_scope (root rel : path) :
  root ∈ PatchTransformers.vllm_candidates → rel ∈ target_files →
  transformers_scope (OS.join root rel) = true.
Proof.
  intros Hroot Hrel. unfold transformers_scope.
  assert (OS.join root rel ∈ transformers_targets) as Hin.
  { unfold transformers_targets. apply list_elem_of_bind. exists root.
    split; [|assumption]. apply list_elem_of_fmap. now exists rel. }
  rewrite (bool_decide_eq_true_2 _ Hin). now rewrite orb_true_r.
Qed.

Lemma only_touches_patch_loop (roots : list path) (rel : path)
    (patch : string → string * verdict) (report : path → verdict → message) :
  roots ⊆ PatchTransformers.vllm_candidates → rel ∈ target_files →
  only_touches transformers_scope
    (for_each roots (λ root, PatchTransformers.patch_target (OS.join root rel) patch report)).
Proof.
  intros Hroots Hrel. apply only_touches_for_each. intros root Hroot.
  apply only_touches_patch_target, target_in_scope; [now apply Hroots | assumption].
Qed.

Lemma cache_entry_in_scope (p : path) :
  cache_entry p = true → transformers_scope p = true.
Proof. intros H. unfold transformers_scope. rewrite H. apply orb_true_r. Qed.

Lemma only_touches_run_patch5 (roots : list path) :
  roots ⊆ PatchTransformers.vllm_candidates →
  only_touches transformers_scope (PatchTransformers.run_patch5 roots).
Proof.
  intros Hroots. unfold PatchTransformers.run_patch5.
  apply only_touches_seq; [|intros _; apply only_touches_seq].
  - apply only_touches_for_each. intros root Hroot.
    apply only_touches_seq; [apply only_touches_get_fs|]. intros fs0.
    destruct (isdir fs0 root); [|apply only_touches_ret].
    apply only_touches_clear_caches; [|exact cache_entry_in_scope].
    unfold cache_roots. apply elem_of_app in Hroot as [Hroot|Hroot%list_elem_of_singleton].
    + apply elem_of_app. left. now apply Hroots.
    + subst root. apply elem_of_app. right. left.
  - apply only_touches_clear_caches; [|exact cache_entry_in_scope].
    unfold cache_roots. apply elem_of_app. right. right. left.
  - intros _. apply only_touches_print.
Qed.

End ScriptFrameFacts.

Section ScriptFrameProperties.
Import PyStr OS Report Script Frame Examples Installed.

(** X11.  The two find commands of Patch 5, run on a directory, never
    fail, print nothing and only remove: what they leave is part of
    what was there.  Nothing outside the directory is touched, and
    inside it every entry is kept whose name does not end in .pyc and
    which is not, and does not lie in, something named __pycache__. *)
Theorem clear_caches_keeps_sources (root : path) (w : world) :
  ∃ fs',
    PatchTransformers.clear_caches root w = (Ok tt, World fs' (out w))
    ∧ fs' ⊆ fs w
    ∧ (∀ p, within root p = false → fs' !! p = fs w !! p)
    ∧ (∀ p, name_endswith ".pyc" p = false →
            existsb (named "__pycache__") (ancestors p) = false →
            fs' !! p = fs w !! p).
Proof.
  eexists. split; [apply clear_caches_spec|]. split.
  { etrans; [apply find_rm_pycache_subseteq | apply find_delete_pyc_subseteq]. }
  split.
  - intros p Hp. rewrite find_rm_pycache_lookup, find_delete_pyc_lookup;
      [reflexivity | now rewrite Hp |].
    destruct (in_pycache _ root p) eqn:Hc; [|reflexivity].
    apply in_pycache_named in Hc as [_ Hc]. congruence.
  - intros p Hname Hcache. rewrite find_rm_pycache_lookup, find_delete_pyc_lookup;
      [reflexivity | now rewrite Hname, andb_false_r |].
    destruct (in_pycache _ root p) eqn:Hc; [|reflexivity].
    apply in_pycache_named in Hc as [Hc _]. congruence.
Qed.

(** X12.  The two find commands of Patch 5, run on a directory, leave
    nothing of a directory named __pycache__ at or below it: the
    directory itself and every entry inside it are gone, whatever the
    names of the entries. *)
Theorem clear_caches_empties_pycache (root d p : path) (w : world) :
  isdir (fs w) root = true →
  isdir (fs w) d = true →
  within root d = true →
  named "__pycache__" d = true →
  within d p = true →
  ∃ fs',
    PatchTransformers.clear_caches root w = (Ok tt, World fs' (out w))
    ∧ fs' !! p = None.
Proof.
  intros Hroot Hd Hwithin Hnamed Hp.
  eexists. split; [apply clear_caches_spec|].
  destruct (find_delete_pyc_keeps_root _ _ _ Hroot Hd Hwithin Hnamed) as [Hroot' Hd'].
  unfold find_rm_pycache. rewrite (isdir_exists _ _ Hroot').
  apply map_lookup_filter_None. right. intros e _. cbn.
  apply not_false_iff_true. unfold in_pycache. apply existsb_exists.
  exists d. split; [now apply within_ancestors|].
  now rewrite Hwithin, Hnamed, Hd'.
Qed.

Lemma clear_caches_empties_pycache_witness :
  ∃ fs',
    PatchTransformers.clear_caches vllm_root (World imported_vllm [])
    = (Ok tt, World fs' [])
    ∧ fs' !! (vllm_root ++ ["__pycache__"; "notes.txt"]) = None.
Proof.
  apply (clear_caches_empties_pycache vllm_root (vllm_root ++ ["__pycache__"])
           (vllm_root ++ ["__pycache__"; "notes.txt"]) (World imported_vllm []));
    vm_compute; reflexivity.
Defined.

(** X13.  A target that is a directory stops patch_transformers.py: with
    the quantization utils.py of the first vllm root a directory, the
    script raises IsADirectoryError at Patch 4.  No later root and no
    later patch is tried, and Patch 5 does not clear the caches. *)
Theorem directory_target_stops_the_script (w : world) (root : path) (rest : list path) :
  List.filter (isdir (fs w)) PatchTransformers.vllm_candidates = root :: rest →
  isdir (fs w) PatchTransformers.ct_base = false →
  fs w !! OS.join root ["model_executor"; "layers"; "quantization";
                        "compressed_tensors"; "utils.py"] = Some Dir →
  PatchTransformers.run w
  = (Raise (IsADirectoryError
              (OS.join root ["model_executor"; "layers"; "quantization";
                             "compressed_tensors"; "utils.py"])),
     World (fs w) (out w ++ [FoundInstallations (root :: rest)])).
Proof.
  intros Hroots Hct Hdir. unfold PatchTransformers.run.
  rewrite (bind_ok _ _ _ _ _ (find_vllm_roots_spec w)), Hroots.
  erewrite bind_ok by (now apply run_patch3_missing).
  apply bind_raise. unfold PatchTransformers.run_patch4. cbn [for_each].
  apply bind_raise. now apply patch_target_dir.
Qed.

Lemma directory_target_stops_the_script_witness :
  PatchTransformers.run (World utils_is_a_directory [])
  = (Raise (IsADirectoryError
              (OS.join vllm_root ["model_executor"; "layers"; "quantization";
                                  "compressed_tensors"; "utils.py"])),
     World utils_is_a_directory ([] ++ [FoundInstallations (vllm_root :: [])])).
Proof.
  apply (directory_target_stops_the_script (World utils_is_a_directory []) vllm_root []);
    vm_compute; reflexivity.
Defined.

(** X14.  However patch_transformers.py ends, it creates no file and no
    directory and turns neither into the other, and it leaves every
    entry as it was except for the .py files below compressed_tensors,
    the four target files under the two vllm candidates, and, at or
    below the directories Patch 5 clears, entries whose name ends in
    .pyc or that are or lie in something named __pycache__. *)
Theorem patch_transformers_touches_only_its_targets :
  only_touches transformers_scope PatchTransformers.run.
Proof.
  unfold PatchTransformers.run.
  apply (only_touches_bind _ (λ roots, roots ⊆ PatchTransformers.vllm_candidates)).
  - apply only_touches_same. intros w. now rewrite find_vllm_roots_spec.
  - intros w roots w'. rewrite find_vllm_roots_spec.
    generalize PatchTransformers.vllm_candidates as l. intros l [= <- _] root Hroot.
    apply list_elem_of_In. apply list_elem_of_In in Hroot.
    now apply filter_In in Hroot as [Hroot _].
  - intros roots Hroots.
    apply only_touches_seq; [apply only_touches_run_patch3 | intros _].
    apply only_touches_seq; [|intros _].
    { apply only_touches_patch_loop; [assumption|]. unfold target_files. set_solver. }
    apply only_touches_seq; [|intros _].
    { apply only_touches_patch_loop; [assumption|]. unfold target_files. set_solver. }
    apply only_touches_seq; [|intros _].
    { apply only_touches_patch_loop; [assumption|]. unfold target_files. set_solver. }
    apply only_touches_seq; [|intros _].
    { apply only_touches_patch_loop; [assumption|]. unfold target_files. set_solver. }
    now apply only_touches_run_patch5.
Qed.

(** X15.  However patch_streaming.py ends, it creates no file and no
    directory and turns neither into the other, and it leaves every
    entry as it was except for config.py of torch._inductor, serving.py
    of the anthropic entry point, and files whose name ends in .pyc
    below the directories of these two. *)
Theorem patch_streaming_touches_only_its_targets :
  only_touches streaming_scope PatchStreaming.run.
Proof.
  assert (∀ top, (top = dirname PatchStreaming._ind_cfg_path
                  ∨ top = PatchStreaming.anthropic_dir) →
                 only_touches streaming_scope (clear_pyc top)) as Hclear.
  { intros top Htop. apply only_touches_clear_pyc. intros p Hb Hn.
    unfold streaming_scope. rewrite Hn. cbn [andb].
    destruct Htop as [-> | ->]; rewrite Hb; now rewrite ?orb_true_r. }
  unfold PatchStreaming.run. apply only_touches_seq; [|intros _].
  - intros w. destruct (fs w !! PatchStreaming._ind_cfg_path) as [[src|]|] eqn:Hfile.
    + rewrite (run_fix0_file _ _ Hfile).
      destruct (PatchStreaming.fix0 src) as [src' [alt| |]]; cbn [snd fs];
        try (split; [apply no_new_entries_refl | reflexivity]).
      split.
      * eapply no_new_entries_trans;
          [exact (no_new_entries_overwrite _ _ _ src' Hfile)|].
        apply no_new_entries_subseteq, without_pyc_files_subseteq.
      * intros p Hp.
        pose proof (Hclear _ (or_introl eq_refl)
                      (World (<[PatchStreaming._ind_cfg_path := File src']> (fs w))
                             (out w))) as [_ Hsame].
        rewrite clear_pyc_spec in Hsame. cbn [snd fs] in Hsame.
        rewrite (Hsame p Hp). apply lookup_insert_ne. intros <-.
        unfold streaming_scope in Hp. now rewrite bool_decide_eq_true_2 in Hp.
    + unfold PatchStreaming.run_fix0.
      change ((get_fs ≫= ?k) w) with (k (fs w) w). cbv beta.
      unfold exists_. rewrite Hfile.
      change ((read_file ?p ≫= ?k) w) with (bind (read_file p) k w).
      unfold bind, read_file. rewrite Hfile.
      split; [apply no_new_entries_refl | reflexivity].
    + rewrite run_fix0_missing by (unfold exists_; now rewrite Hfile).
      split; [apply no_new_entries_refl | reflexivity].
  - intros w. destruct (fs w !! PatchStreaming.fpath) as [[content|]|] eqn:Hfile.
    + rewrite (patch_serving_file _ _ Hfile).
      destruct (PatchStreaming.fix1 content) as [[content1 v1] found].
      destruct (PatchStreaming.fix2 content1) as [content2 v2]. cbv zeta.
      destruct (is_applied v1 || is_applied v2); cbn [snd fs];
        [|split; [apply no_new_entries_refl | reflexivity]].
      split.
      * eapply no_new_entries_trans;
          [exact (no_new_entries_overwrite _ _ _ content2 Hfile)|].
        apply no_new_entries_subseteq, without_pyc_files_subseteq.
      * intros p Hp.
        pose proof (Hclear _ (or_intror eq_refl)
                      (World (<[PatchStreaming.fpath := File content2]> (fs w))
                             (out w))) as [_ Hsame].
        rewrite clear_pyc_spec in Hsame. cbn [snd fs] in Hsame.
        rewrite (Hsame p Hp). apply lookup_insert_ne. intros <-.
        unfold streaming_scope in Hp.
        rewrite (bool_decide_eq_true_2 (PatchStreaming.fpath = PatchStreaming.fpath))
          in Hp by reflexivity.
        now rewrite orb_true_r in Hp.
    + unfold PatchStreaming.patch_serving.
      change ((read_file ?p ≫= ?k) w) with (bind (read_file p) k w).
      unfold bind, read_file. rewrite Hfile.
      split; [apply no_new_entries_refl | reflexivity].
    + rewrite (patch_serving_missing _ Hfile).
      split; [apply no_new_entries_refl | reflexivity].
Qed.

(** X16.  patch_streaming.py opens serving.py without a test for its
    existence.  When the file is missing, the script raises
    FileNotFoundError, and it does so after Fix 0 has run: whatever
    Fix 0 wrote, removed and printed stays, and nothing is printed for
    Fix 1 or Fix 2. *)
Theorem serving_missing_after_fix0 (w : world) :
  fs w !! PatchStreaming.fpath = None →
  fs w !! PatchStreaming._ind_cfg_path ≠ Some Dir →
  ∃ w0 m,
    PatchStreaming.run_fix0 w = (Ok tt, w0)
    ∧ out w0 = out w ++ [m]
    ∧ m ∈ [Fix0Added; Fix0Already; Fix0Skip]
    ∧ PatchStreaming.run w = (Raise (FileNotFoundError PatchStreaming.fpath), w0).
Proof.
  intros Hserving Hcfg.
  assert (∀ w0 m, PatchStreaming.run_fix0 w = (Ok tt, w0) →
                  out w0 = out w ++ [m] → m ∈ [Fix0Added; Fix0Already; Fix0Skip] →
                  fs w0 !! PatchStreaming.fpath = None →
                  ∃ w0 m,
                    PatchStreaming.run_fix0 w = (Ok tt, w0)
                    ∧ out w0 = out w ++ [m]
                    ∧ m ∈ [Fix0Added; Fix0Already; Fix0Skip]
                    ∧ PatchStreaming.run w
                      = (Raise (FileNotFoundError PatchStreaming.fpath), w0)) as Hend.
  { intros w0 m Hrun Hout Hm Hnone. exists w0, m.
    split; [assumption|]. split; [assumption|]. split; [assumption|].
    unfold PatchStreaming.run. rewrite (bind_ok _ _ _ _ _ Hrun).
    now apply patch_serving_missing. }
  destruct (fs w !! PatchStreaming._ind_cfg_path) as [[src|]|] eqn:Hfile;
    [| congruence |].
  - pose proof (run_fix0_file _ _ Hfile) as Hrun.
    destruct (PatchStreaming.fix0 src) as [src' [alt| |]].
    + eapply Hend; [exact Hrun | reflexivity | set_solver |]. cbn [fs].
      rewrite without_pyc_files_lookup, lookup_insert_ne, Hserving by discriminate.
      now destruct (isdir _ _).
    + eapply Hend; [exact Hrun | reflexivity | set_solver | exact Hserving].
    + eapply Hend; [exact Hrun | reflexivity | set_solver | exact Hserving].
  - eapply Hend; [apply run_fix0_missing | reflexivity | set_solver | exact Hserving].
    unfold exists_. now rewrite Hfile.
Qed.

Lemma serving_missing_after_fix0_witness :
  ∃ w0 m,
    PatchStreaming.run_fix0 (World torch_with_config []) = (Ok tt, w0)
    ∧ out w0 = [] ++ [m]
    ∧ m ∈ [Fix0Added; Fix0Already; Fix0Skip]
    ∧ PatchStreaming.run (World torch_with_config [])
      = (Raise (FileNotFoundError PatchStreaming.fpath), w0).
Proof.
  apply (serving_missing_after_fix0 (World torch_with_config [])).
  - vm_compute. reflexivity.
  - vm_compute. discriminate.
Defined.

End ScriptFrameProperties.

(** ** Properties of Patch 3 *)

Section Patch3Properties.
Import PyStr OS Report Script Frame Examples Installed.

(** X17.  Patch 3, when compressed_tensors is a directory, never fails.
    It rewrites exactly the files below that directory whose name ends
    in .py: each gets its text with every extra='forbid' replaced by
    extra='ignore', in both spellings of the quotes, which is the text
    it had when it holds neither.  No other entry is changed, created or
    removed.  One line is printed: the list of the files that held one
    of the spellings, relative to the directory, or the notice that
    there was none. *)
Theorem patch3_rewrites_every_module (w : world) :
  isdir (fs w) PatchTransformers.ct_base = true →
  ∃ fs',
    PatchTransformers.run_patch3 w
    = (Ok tt,
       World fs'
         (out w ++ [match patch3_patched (fs w)
                            (files_below (fs w) PatchTransformers.ct_base) with
                    | [] => Patch3None
                    | patched_files => Patch3In patched_files
                    end]))
    ∧ ∀ q, fs' !! q = patch3_entry q <$> fs w !! q.
Proof.
  intros Hdir. unfold PatchTransformers.run_patch3.
  change ((get_fs ≫= ?k) w) with (k (fs w) w). cbv beta. rewrite Hdir.
  unfold walk. rewrite Hdir.
  destruct (patch3_loop_spec (files_below (fs w) PatchTransformers.ct_base) [] w)
    as (fs' & Hloop & Hlookup).
  { apply NoDup_files_below. }
  { intros p [Hfile Hbelow]%elem_of_files_below. now split. }
  exists fs'. split.
  - rewrite (bind_ok _ _ _ _ _ Hloop). cbn [app].
    now destruct (patch3_patched _ _).
  - intros q. rewrite Hlookup.
    destruct (decide (q ∈ files_below (fs w) PatchTransformers.ct_base)) as [Hin|Hnot].
    + now rewrite (bool_decide_eq_true_2 _ Hin).
    + rewrite (bool_decide_eq_false_2 _ Hnot).
      destruct (fs w !! q) as [[fc|]|] eqn:Hq; [|reflexivity..].
      destruct (below PatchTransformers.ct_base q) eqn:Hbelow.
      * exfalso. apply Hnot, elem_of_files_below. split; [now exists fc | assumption].
      * cbn [fmap option_fmap option_map]. unfold patch3_entry. now rewrite Hbelow.
Qed.

Lemma patch3_rewrites_every_module_witness :
  ∃ fs',
    PatchTransformers.run_patch3 (World compressed_tensors [])
    = (Ok tt,
       World fs'
         ([] ++ [match patch3_patched compressed_tensors
                         (files_below compressed_tensors PatchTransformers.ct_base) with
                 | [] => Patch3None
                 | patched_files => Patch3In patched_files
                 end]))
    ∧ ∀ q, fs' !! q = patch3_entry q <$> compressed_tensors !! q.
Proof.
  apply (patch3_rewrites_every_module (World compressed_tensors [])).
  vm_compute. reflexivity.
Defined.

End Patch3Properties.

(** ** Further properties of the shim *)

Section ShimMoreFacts.
Import Shim ShimSpec Repeated.

Lemma table_column_app_l (table more : list (string * column)) (name : string) :
  name ∈ table.*1 → table_column (table ++ more) name = table_column table name.
Proof.
  induction table as [|[n col] table IH]; cbn.
  - now intros ?%elem_of_nil.
  - destruct (String.eqb n name) eqn:E; [reflexivity|].
    intros [->|Hin]%elem_of_cons; [|now apply IH].
    now rewrite String.eqb_refl in E.
Qed.

Lemma table_column_app_r (table : list (string * column)) (name : string) (col : column) :
  name ∉ table.*1 → table_column (table ++ [(name, col)]) name = col.
Proof.
  induction table as [|[n c] table IH]; cbn.
  - intros _. now rewrite String.eqb_refl.
  - intros Hnot. destruct (String.eqb n name) eqn:E.
    + apply String.eqb_eq in E as ->. exfalso. apply Hnot. left.
    + apply IH. intros Hin. apply Hnot. now right.
Qed.

Lemma lacks_text_is_dataset (dataset : value) :
  lacks_text_has_other dataset → ∃ table, dataset = VDataset table.
Proof.
  intros H. destruct dataset as [|table|label]; [|now exists table|];
    exfalso; refine (no_candidate_without_columns _ _ H); reflexivity.
Qed.

Lemma iter_encoding {encoding : Type} (host : string → string → option encoding)
    (get_encoding : string → option encoding) (f : callable) (model_name : string)
    (n : nat) :
  call_encoding_for_model host get_encoding
    (Nat.iter (S n) compat_encoding_for_model f) model_name
  = match call_encoding_for_model host get_encoding f model_name with
    | Some enc => Some enc
    | None => get_encoding "cl100k_base"
    end.
Proof.
  induction n as [|n IH]; [reflexivity|].
  change (Nat.iter (S (S n)) compat_encoding_for_model f)
    with (compat_encoding_for_model (Nat.iter (S n) compat_encoding_for_model f)).
  cbn [call_encoding_for_model]. rewrite IH.
  destruct (call_encoding_for_model host get_encoding f model_name); [reflexivity|].
  now destruct (get_encoding "cl100k_base").
Qed.

Lemma iter_deliver (f : callable) (args : list value) (kwargs : gmap string value)
    (n : nat) :
  deliver (Nat.iter (S n) compat_openai_inference f) args kwargs
  = deliver (compat_openai_inference f) args kwargs.
Proof.
  revert args kwargs. induction n as [|n IH]; intros args kwargs; [reflexivity|].
  change (Nat.iter (S (S n)) compat_openai_inference f)
    with (compat_openai_inference (Nat.iter (S n) compat_openai_inference f)).
  cbn [deliver]. pose proof (compat_arguments_idempotent args kwargs) as Hidem.
  destruct (compat_arguments args kwargs) as [args' kwargs'].
  rewrite IH. cbn [deliver]. now rewrite Hidem.
Qed.

Lemma executions_wrap (environ : gmap string string) (n : nat)
    (t : tiktoken_module) (api : api_module) :
  environ !! flag = Some "1" →
  executions (S n) environ (Process (Some t) (Some api))
  = Returns
      (Process
         (Some (Tiktoken (Nat.iter (S n) compat_encoding_for_model (encoding_for_model t))))
         (Some (RunApi (Nat.iter (S n) compat_openai_inference (openai_inference api))
                       compat_main))).
Proof.
  intros Hflag. revert t api. induction n as [|n IH]; intros t api.
  - cbn [executions]. now rewrite guard_flag_set.
  - change (executions (S (S n)) environ (Process (Some t) (Some api)))
      with (and_then (_patch_swebench_main environ (Process (Some t) (Some api)))
                     (executions (S n) environ)).
    rewrite guard_flag_set by assumption. cbn [tiktoken run_api and_then].
    rewrite IH. cbn [encoding_for_model openai_inference].
    now rewrite <- !Nat.iter_succ_r.
Qed.

End ShimMoreFacts.

Section ShimMoreProperties.
Import Shim ShimSpec Repeated.

(** X18.  The column that compat_openai_inference adds: for a dataset
    without a column "text" and with one of the other candidates, the
    new dataset has the old columns in their order followed by "text",
    the column "text" holds what the picked column holds, and every old
    column still holds what it held. *)
Theorem added_text_column (dataset : value) :
  lacks_text_has_other dataset →
  let fallback := _pick_text_column dataset in
  let dataset' := add_column "text" (getitem dataset fallback) dataset in
  column_names dataset' = column_names dataset ++ ["text"]
  ∧ getitem dataset' "text" = getitem dataset fallback
  ∧ ∀ name, name ∈ column_names dataset →
            getitem dataset' name = getitem dataset name.
Proof.
  intros H. destruct (lacks_text_is_dataset _ H) as [table ->]. cbv zeta.
  destruct H as [Htext _]. cbn [add_column column_names getitem] in *.
  split; [now rewrite fmap_app|]. split.
  - now apply table_column_app_r.
  - intros name Hname. now apply table_column_app_l.
Qed.

Lemma added_text_column_witness :
  column_names (add_column "text" (getitem issues (_pick_text_column issues)) issues)
  = column_names issues ++ ["text"]
  ∧ getitem (add_column "text" (getitem issues (_pick_text_column issues)) issues) "text"
    = getitem issues (_pick_text_column issues)
  ∧ ∀ name, name ∈ column_names issues →
            getitem (add_column "text" (getitem issues (_pick_text_column issues)) issues)
                    name
            = getitem issues name.
Proof.
  apply (added_text_column issues).
  apply (bool_decide_eq_true_1 (lacks_text_has_other issues)). vm_compute. reflexivity.
Defined.

(** X19.  compat_openai_inference changes nothing but the dataset: the
    arguments it passes on are as many as it received, all positional
    arguments after the first are the ones received, every keyword
    argument other than test_dataset is as received, and the keyword
    arguments are untouched altogether when there is a positional
    argument. *)
Theorem compat_arguments_frame (args : list value) (kwargs : gmap string value) :
  let passed := compat_arguments args kwargs in
  length passed.1 = length args
  ∧ tail passed.1 = tail args
  ∧ (∀ k, k ≠ "test_dataset" → passed.2 !! k = kwargs !! k)
  ∧ (args ≠ [] → passed.2 = kwargs).
Proof.
  cbv zeta. rewrite compat_arguments_spec. cbv zeta.
  destruct (decide (lacks_text_has_other (inspected args kwargs)));
    [|now repeat split].
  destruct args as [|first rest]; cbn [fst snd].
  - split; [reflexivity|]. split; [reflexivity|]. split; [|done].
    intros k Hk. now apply lookup_insert_ne.
  - now repeat split.
Qed.

(** X20.  A dataset passed by keyword together with positional
    arguments: when the keyword dataset lacks "text" and has another
    candidate, the dataset with the added column is put in the place of
    the first positional argument, whatever that was, and the keyword
    argument keeps the dataset without the column. *)
Theorem keyword_dataset_replaces_first_argument (f : callable) (dataset first : value)
    (rest : list value) (kwargs : gmap string value) :
  kwargs !! "test_dataset" = Some dataset →
  lacks_text_has_other dataset →
  deliver (compat_openai_inference f) (first :: rest) kwargs
  = deliver f
      (add_column "text" (getitem dataset (_pick_text_column dataset)) dataset :: rest)
      kwargs.
Proof.
  intros Hkw Hlacks. cbn [deliver]. rewrite compat_arguments_spec.
  assert (inspected (first :: rest) kwargs = dataset) as ->.
  { unfold inspected. rewrite Hkw. cbn [default].
    destruct (lacks_text_is_dataset _ Hlacks) as [table ->]. reflexivity. }
  cbv zeta. now rewrite decide_True by assumption.
Qed.

Lemma keyword_dataset_replaces_first_argument_witness :
  deliver (compat_openai_inference (Host "openai_inference"))
    [VObject "model"; VObject "output_file"] {[ "test_dataset" := issues ]}
  = deliver (Host "openai_inference")
      [add_column "text" (getitem issues (_pick_text_column issues)) issues;
       VObject "output_file"]
      {[ "test_dataset" := issues ]}.
Proof.
  apply (keyword_dataset_replaces_first_argument (Host "openai_inference") issues).
  - apply lookup_singleton_eq.
  - apply (bool_decide_eq_true_1 (lacks_text_has_other issues)). vm_compute.
    reflexivity.
Defined.

(** X21.  With the flag set and both modules importable, [n] executions
    of the guard (one at least) leave tiktoken.encoding_for_model and
    api.openai_inference wrapped [n] times, and the stack of wrappers
    behaves as one wrapper: encoding_for_model returns what the
    original returns, and the cl100k_base encoding when the original
    raises; openai_inference reaches the original with the arguments a
    single wrapper passes on. *)
Theorem guard_executed_n_times (environ : gmap string string) (n : nat)
    (t : tiktoken_module) (api : api_module) :
  environ !! flag = Some "1" →
  executions (S n) environ (Process (Some t) (Some api))
  = Returns
      (Process
         (Some (Tiktoken (Nat.iter (S n) compat_encoding_for_model (encoding_for_model t))))
         (Some (RunApi (Nat.iter (S n) compat_openai_inference (openai_inference api))
                       compat_main)))
  ∧ (∀ (encoding : Type) (host : string → string → option encoding)
       (get_encoding : string → option encoding) model_name,
       call_encoding_for_model host get_encoding
         (Nat.iter (S n) compat_encoding_for_model (encoding_for_model t)) model_name
       = match call_encoding_for_model host get_encoding (encoding_for_model t)
                 model_name with
         | Some enc => Some enc
         | None => get_encoding "cl100k_base"
         end)
  ∧ (∀ args kwargs,
       deliver (Nat.iter (S n) compat_openai_inference (openai_inference api)) args kwargs
       = deliver (openai_inference api) (compat_arguments args kwargs).1
                 (compat_arguments args kwargs).2).
Proof.
  intros Hflag. split; [now apply executions_wrap|]. split.
  - intros encoding host get_encoding model_name. apply iter_encoding.
  - intros args kwargs. rewrite iter_deliver. cbn [deliver].
    now destruct (compat_arguments args kwargs).
Qed.

Lemma guard_executed_n_times_witness :
  executions 3 {[ flag := "1" ]} fresh
  = Returns
      (Process
         (Some (Tiktoken (Nat.iter 3 compat_encoding_for_model
                            (Host "tiktoken.encoding_for_model"))))
         (Some (RunApi (Nat.iter 3 compat_openai_inference
                          (Host "swebench.inference.run_api.openai_inference"))
                       compat_main))).
Proof.
  exact (proj1 (guard_executed_n_times {[ flag := "1" ]} 2
                  (Tiktoken (Host "tiktoken.encoding_for_model"))
                  (RunApi (Host "swebench.inference.run_api.openai_inference")
                          (Host "swebench.inference.run_api.main"))
                  eq_refl)).
Defined.

End ShimMoreProperties.

(** ** When the scripts end normally *)

Section SuccessFacts.
Import PyStr OS Report Script Frame.

Lemma no_new_entries_dir (fs0 fs1 : gmap path entry) (p : path) :
  no_new_entries fs0 fs1 → fs1 !! p = Some Dir → fs0 !! p = Some Dir.
Proof.
  intros Hnew Hp. destruct (Hnew p Dir Hp) as ([c|] & He & Hkind);
    [discriminate | assumption].
Qed.

Lemma no_new_entries_file (fs0 fs1 : gmap path entry) (p : path) (c : string) :
  no_new_entries fs0 fs1 → fs1 !! p = Some (File c) → ∃ c0, fs0 !! p = Some (File c0).
Proof.
  intros Hnew Hp. destruct (Hnew p (File c) Hp) as ([c0|] & He & Hkind);
    [now exists c0 | discriminate].
Qed.

Variable good : gmap path entry → Prop.
Hypothesis good_kept : ∀ fs0 fs1, no_new_entries fs0 fs1 → good fs0 → good fs1.

Lemma succeeds_bind {A B} (Q : A → Prop) (m : M A) (k : A → M B) :
  succeeds good m → (∀ w a w', m w = (Ok a, w') → Q a) →
  (∀ a, Q a → succeeds good (k a)) → succeeds good (m ≫= k).
Proof.
  intros Hm HQ Hk w Hgood. destruct (Hm w Hgood) as (a & w1 & Hrun & Hgood1).
  rewrite (bind_ok _ _ _ _ _ Hrun). exact (Hk a (HQ _ _ _ Hrun) w1 Hgood1).
Qed.

Lemma succeeds_seq {A B} (m : M A) (k : A → M B) :
  succeeds good m → (∀ a, succeeds good (k a)) → succeeds good (m ≫= k).
Proof. intros Hm Hk. apply (succeeds_bind (λ _, True)); auto. Qed.

Lemma succeeds_touching {A} (scope : path → bool) (m : M A) :
  only_touches scope m →
  (∀ w, good (fs w) → ∃ a, (m w).1 = Ok a) →
  succeeds good m.
Proof.
  intros Htouch Hok w Hgood. destruct (Hok w Hgood) as [a Ha].
  exists a, (m w).2. split; [now apply ended_ok|].
  exact (good_kept _ _ (proj1 (Htouch w)) Hgood).
Qed.

Lemma succeeds_for_each {A} (xs : list A) (body : A → M unit) :
  (∀ x, x ∈ xs → succeeds good (body x)) → succeeds good (for_each xs body).
Proof.
  induction xs as [|x xs IH]; intros Hbody; cbn [for_each].
  - intros w Hgood. now exists tt, w.
  - apply succeeds_seq; [apply Hbody; left|].
    intros _. apply IH. intros y Hy. apply Hbody. now right.
Qed.

End SuccessFacts.

Section SuccessProperties.
Import PyStr OS Report Script Frame Examples Installed.

(** X22.  patch_transformers.py can fail only on a directory in the
    place of a target file: from a file system in which none of the
    four target files under the two vllm candidates is a directory,
    the script runs to its end, whatever else is there or missing. *)
Theorem patch_transformers_ends_normally (w : world) :
  (∀ t, t ∈ transformers_targets → fs w !! t ≠ Some Dir) →
  ∃ w', PatchTransformers.run w = (Ok tt, w').
Proof.
  set (good := λ fs0 : gmap path entry,
                 ∀ t, t ∈ transformers_targets → fs0 !! t ≠ Some Dir).
  assert (∀ fs0 fs1, no_new_entries fs0 fs1 → good fs0 → good fs1) as Hkept.
  { intros fs0 fs1 Hnew Hgood t Ht Hdir.
    exact (Hgood t Ht (no_new_entries_dir _ _ _ Hnew Hdir)). }
  assert (∀ roots rel patch report,
            roots ⊆ PatchTransformers.vllm_candidates → rel ∈ target_files →
            succeeds good
              (for_each roots
                 (λ root, PatchTransformers.patch_target (OS.join root rel) patch report)))
    as Hloop.
  { intros roots rel patch report Hroots Hrel. apply succeeds_for_each.
    intros root Hroot.
    assert (OS.join root rel ∈ transformers_targets) as Hin.
    { unfold transformers_targets. apply list_elem_of_bind. exists root.
      split; [|now apply Hroots]. apply list_elem_of_fmap. now exists rel. }
    apply (succeeds_touching good Hkept transformers_scope).
    { apply only_touches_patch_target, target_in_scope; [now apply Hroots | assumption]. }
    intros w0 Hgood. destruct (fs w0 !! OS.join root rel) as [[c|]|] eqn:Hfile.
    - rewrite (patch_target_file _ _ _ _ _ Hfile).
      destruct (patch c) as [c' [alt| |]]; now exists tt.
    - now destruct (Hgood _ Hin).
    - rewrite patch_target_missing by (unfold exists_; now rewrite Hfile).
      now exists tt. }
  intros Hgood.
  assert (succeeds good PatchTransformers.run) as Hrun.
  { unfold PatchTransformers.run.
    apply (succeeds_bind good (λ roots, roots ⊆ PatchTransformers.vllm_candidates)).
    - intros w0 Hw0. rewrite find_vllm_roots_spec. eauto.
    - intros w0 roots w'. rewrite find_vllm_roots_spec.
      generalize PatchTransformers.vllm_candidates as l. intros l [= <- _] root Hroot.
      apply list_elem_of_In. apply list_elem_of_In in Hroot.
      now apply filter_In in Hroot as [Hroot _].
    - intros roots Hroots.
      apply succeeds_seq; [|intros _].
      { apply (succeeds_touching good Hkept _ _ only_touches_run_patch3).
        intros w0 _. destruct (run_patch3_ok w0) as [w1 ->]. now exists tt. }
      apply succeeds_seq; [|intros _].
      { apply Hloop; [assumption|]. unfold target_files. set_solver. }
      apply succeeds_seq; [|intros _].
      { apply Hloop; [assumption|]. unfold target_files. set_solver. }
      apply succeeds_seq; [|intros _].
      { apply Hloop; [assumption|]. unfold target_files. set_solver. }
      apply succeeds_seq; [|intros _].
      { apply Hloop; [assumption|]. unfold target_files. set_solver. }
      apply (succeeds_touching good Hkept _ _ (only_touches_run_patch5 _ Hroots)).
      intros w0 _. destruct (run_patch5_spec roots w0) as (fs' & -> & _).
      now exists tt. }
  destruct (Hrun w Hgood) as ([] & w' & Hok & _). now exists w'.
Qed.

Lemma patch_transformers_ends_normally_witness :
  ∃ w', PatchTransformers.run (World pristine_vllm []) = (Ok tt, w').
Proof.
  apply (patch_transformers_ends_normally (World pristine_vllm [])).
  intros t Ht. unfold transformers_targets in Ht.
  cbn in Ht. set_unfold. destruct_or!; subst t; vm_compute; discriminate.
Defined.

(** X23.  patch_streaming.py ends normally exactly when serving.py of
    the anthropic entry point is a file and config.py of
    torch._inductor is not a directory; a missing config.py is no
    obstacle. *)
Theorem patch_streaming_ends_normally_iff (w : world) :
  (∃ w', PatchStreaming.run w = (Ok tt, w'))
  ↔ (∃ content, fs w !! PatchStreaming.fpath = Some (File content))
    ∧ fs w !! PatchStreaming._ind_cfg_path ≠ Some Dir.
Proof.
  assert (∀ w0, fs w0 !! PatchStreaming._ind_cfg_path ≠ Some Dir →
                ∃ w1, PatchStreaming.run_fix0 w0 = (Ok tt, w1)) as Hfix0.
  { intros w0 Hcfg.
    destruct (fs w0 !! PatchStreaming._ind_cfg_path) as [[src|]|] eqn:Hfile;
      [| congruence |].
    - rewrite (run_fix0_file _ _ Hfile).
      destruct (PatchStreaming.fix0 src) as [src' [alt| |]]; eauto.
    - rewrite run_fix0_missing by (unfold exists_; now rewrite Hfile). eauto. }
  assert (∀ w0 w1, PatchStreaming.run_fix0 w0 = (Ok tt, w1) →
                   ∀ p, p ≠ PatchStreaming._ind_cfg_path →
                        name_endswith ".pyc" p = false →
                        fs w1 !! p = fs w0 !! p) as Hframe.
  { intros w0 w1 Hrun p Hp Hn.
    destruct (fs w0 !! PatchStreaming._ind_cfg_path) as [[src|]|] eqn:Hfile.
    - rewrite (run_fix0_file _ _ Hfile) in Hrun.
      destruct (PatchStreaming.fix0 src) as [src' [alt| |]];
        injection Hrun as <-; cbn [fs]; try reflexivity.
      rewrite without_pyc_files_lookup, lookup_insert_ne, Hn, andb_false_r by congruence.
      destruct (isdir _ _); [|reflexivity]. now destruct (fs w0 !! p) as [[?|]|].
    - unfold PatchStreaming.run_fix0 in Hrun.
      change ((get_fs ≫= ?k) w0) with (k (fs w0) w0) in Hrun. cbv beta in Hrun.
      unfold exists_ in Hrun. rewrite Hfile in Hrun.
      change ((read_file ?q ≫= ?k) w0) with (bind (read_file q) k w0) in Hrun.
      unfold bind, read_file in Hrun. rewrite Hfile in Hrun. discriminate.
    - rewrite run_fix0_missing in Hrun by (unfold exists_; now rewrite Hfile).
      now injection Hrun as <-. }
  assert (PatchStreaming.fpath ≠ PatchStreaming._ind_cfg_path) as Hdiff by discriminate.
  assert (name_endswith ".pyc" PatchStreaming.fpath = false) as Hname
    by (vm_compute; reflexivity).
  split.
  - intros [w' Hrun]. unfold PatchStreaming.run in Hrun.
    apply bind_inv in Hrun as ([] & w1 & Hfirst & Hserving).
    apply patch_serving_ok in Hserving as [content Hcontent].
    rewrite (Hframe _ _ Hfirst _ Hdiff Hname) in Hcontent.
    split; [now exists content|]. intros Hdir.
    unfold PatchStreaming.run_fix0 in Hfirst.
    change ((get_fs ≫= ?k) w) with (k (fs w) w) in Hfirst. cbv beta in Hfirst.
    unfold exists_ in Hfirst. rewrite Hdir in Hfirst.
    change ((read_file ?q ≫= ?k) w) with (bind (read_file q) k w) in Hfirst.
    unfold bind, read_file in Hfirst. rewrite Hdir in Hfirst. discriminate.
  - intros [[content Hcontent] Hcfg]. destruct (Hfix0 w Hcfg) as [w1 Hfirst].
    unfold PatchStreaming.run. rewrite (bind_ok _ _ _ _ _ Hfirst).
    rewrite <- (Hframe _ _ Hfirst _ Hdiff Hname) in Hcontent.
    rewrite (patch_serving_file _ _ Hcontent).
    destruct (PatchStreaming.fix1 content) as [[content1 v1] found].
    destruct (PatchStreaming.fix2 content1) as [content2 v2]. cbv zeta.
    destruct (is_applied v1 || is_applied v2); eauto.
Qed.

End SuccessProperties.
